(** * QuizMaster API: attempt lifecycle, scoring and ranking

    A shallow embedding of the Go code of

    - [ScoringService.CalculateScore]
      (package [services], in [src/services/course_service.go]),
    - [AttemptHandler.StartAttempt], [SubmitAnswer] and [CompleteAttempt]
      (package [handlers], in [src/handlers/user_handler.go]),
    - [LeaderboardHandler.GetQuizLeaderboard], [GetMyRank] and
      [GetGlobalLeaderboard] (package [handlers], in [src/unnamed/part_003]),
    - the records of [src/models/models.go],

    and the properties the specification states about them.

    Modelling conventions.

    - Go [int] values are [Z]; the only integer arithmetic that can leave the
      64-bit range on an arbitrary stored value ([v + '0'] and the conversion
      to [rune] in [SubmitAnswer]) has its wrap-around written out.
    - A Go [float64] value is the rational number [Q] it denotes.  Module
      [F64] gives the arithmetic of binary64 on them: every operation is the
      exact one followed by [F64.rnd], rounding to the nearest binary64 number
      with ties to the even mantissa, subnormal numbers included
      ([rnd_representable], [rnd_nearest]).  Infinities and NaN are not
      modelled: [F64.rnd] never overflows, and a quotient by zero is 0.  On
      64-bit integers the sums and products of the handlers stay far below
      the largest binary64 number, and every divisor is a constant that is
      not zero or, in [percentage_of], a number tested to be positive.
      Operations are rounded one by one, as on amd64; the Go specification
      also allows a fused multiply-add.  Module [Binary64] evaluates the
      scoring function and the operations on the processor's binary64
      numbers: [CalculateScore_binary64_grid], [F64_binary64_operations] and
      [Seconds_binary64] check that they agree with [F64] on samples.  The
      arithmetic of the aggregation pipeline of [GetGlobalLeaderboard],
      which MongoDB evaluates, is exact.
    - A MongoDB collection is the list of its documents in natural (insertion)
      order.  [FindOne] returns the first matching document, [InsertOne]
      refuses a duplicate [_id], [UpdateOne] updates the first match, and a
      sorted [Find] is a stable sort of the natural order (MongoDB itself
      leaves the order of documents with equal sort keys open).  Storage
      failures other than those are not modelled.
    - A handler is a function from its inputs (decoded request, authenticated
      user, clock reading, fresh identifier, answer of the course service) and
      the collections to a response and the new attempt collection.  Handlers
      run one after the other; interleavings of their storage calls are not
      modelled. *)

From Stdlib Require Import ZArith QArith Qabs Qround Qpower Lia Lqa Bool List.
From Stdlib Require Import Ascii String Sorted Permutation Floats.
Import ListNotations.

Set Implicit Arguments.

Local Open Scope Z_scope.
Local Open Scope Q_scope.

(* ================================================================= *)
(** ** Numbers *)

Module GoMath.

(** [math.Trunc]: the integer part of [x]. *)
Definition Trunc (x : Q) : Z :=
  if Qle_bool 0 x then Qfloor x else Qceiling x.

(** [math.Copysign(1, x)]. *)
Definition Copysign1 (x : Q) : Q :=
  if Qle_bool 0 x then 1 else - (1).

(** [math.Round]: nearest integer, halves away from zero, by the reference
    definition the Go library gives for it:
<<
      t := Trunc(x)
      if Abs(x-t) >= 0.5 { return t + Copysign(1, x) }
      return t
>> *)
Definition Round (x : Q) : Q :=
  let t := inject_Z (Trunc x) in
  if Qle_bool (1 # 2) (Qabs (x - t)) then t + Copysign1 x else t.

(** [int64] wrap-around. *)
Definition int64 (z : Z) : Z := ((z + 2 ^ 63) mod 2 ^ 64 - 2 ^ 63)%Z.

(** [rune(z)], that is [int32(z)]: the low 32 bits, signed. *)
Definition rune (z : Z) : Z := ((z + 2 ^ 31) mod 2 ^ 32 - 2 ^ 31)%Z.

(** [int(x)] for a [float64] [x]: the fraction is discarded.  Out of the
    64-bit range Go leaves the result to the implementation; here it wraps. *)
Definition int_of_float64 (x : Q) : Z := int64 (Trunc x).

Definition byte (z : Z) : ascii := ascii_of_N (Z.to_N (z mod 256)).

(** [string(r)] for a [rune] [r]: its UTF-8 encoding, [U+FFFD] for a value
    that is not a Unicode scalar value. *)
Definition string_of_rune (r : Z) : string :=
  let r := if ((r <? 0) || (1114111 <? r) || ((55296 <=? r) && (r <=? 57343)))%Z
           then 65533%Z else r in
  if (r <? 128)%Z then String (byte r) EmptyString
  else if (r <? 2048)%Z then
    String (byte (Z.lor 192 (Z.shiftr r 6)))
      (String (byte (Z.lor 128 (Z.land r 63))) EmptyString)
  else if (r <? 65536)%Z then
    String (byte (Z.lor 224 (Z.shiftr r 12)))
      (String (byte (Z.lor 128 (Z.land (Z.shiftr r 6) 63)))
         (String (byte (Z.lor 128 (Z.land r 63))) EmptyString))
  else
    String (byte (Z.lor 240 (Z.shiftr r 18)))
      (String (byte (Z.lor 128 (Z.land (Z.shiftr r 12) 63)))
         (String (byte (Z.lor 128 (Z.land (Z.shiftr r 6) 63)))
            (String (byte (Z.lor 128 (Z.land r 63))) EmptyString))).

End GoMath.

(** Binary64 arithmetic on the rationals. *)
Module F64.

Definition pow2 (e : Z) : Q := 2 ^ e.

(** The integer nearest to [q], a tie going to the even one. *)
Definition half_even (q : Q) : Z :=
  let f := Qfloor q in
  match Qcompare (q - inject_Z f) (1 # 2) with
  | Lt => f
  | Gt => (f + 1)%Z
  | Eq => if Z.even f then f else (f + 1)%Z
  end.

(** The exponent of the unit in the last place of [x > 0]: the [e] with
    [2^(52+e) <= x < 2^(53+e)], and [-1074] for a subnormal [x].  The
    logarithms of numerator and denominator give it up to one. *)
Definition exponent (x : Q) : Z :=
  let g := (Z.log2 (Qnum x) - Z.log2 (Z.pos (Qden x)) - 53)%Z in
  Z.max (-1074) (if Qle_bool (pow2 (53 + g)) x then g + 1 else g).

(** What [exponent] computes. *)
Definition ulp_exponent (x : Q) (e : Z) : Prop :=
  (-1074 <= e)%Z /\ x < pow2 (53 + e) /\ ((-1074 < e)%Z -> pow2 (52 + e) <= x).

Definition rnd_pos (x : Q) : Q :=
  let e := exponent x in inject_Z (half_even (x / pow2 e)) * pow2 e.

(** Rounding to binary64: to the nearest multiple of the unit in the last
    place, ties to even; the result is a fraction in lowest terms. *)
Definition rnd (x : Q) : Q :=
  let x := Qred x in
  match Qnum x with
  | Z0 => 0
  | Zpos _ => Qred (rnd_pos x)
  | Zneg _ => Qred (- rnd_pos (- x))
  end.

Definition add (x y : Q) : Q := rnd (x + y).
Definition sub (x y : Q) : Q := rnd (x - y).
Definition mul (x y : Q) : Q := rnd (x * y).
Definition div (x y : Q) : Q := rnd (x / y).

(** [float64(n)] for an integer [n]. *)
Definition of_int (n : Z) : Q := rnd (inject_Z n).

(** A sum accumulated from the left, as a Go loop or repeated [$inc] does. *)
Definition sum (l : list Q) : Q := fold_left add l 0.

(** The binary64 numbers: [m * 2^e] with [|m| <= 2^53] and [e >= -1074]. *)
Definition representable (x : Q) : Prop :=
  exists m e : Z,
    (Z.abs m <= 2 ^ 53)%Z /\ (-1074 <= e)%Z /\ x == inject_Z m * pow2 e.

End F64.

Definition Qlt_bool (x y : Q) : bool := negb (Qle_bool y x).

(** The exact sum of a list of numbers. *)
Definition Qsum (l : list Q) : Q := fold_left Qplus l 0.

(* ================================================================= *)
(** ** The scoring service *)

(** [func (ss *ScoringService) CalculateScore(basePoints int,
    timeToAnswer int, isCorrect bool) float64].  The literals [1.0], [5.0],
    [0.5] and [100] are binary64 numbers; [0.3] is not, the constant is the
    binary64 number nearest to it.  [math.Round] of a binary64 number is one
    ([Round_representable]). *)
Definition CalculateScore (basePoints timeToAnswer : Z) (isCorrect : bool)
  : Q :=
  if negb isCorrect then 0
  else
    let multiplier :=
      if (timeToAnswer <=? 5)%Z then 1
      else if (timeToAnswer <=? 10)%Z
           then F64.sub 1
                  (F64.mul (F64.div (F64.of_int (timeToAnswer - 5)) 5)
                     (F64.rnd (3 # 10)))
           else 1 # 2 in
    let score := F64.mul (F64.of_int basePoints) multiplier in
    F64.div (GoMath.Round (F64.mul score 100)) 100.

(** The value of the variable [multiplier] of [CalculateScore]. *)
Definition multiplier (timeToAnswer : Z) : Q :=
  if (timeToAnswer <=? 5)%Z then 1
  else if (timeToAnswer <=? 10)%Z
       then F64.sub 1
              (F64.mul (F64.div (F64.of_int (timeToAnswer - 5)) 5)
                 (F64.rnd (3 # 10)))
       else 1 # 2.

(** The same function on the binary64 numbers of the processor, for
    cross-checking [F64]. *)
Module Binary64.
Local Open Scope float_scope.

Definition of_int (z : Z) : float :=
  if (z <? 0)%Z then - (PrimFloat.of_uint63 (Uint63.of_Z (- z)))
  else PrimFloat.of_uint63 (Uint63.of_Z z).

(** [math.Round] on a binary64 value [(-1)^s * m * 2^e]. *)
Definition Round (x : float) : float :=
  match Prim2SF x with
  | S754_finite s m e =>
      if (0 <=? e)%Z then x
      else
        let d := (2 ^ (- e))%Z in
        let q := (Z.pos m / d)%Z in
        let r := (Z.pos m mod d)%Z in
        let n := if (d <=? 2 * r)%Z then (q + 1)%Z else q in
        if s then - (of_int n) else of_int n
  | _ => x
  end.

(** [0x1.3333333333333p-2] is the binary64 value of the literal [0.3]. *)
Definition CalculateScore (basePoints timeToAnswer : Z) (isCorrect : bool)
  : float :=
  if negb isCorrect then 0
  else
    let multiplier :=
      if (timeToAnswer <=? 5)%Z then 1
      else if (timeToAnswer <=? 10)%Z
           then 1 - ((of_int (timeToAnswer - 5) / 5) * 0x1.3333333333333p-2)
           else 0x1p-1 in
    let score := of_int basePoints * multiplier in
    Round (score * 100) / 100.

(** The rational number a finite binary64 number denotes. *)
Definition to_Q (x : float) : Q :=
  match Prim2SF x with
  | S754_finite s m e =>
      (if s then - inject_Z (Z.pos m) else inject_Z (Z.pos m))%Q
      * F64.pow2 e
  | _ => 0%Q
  end.

(** Binary64 numbers the operations of [F64] are compared on with those of
    the processor, and numbers at the bottom of the range, where numbers are
    subnormal and products underflow. *)
Definition samples : list float :=
  [1; 3; 100; 0x1.999999999999ap-4; 0x1.3333333333333p-2;
   0x1.e147ae147ae14p-1; 0x1.199999999999ap+3; 0x1.a666666666666p+4; 1e9;
   0x1p53; 0x1.fffffffffffffp52; 16777216; 0x1.5555555555555p-2; 1e14;
   -0x1.3333333333333p-2; -0x1p53].

Definition tiny_samples : list float :=
  [0x1p-1074; 0x3p-1074; 0x1.fffffffffffffp-1023; 0x1.23456789abcdep-1040].

Definition agree (op : float -> float -> float) (opQ : Q -> Q -> Q)
  (x y : float) : bool :=
  Qeq_bool (to_Q (op x y)) (opQ (to_Q x) (to_Q y)).

End Binary64.

(** Sums, differences, products and quotients of the samples (no quotient by
    a tiny sample, which overflows), and sums and products of a sample and a
    tiny sample and of two tiny samples. *)
Definition binary64_operations_agree : bool :=
  forallb
    (fun x =>
       forallb
         (fun y =>
            Binary64.agree PrimFloat.add F64.add x y
            && Binary64.agree PrimFloat.sub F64.sub x y
            && Binary64.agree PrimFloat.mul F64.mul x y
            && Binary64.agree PrimFloat.div F64.div x y)
         Binary64.samples
       && forallb
            (fun y =>
               Binary64.agree PrimFloat.add F64.add x y
               && Binary64.agree PrimFloat.sub F64.sub y x
               && Binary64.agree PrimFloat.mul F64.mul x y)
            Binary64.tiny_samples)
    Binary64.samples
  && forallb
       (fun x =>
          forallb
            (fun y =>
               Binary64.agree PrimFloat.add F64.add x y
               && Binary64.agree PrimFloat.mul F64.mul x y)
            Binary64.tiny_samples)
       Binary64.tiny_samples.

(** Base points the two models are compared on: 1 to 200, and larger ones
    up to and beyond [2^53]. *)
Definition grid_points : list Z :=
  map Z.of_nat (seq 1 200)
  ++ [999; 1001; 12345; 65537; 999999; 123456789; 10 ^ 12; 10 ^ 12 + 1;
      10 ^ 13 + 7; 10 ^ 14; 2 ^ 53 - 1; 2 ^ 53; 2 ^ 53 + 1; 2 ^ 53 + 3;
      10 ^ 17 + 1; 2 ^ 62 + 12345]%Z.

(** Agreement of the two models for those base points and response times
    [0..16]. *)
Definition binary64_grid_agrees : bool :=
  forallb
    (fun p =>
       forallb
         (fun t =>
            Qeq_bool (Binary64.to_Q (Binary64.CalculateScore p t true))
              (CalculateScore p t true))
         (map Z.of_nat (seq 0 17)))
    grid_points.

(* ================================================================= *)
(** ** Rounding, as the specification words it *)

(** [n] is [x] rounded to the nearest integer, a tie going to the integer
    farther from zero. *)
Definition nearest_away (x : Q) (n : Z) : Prop :=
  Qabs (inject_Z n - x) <= 1 # 2 /\
  (Qabs (inject_Z n - x) == 1 # 2 -> Qabs x < Qabs (inject_Z n)).

(** [r] is [x] rounded to two decimal places, ties away from zero. *)
Definition rounded2_away (x r : Q) : Prop :=
  exists n : Z, r == inject_Z n / 100 /\ nearest_away (x * 100) n.

(** The multiplier of the specification for a response time above 5 and up
    to 10 seconds, as a real number. *)
Definition decay (responseTime : Z) : Q :=
  1 - ((inject_Z responseTime - 5) / 5) * (3 # 10).

(** The share of the base points the specification grants, as a real
    number. *)
Definition policy (responseTime : Z) (isCorrect : bool) : Q :=
  if negb isCorrect then 0
  else if (responseTime <=? 5)%Z then 1
  else if (responseTime <=? 10)%Z then decay responseTime
  else 1 # 2.

Local Open Scope string_scope.
Local Open Scope list_scope.

(* ================================================================= *)
(** ** The records of models/models.go *)

(** [primitive.ObjectID]: twelve bytes, read as a number. *)
Definition ObjectID := N.

(** [time.Time] and [time.Duration] in nanoseconds. *)
Definition Time := Z.
Definition Duration := Z.

Module GoTime.

Definition Second : Duration := 1000000000%Z.

Definition minDuration : Duration := (- 2 ^ 63)%Z.
Definition maxDuration : Duration := (2 ^ 63 - 1)%Z.

(** [t.Sub(u)]: the difference, or the minimum or maximum [Duration] when the
    difference does not fit (about 292 years). *)
Definition Sub (t u : Time) : Duration :=
  let d := (t - u)%Z in
  if (d <? minDuration)%Z then minDuration
  else if (maxDuration <? d)%Z then maxDuration
  else d.

(** [d.Seconds()]:
<<
      sec := d / Second
      nsec := d % Second
      return float64(sec) + float64(nsec)/1e9
>> *)
Definition Seconds (d : Duration) : Q :=
  let sec := Z.quot d Second in
  let nsec := Z.rem d Second in
  F64.add (F64.of_int sec) (F64.div (F64.of_int nsec) (inject_Z Second)).

End GoTime.

(** [Duration.Seconds] on the binary64 numbers of the processor, and the
    durations it is compared on with [GoTime.Seconds]. *)
Definition Binary64_Seconds (d : Duration) : float :=
  (Binary64.of_int (Z.quot d GoTime.Second)
   + Binary64.of_int (Z.rem d GoTime.Second) / 1e9)%float.

Definition binary64_seconds_agree : bool :=
  forallb
    (fun d => Qeq_bool (Binary64.to_Q (Binary64_Seconds d)) (GoTime.Seconds d))
    [0; 1; 999999999; 1000000000; 1500000000; 20500000000; -20500000000;
     86399999999999; 16777215999999999; 16777216999999999;
     -16777216999999999; 8388608999999999; 123456789123456789;
     2 ^ 63 - 1; - 2 ^ 63 + 1]%Z.

(** The number of seconds below which [Duration.Seconds] is proved to keep
    the whole seconds of a duration: about 194 days. *)
Definition seconds_limit : Z := (2 ^ 24)%Z.

(** A value held in an [interface{}], by its dynamic type.  [GoOther] stands
    for every dynamic type the handlers do not distinguish ([nil], [int32],
    [int64], documents, ...). *)
Inductive GoValue : Type :=
| GoString (s : string)
| GoBool (b : bool)
| GoInt (v : Z)
| GoFloat64 (v : Q)
| GoOther.

Definition QuestionTypeTrueFalse : string := "true_false".
Definition QuestionTypeMultipleChoice : string := "multiple_choice".

Definition StatusPending : string := "pending".
Definition StatusApproved : string := "approved".
Definition StatusRejected : string := "rejected".

Record Question : Type := mkQuestion {
  q_ID : ObjectID;
  q_Type : string;
  q_Options : list string;
  q_CorrectAnswer : GoValue;
  q_TimeLimit : Z;
  q_Points : Z;
  q_Order : Z
}.

(** Of a [Quiz], the fields the attempt handlers read. *)
Record Quiz : Type := mkQuiz {
  quiz_ID : ObjectID;
  quiz_CourseID : string;
  quiz_Status : string;
  quiz_Questions : list Question
}.

Record Answer : Type := mkAnswer {
  ans_QuestionID : ObjectID;
  ans_StudentAnswer : GoValue;
  ans_IsCorrect : bool;
  ans_TimeToAnswer : Z;
  ans_PointsEarned : Q;
  ans_AnsweredAt : Time
}.

(** [CompletedAt] is a [*time.Time] stored with [omitempty]: the field
    [completed_at] exists in the document exactly when it is [Some]. *)
Record QuizAttempt : Type := mkQuizAttempt {
  att_ID : ObjectID;
  att_QuizID : ObjectID;
  att_StudentID : ObjectID;
  att_Answers : list Answer;
  att_TotalScore : Q;
  att_MaxScore : Q;
  att_StartedAt : Time;
  att_CompletedAt : option Time;
  att_TimeTaken : Z
}.

Record User : Type := mkUser {
  user_ID : ObjectID;
  user_FirstName : string;
  user_LastName : string
}.

Record LeaderboardEntry : Type := mkLeaderboardEntry {
  le_Rank : Z;
  le_StudentID : ObjectID;
  le_StudentName : string;
  le_Score : Q;
  le_MaxScore : Q;
  le_Percentage : Q;
  le_TimeTaken : Z;
  le_CompletedAt : Time
}.

(* ================================================================= *)
(** ** The storage layer *)

Module Mongo.

Definition FindOne {A : Type} (filter : A -> bool) (c : list A) : option A :=
  find filter c.

Definition Find {A : Type} (filter : A -> bool) (c : list A) : list A :=
  List.filter filter c.

Definition CountDocuments {A : Type} (filter : A -> bool) (c : list A) : Z :=
  Z.of_nat (List.length (List.filter filter c)).

(** [InsertOne] into the attempts: the unique index on [_id] refuses a
    document whose identifier is taken. *)
Definition InsertOne (a : QuizAttempt) (c : list QuizAttempt)
  : option (list QuizAttempt) :=
  if existsb (fun x => N.eqb (att_ID x) (att_ID a)) c then None
  else Some (c ++ [a]).

(** [UpdateOne]: the first document matching the filter is updated; nothing
    happens (and no error is raised) when there is none. *)
Fixpoint UpdateOne {A : Type} (filter : A -> bool) (update : A -> A)
  (c : list A) : list A :=
  match c with
  | [] => []
  | x :: c' =>
      if filter x then update x :: c' else x :: UpdateOne filter update c'
  end.

(** A stable insertion sort: [x] is put in front of the first element that
    does not come strictly before it. *)
Fixpoint insert_sorted {A : Type} (before : A -> A -> bool) (x : A)
  (l : list A) : list A :=
  match l with
  | [] => [x]
  | y :: l' =>
      if before y x then y :: insert_sorted before x l' else x :: y :: l'
  end.

Definition sort {A : Type} (before : A -> A -> bool) (l : list A) : list A :=
  fold_right (insert_sorted before) [] l.

(** [$divide]: MongoDB fails the aggregation on a zero divisor.  The quotient
    is the exact one. *)
Definition divide (x y : Q) : option Q :=
  if Qeq_bool y 0 then None else Some (x / y).

End Mongo.

(** [primitive.ObjectIDFromHex]: exactly 24 hexadecimal digits. *)
Definition hex_digit (c : ascii) : option N :=
  let n := N_of_ascii c in
  if ((48 <=? n) && (n <=? 57))%N then Some (n - 48)%N
  else if ((97 <=? n) && (n <=? 102))%N then Some (n - 87)%N
  else if ((65 <=? n) && (n <=? 70))%N then Some (n - 55)%N
  else None.

Fixpoint hex_value (s : string) (acc : N) : option N :=
  match s with
  | EmptyString => Some acc
  | String c s' =>
      match hex_digit c with
      | Some d => hex_value s' (16 * acc + d)%N
      | None => None
      end
  end.

Definition ObjectIDFromHex (s : string) : option ObjectID :=
  if Nat.eqb (String.length s) 24 then hex_value s 0%N else None.

(** What a handler hands to [c.JSON]: a status with a body, or a status with
    [gin.H{"error": msg}]. *)
Inductive Response (A : Type) : Type :=
| JSON (status : Z) (body : A)
| Error (status : Z) (msg : string).

Arguments JSON {A} status body.
Arguments Error {A} status msg.

Definition StatusOK : Z := 200.
Definition StatusCreated : Z := 201.
Definition StatusBadRequest : Z := 400.
Definition StatusForbidden : Z := 403.
Definition StatusNotFound : Z := 404.
Definition StatusConflict : Z := 409.
Definition StatusInternalServerError : Z := 500.

(** The message of gin's validator for the fields of [struct] whose
    [binding:"required"] tag fails (a field holding the zero value of its
    type). *)
Definition required_message (struct : string) (fields : list string) : string :=
  String.concat (String (ascii_of_N 10) EmptyString)
    (map (fun f => ("Key: '" ++ struct ++ "." ++ f
                    ++ "' Error:Field validation for '" ++ f
                    ++ "' failed on the 'required' tag")%string) fields).

(* ================================================================= *)
(** ** The attempt handlers *)

Record StartAttemptRequest : Type := mkStartAttemptRequest {
  start_QuizID : string
}.

(** The outcome of [courseService.CheckCourseCompletion]. *)
Inductive CourseCheck : Type :=
| CourseAnswer (completed : bool)
| CourseFailure.

Definition ongoing_attempt (quizID studentID : ObjectID) (a : QuizAttempt)
  : bool :=
  N.eqb (att_QuizID a) quizID && N.eqb (att_StudentID a) studentID
  && match att_CompletedAt a with None => true | Some _ => false end.

(** The loop
    [for _, q := range quiz.Questions { maxScore += float64(q.Points) }]. *)
Definition maxScore_of (questions : list Question) : Q :=
  fold_left (fun maxScore q => F64.add maxScore (F64.of_int (q_Points q)))
    questions 0.

(** The quiz as returned to the learner: [CorrectAnswer = nil] everywhere. *)
Definition redact (quiz : Quiz) : Quiz :=
  mkQuiz (quiz_ID quiz) (quiz_CourseID quiz) (quiz_Status quiz)
    (map (fun q => mkQuestion (q_ID q) (q_Type q) (q_Options q) GoOther
                     (q_TimeLimit q) (q_Points q) (q_Order q))
       (quiz_Questions quiz)).

(** [func (h *AttemptHandler) StartAttempt(c *gin.Context)].

    [studentID] is the [user_id] of the context, [courseService] the external
    course API at the time of the call, [newID] the result of
    [primitive.NewObjectID()], [now] the result of [time.Now()]. *)
Definition StartAttempt (quizzes : list Quiz)
  (courseService : ObjectID -> string -> CourseCheck)
  (req : StartAttemptRequest) (studentID newID : ObjectID) (now : Time)
  (attempts : list QuizAttempt)
  : Response (QuizAttempt * Quiz) * list QuizAttempt :=
  if String.eqb (start_QuizID req) "" then
    (Error StatusBadRequest
       (required_message "StartAttemptRequest" ["QuizID"]), attempts)
  else
  match ObjectIDFromHex (start_QuizID req) with
  | None => (Error StatusBadRequest "Invalid quiz ID", attempts)
  | Some quizID =>
  match Mongo.FindOne (fun q => N.eqb (quiz_ID q) quizID) quizzes with
  | None => (Error StatusNotFound "Quiz not found", attempts)
  | Some quiz =>
  if negb (String.eqb (quiz_Status quiz) StatusApproved) then
    (Error StatusForbidden "Quiz is not available for attempts", attempts)
  else
  match courseService studentID (quiz_CourseID quiz) with
  | CourseFailure =>
      (Error StatusInternalServerError "Failed to verify course completion",
       attempts)
  | CourseAnswer false =>
      (Error StatusForbidden
         "You must complete the required course before attempting this quiz",
       attempts)
  | CourseAnswer true =>
  match Mongo.FindOne (ongoing_attempt quizID studentID) attempts with
  | Some _ =>
      (Error StatusConflict
         "You already have an ongoing attempt for this quiz", attempts)
  | None =>
  let maxScore := maxScore_of (quiz_Questions quiz) in
  let attempt :=
    mkQuizAttempt newID quizID studentID [] 0 maxScore now None 0 in
  match Mongo.InsertOne attempt attempts with
  | None =>
      (Error StatusInternalServerError "Failed to start quiz attempt",
       attempts)
  | Some attempts' =>
      (JSON StatusCreated (attempt, redact quiz), attempts')
  end end end end end.

Record SubmitAnswerRequest : Type := mkSubmitAnswerRequest {
  sub_AttemptID : string;
  sub_QuestionID : string;
  sub_Answer : string;
  sub_TimeToAnswer : Z
}.

Record SubmitAnswerResponse : Type := mkSubmitAnswerResponse {
  is_correct : bool;
  points_earned : Q;
  message : string
}.

Definition submit_missing_fields (req : SubmitAnswerRequest) : list string :=
  (if String.eqb (sub_AttemptID req) "" then ["AttemptID"] else [])
  ++ (if String.eqb (sub_QuestionID req) "" then ["QuestionID"] else [])
  ++ (if String.eqb (sub_Answer req) "" then ["Answer"] else [])
  ++ (if Z.eqb (sub_TimeToAnswer req) 0 then ["TimeToAnswer"] else []).

(** The type switch of [SubmitAnswer] on [question.CorrectAnswer]:
<<
      case string:  correctAnswerStr = v
      case bool:    "true" / "false"
      case int:     correctAnswerStr = string(rune(v + '0'))
      case float64: correctAnswerStr = string(rune(int(v) + '0'))
>>
    and [""] for every other dynamic type. *)
Definition correctAnswerStr (v : GoValue) : string :=
  match v with
  | GoString s => s
  | GoBool b => if b then "true" else "false"
  | GoInt v =>
      GoMath.string_of_rune (GoMath.rune (GoMath.int64 (v + 48)))
  | GoFloat64 v =>
      GoMath.string_of_rune
        (GoMath.rune (GoMath.int64 (GoMath.int_of_float64 v + 48)))
  | GoOther => ""
  end.

(** The [$push] of the answer and the [$inc] of [total_score], one update
    document applied to one attempt.  Both [total_score] and the increment
    are doubles, and [$inc] adds them as such. *)
Definition push_answer (answer : Answer) (a : QuizAttempt) : QuizAttempt :=
  mkQuizAttempt (att_ID a) (att_QuizID a) (att_StudentID a)
    (att_Answers a ++ [answer])
    (F64.add (att_TotalScore a) (ans_PointsEarned answer))
    (att_MaxScore a) (att_StartedAt a) (att_CompletedAt a) (att_TimeTaken a).

(** [func (h *AttemptHandler) SubmitAnswer(c *gin.Context)]. *)
Definition SubmitAnswer (quizzes : list Quiz)
  (req : SubmitAnswerRequest) (studentID : ObjectID) (now : Time)
  (attempts : list QuizAttempt)
  : Response SubmitAnswerResponse * list QuizAttempt :=
  match submit_missing_fields req with
  | _ :: _ =>
      (Error StatusBadRequest (required_message "SubmitAnswerRequest"
                                (submit_missing_fields req)),
       attempts)
  | [] =>
  match ObjectIDFromHex (sub_AttemptID req) with
  | None => (Error StatusBadRequest "Invalid attempt ID", attempts)
  | Some attemptID =>
  match ObjectIDFromHex (sub_QuestionID req) with
  | None => (Error StatusBadRequest "Invalid question ID", attempts)
  | Some questionID =>
  match Mongo.FindOne
          (fun a => N.eqb (att_ID a) attemptID
                    && N.eqb (att_StudentID a) studentID) attempts with
  | None => (Error StatusNotFound "Attempt not found", attempts)
  | Some attempt =>
  match att_CompletedAt attempt with
  | Some _ =>
      (Error StatusBadRequest "This attempt is already completed", attempts)
  | None =>
  match Mongo.FindOne (fun q => N.eqb (quiz_ID q) (att_QuizID attempt))
          quizzes with
  | None => (Error StatusNotFound "Quiz not found", attempts)
  | Some quiz =>
  match find (fun q => N.eqb (q_ID q) questionID) (quiz_Questions quiz) with
  | None => (Error StatusNotFound "Question not found in quiz", attempts)
  | Some question =>
  if existsb (fun ans => N.eqb (ans_QuestionID ans) questionID)
       (att_Answers attempt) then
    (Error StatusBadRequest "Answer already submitted for this question",
     attempts)
  else if (q_TimeLimit question <? sub_TimeToAnswer req)%Z then
    (Error StatusBadRequest "Time limit exceeded", attempts)
  else
  let isCorrect :=
    String.eqb (sub_Answer req) (correctAnswerStr (q_CorrectAnswer question)) in
  let pointsEarned :=
    CalculateScore (q_Points question) (sub_TimeToAnswer req) isCorrect in
  let answer :=
    mkAnswer questionID (GoString (sub_Answer req)) isCorrect
      (sub_TimeToAnswer req) pointsEarned now in
  (JSON StatusOK
     (mkSubmitAnswerResponse isCorrect pointsEarned
        "Answer submitted successfully"),
   Mongo.UpdateOne (fun a => N.eqb (att_ID a) attemptID)
     (push_answer answer) attempts)
  end end end end end end end.

(** The [$set] of [completed_at] and [time_taken]. *)
Definition set_completed (now : Time) (timeTaken : Z) (a : QuizAttempt)
  : QuizAttempt :=
  mkQuizAttempt (att_ID a) (att_QuizID a) (att_StudentID a) (att_Answers a)
    (att_TotalScore a) (att_MaxScore a) (att_StartedAt a) (Some now) timeTaken.

(** [func (h *AttemptHandler) CompleteAttempt(c *gin.Context)], [id] being
    the path parameter. *)
Definition CompleteAttempt (id : string) (studentID : ObjectID) (now : Time)
  (attempts : list QuizAttempt)
  : Response QuizAttempt * list QuizAttempt :=
  match ObjectIDFromHex id with
  | None => (Error StatusBadRequest "Invalid attempt ID", attempts)
  | Some objectID =>
  match Mongo.FindOne
          (fun a => N.eqb (att_ID a) objectID
                    && N.eqb (att_StudentID a) studentID) attempts with
  | None => (Error StatusNotFound "Attempt not found", attempts)
  | Some attempt =>
  match att_CompletedAt attempt with
  | Some _ => (Error StatusBadRequest "Attempt already completed", attempts)
  | None =>
  let timeTaken :=
    GoMath.int_of_float64
      (GoTime.Seconds (GoTime.Sub now (att_StartedAt attempt))) in
  let attempts' :=
    Mongo.UpdateOne (fun a => N.eqb (att_ID a) objectID)
      (set_completed now timeTaken) attempts in
  match Mongo.FindOne (fun a => N.eqb (att_ID a) objectID) attempts' with
  | None =>
      (Error StatusInternalServerError "Failed to retrieve attempt", attempts')
  | Some updated => (JSON StatusOK updated, attempts')
  end end end end.

(** One call of an attempt handler, with everything it reads from outside the
    attempt collection. *)
Inductive Call : Type :=
| CallStart (courseService : ObjectID -> string -> CourseCheck)
    (req : StartAttemptRequest) (studentID newID : ObjectID) (now : Time)
| CallSubmit (req : SubmitAnswerRequest) (studentID : ObjectID) (now : Time)
| CallComplete (id : string) (studentID : ObjectID) (now : Time).

Definition run (quizzes : list Quiz) (c : Call) (attempts : list QuizAttempt)
  : list QuizAttempt :=
  match c with
  | CallStart courseService req studentID newID now =>
      snd (StartAttempt quizzes courseService req studentID newID now attempts)
  | CallSubmit req studentID now =>
      snd (SubmitAnswer quizzes req studentID now attempts)
  | CallComplete id studentID now =>
      snd (CompleteAttempt id studentID now attempts)
  end.

(** The attempt collections that calls of the three handlers produce from the
    empty collection, the quizzes being fixed. *)
Inductive reachable (quizzes : list Quiz) : list QuizAttempt -> Prop :=
| reachable_empty : reachable quizzes []
| reachable_run (c : Call) (attempts : list QuizAttempt) :
    reachable quizzes attempts -> reachable quizzes (run quizzes c attempts).

(* ================================================================= *)
(** ** The leaderboard handlers *)

(** The sort document [{total_score: -1, time_taken: 1}]: [a] comes strictly
    before [b]. *)
Definition outranks (a b : QuizAttempt) : bool :=
  Qlt_bool (att_TotalScore b) (att_TotalScore a)
  || (Qeq_bool (att_TotalScore a) (att_TotalScore b)
      && (att_TimeTaken a <? att_TimeTaken b)%Z).

(** The filter [{quiz_id: objectID, completed_at: {$exists: true}}]. *)
Definition completed_for (objectID : ObjectID) (a : QuizAttempt) : bool :=
  N.eqb (att_QuizID a) objectID
  && match att_CompletedAt a with Some _ => true | None => false end.

(** [percentage := 0.0] and, [if attempt.MaxScore > 0],
    [percentage = (attempt.TotalScore / attempt.MaxScore) * 100]. *)
Definition percentage_of (a : QuizAttempt) : Q :=
  if Qlt_bool 0 (att_MaxScore a)
  then F64.mul (F64.div (att_TotalScore a) (att_MaxScore a)) 100
  else 0.

(** [*attempt.CompletedAt]; the filter of the query leaves no attempt without
    one. *)
Definition deref_CompletedAt (a : QuizAttempt) : Time :=
  match att_CompletedAt a with Some t => t | None => 0%Z end.

(** The loop of [GetQuizLeaderboard] over the sorted attempts: an attempt
    whose user is not found is skipped and takes no rank. *)
Fixpoint leaderboard_loop (users : list User) (attempts : list QuizAttempt)
  (rank : Z) : list LeaderboardEntry :=
  match attempts with
  | [] => []
  | attempt :: rest =>
      match Mongo.FindOne (fun u => N.eqb (user_ID u) (att_StudentID attempt))
              users with
      | None => leaderboard_loop users rest rank
      | Some user =>
          mkLeaderboardEntry rank (att_StudentID attempt)
            (user_FirstName user ++ " " ++ user_LastName user)%string
            (att_TotalScore attempt) (att_MaxScore attempt)
            (percentage_of attempt) (att_TimeTaken attempt)
            (deref_CompletedAt attempt)
          :: leaderboard_loop users rest (rank + 1)
      end
  end.

Record QuizLeaderboard : Type := mkQuizLeaderboard {
  lb_quiz_id : string;
  lb_total_count : Z;
  lb_leaderboard : list LeaderboardEntry
}.

(** The attempts as [Find] with the sort option returns them. *)
Definition ranked_attempts (objectID : ObjectID) (attempts : list QuizAttempt)
  : list QuizAttempt :=
  Mongo.sort outranks (Mongo.Find (completed_for objectID) attempts).

(** [func (h *LeaderboardHandler) GetQuizLeaderboard(c *gin.Context)]. *)
Definition GetQuizLeaderboard (users : list User) (quizID : string)
  (attempts : list QuizAttempt) : Response QuizLeaderboard :=
  match ObjectIDFromHex quizID with
  | None => Error StatusBadRequest "Invalid quiz ID"
  | Some objectID =>
      let leaderboard :=
        leaderboard_loop users (ranked_attempts objectID attempts) 1 in
      JSON StatusOK
        (mkQuizLeaderboard quizID (Z.of_nat (List.length leaderboard))
           leaderboard)
  end.

Record MyRank : Type := mkMyRank {
  mr_quiz_id : string;
  mr_rank : Z;
  mr_total_participants : Z;
  mr_score : Q;
  mr_max_score : Q;
  mr_percentage : Q;
  mr_time_taken : Z
}.

(** The student's best attempt: [FindOne] with the sort
    [{total_score: -1, time_taken: 1}]. *)
Definition best_attempt (objectID studentID : ObjectID)
  (attempts : list QuizAttempt) : option QuizAttempt :=
  hd_error
    (Mongo.sort outranks
       (Mongo.Find
          (fun a => completed_for objectID a
                    && N.eqb (att_StudentID a) studentID) attempts)).

(** [betterScoreFilter]: completed attempts of the quiz with
    [total_score > s], or [total_score = s] and [time_taken < t]. *)
Definition betterScoreFilter (objectID : ObjectID) (userAttempt a : QuizAttempt)
  : bool :=
  completed_for objectID a
  && (Qlt_bool (att_TotalScore userAttempt) (att_TotalScore a)
      || (Qeq_bool (att_TotalScore a) (att_TotalScore userAttempt)
          && (att_TimeTaken a <? att_TimeTaken userAttempt)%Z)).

(** [func (h *LeaderboardHandler) GetMyRank(c *gin.Context)]. *)
Definition GetMyRank (quizID : string) (studentID : ObjectID)
  (attempts : list QuizAttempt) : Response MyRank :=
  match ObjectIDFromHex quizID with
  | None => Error StatusBadRequest "Invalid quiz ID"
  | Some objectID =>
      match best_attempt objectID studentID attempts with
      | None => Error StatusNotFound "No completed attempts found"
      | Some userAttempt =>
          let betterCount :=
            Mongo.CountDocuments (betterScoreFilter objectID userAttempt)
              attempts in
          let rank := (betterCount + 1)%Z in
          let totalCount :=
            Mongo.CountDocuments (completed_for objectID) attempts in
          JSON StatusOK
            (mkMyRank quizID rank totalCount (att_TotalScore userAttempt)
               (att_MaxScore userAttempt) (percentage_of userAttempt)
               (att_TimeTaken userAttempt))
      end
  end.

Record GlobalEntry : Type := mkGlobalEntry {
  ge_StudentID : ObjectID;
  ge_AvgScore : Q;
  ge_TotalAttempts : Z;
  ge_TotalScore : Q
}.

Record GlobalLeaderboardEntry : Type := mkGlobalLeaderboardEntry {
  gl_Rank : Z;
  gl_StudentID : ObjectID;
  gl_StudentName : string;
  gl_AvgScore : Q;
  gl_TotalAttempts : Z;
  gl_TotalScore : Q
}.

Definition is_completed (a : QuizAttempt) : bool :=
  match att_CompletedAt a with Some _ => true | None => false end.

(** The keys of a [$group] by [student_id], in order of first occurrence. *)
Fixpoint group_keys (docs : list QuizAttempt) : list ObjectID :=
  match docs with
  | [] => []
  | a :: docs' =>
      att_StudentID a
      :: List.filter (fun k => negb (N.eqb k (att_StudentID a)))
           (group_keys docs')
  end.

Fixpoint all_some {A : Type} (l : list (option A)) : option (list A) :=
  match l with
  | [] => Some []
  | None :: _ => None
  | Some x :: l' =>
      match all_some l' with Some xs => Some (x :: xs) | None => None end
  end.

(** [{$multiply: [{$divide: ["$total_score", "$max_score"]}, 100]}] *)
Definition percentage_expr (a : QuizAttempt) : option Q :=
  match Mongo.divide (att_TotalScore a) (att_MaxScore a) with
  | Some d => Some (d * 100)
  | None => None
  end.

(** The accumulators of the [$group] stage for the documents of one key. *)
Definition group_of (docs : list QuizAttempt) (k : ObjectID)
  : option GlobalEntry :=
  let g := List.filter (fun a => N.eqb (att_StudentID a) k) docs in
  match all_some (map percentage_expr g) with
  | None => None
  | Some ps =>
      Some (mkGlobalEntry k (Qsum ps / inject_Z (Z.of_nat (List.length ps)))
              (Z.of_nat (List.length g)) (Qsum (map att_TotalScore g)))
  end.

(** The pipeline [$match], [$group], [$sort], [$limit]. *)
Definition global_pipeline (attempts : list QuizAttempt)
  : option (list GlobalEntry) :=
  let docs := Mongo.Find is_completed attempts in
  match all_some (map (group_of docs) (group_keys docs)) with
  | None => None
  | Some groups =>
      Some (firstn 50
              (Mongo.sort
                 (fun a b => Qlt_bool (ge_AvgScore b) (ge_AvgScore a)) groups))
  end.

Fixpoint global_loop (users : list User) (results : list GlobalEntry)
  (rank : Z) : list GlobalLeaderboardEntry :=
  match results with
  | [] => []
  | result :: rest =>
      match Mongo.FindOne (fun u => N.eqb (user_ID u) (ge_StudentID result))
              users with
      | None => global_loop users rest rank
      | Some user =>
          mkGlobalLeaderboardEntry rank (ge_StudentID result)
            (user_FirstName user ++ " " ++ user_LastName user)%string
            (ge_AvgScore result) (ge_TotalAttempts result)
            (ge_TotalScore result)
          :: global_loop users rest (rank + 1)
      end
  end.

(** [func (h *LeaderboardHandler) GetGlobalLeaderboard(c *gin.Context)]. *)
Definition GetGlobalLeaderboard (users : list User)
  (attempts : list QuizAttempt) : Response (list GlobalLeaderboardEntry) :=
  match global_pipeline attempts with
  | None => Error StatusInternalServerError "Failed to generate leaderboard"
  | Some results => JSON StatusOK (global_loop users results 1)
  end.

(* ================================================================= *)
(** ** The specification's wording, for comparison with the code *)

(** Exact-typed equality of two dynamic values: the same dynamic type and the
    same value, nothing being converted. *)
Definition exact_typed_equal (x y : GoValue) : bool :=
  match x, y with
  | GoString s, GoString s' => String.eqb s s'
  | GoBool b, GoBool b' => Bool.eqb b b'
  | GoInt v, GoInt v' => Z.eqb v v'
  | GoFloat64 v, GoFloat64 v' => Qeq_bool v v'
  | _, _ => false
  end.

(** The leaderboard order of the specification: score descending, then time
    taken ascending, then completion timestamp ascending. *)
Definition spec_precedes (e1 e2 : LeaderboardEntry) : Prop :=
  le_Score e2 < le_Score e1
  \/ (le_Score e1 == le_Score e2 /\ (le_TimeTaken e1 < le_TimeTaken e2)%Z)
  \/ (le_Score e1 == le_Score e2 /\ le_TimeTaken e1 = le_TimeTaken e2
      /\ (le_CompletedAt e1 <= le_CompletedAt e2)%Z).

(** The order the query sorts by: score descending, then time taken
    ascending. *)
Definition entry_precedes (e1 e2 : LeaderboardEntry) : Prop :=
  le_Score e2 < le_Score e1
  \/ (le_Score e1 == le_Score e2 /\ (le_TimeTaken e1 <= le_TimeTaken e2)%Z).

(** The same on attempts. *)
Definition attempt_precedes (a b : QuizAttempt) : Prop :=
  att_TotalScore b < att_TotalScore a
  \/ (att_TotalScore a == att_TotalScore b
      /\ (att_TimeTaken a <= att_TimeTaken b)%Z).

(** [a] and [b] tie on score and time taken. *)
Definition ties_with (a b : QuizAttempt) : Prop :=
  att_TotalScore a == att_TotalScore b /\ att_TimeTaken a = att_TimeTaken b.

(** [a] has the score and the time taken of [b]. *)
Definition tied_with (b a : QuizAttempt) : bool :=
  Qeq_bool (att_TotalScore a) (att_TotalScore b)
  && Z.eqb (att_TimeTaken a) (att_TimeTaken b).

(** The user record of the attempt's student exists. *)
Definition known_user (users : list User) (a : QuizAttempt) : bool :=
  match Mongo.FindOne (fun u => N.eqb (user_ID u) (att_StudentID a)) users with
  | Some _ => true
  | None => false
  end.

(** [e] is the leaderboard entry of the completed attempt [a], the rank
    apart. *)
Definition entry_of_attempt (a : QuizAttempt) (e : LeaderboardEntry) : Prop :=
  le_StudentID e = att_StudentID a
  /\ le_Score e = att_TotalScore a
  /\ le_MaxScore e = att_MaxScore a
  /\ le_Percentage e = percentage_of a
  /\ le_TimeTaken e = att_TimeTaken a
  /\ att_CompletedAt a = Some (le_CompletedAt e).

(** The decimal digit of [n], for [n] from 0 to 9. *)
Definition decimal_digit (n : Z) : string :=
  String (ascii_of_N (Z.to_N (48 + n))) EmptyString.

(** The 1-based position of the first element satisfying [p]. *)
Fixpoint position {A : Type} (p : A -> bool) (l : list A) : option Z :=
  match l with
  | [] => None
  | x :: l' =>
      if p x then Some 1%Z
      else match position p l' with Some n => Some (n + 1)%Z | None => None end
  end.

(* ================================================================= *)
(** ** A small scenario *)

Module Scenario.

Definition question1 : Question :=
  mkQuestion 177%N QuestionTypeTrueFalse [] (GoBool true) 15 10 1.

(** A multiple-choice question whose correct option has index 1. *)
Definition question2 : Question :=
  mkQuestion 178%N QuestionTypeMultipleChoice ["a"; "b"; "c"]
    (GoFloat64 1) 15 15 2.

(** A multiple-choice question whose correct option has index 10. *)
Definition question3 : Question :=
  mkQuestion 179%N QuestionTypeMultipleChoice
    ["a"; "b"; "c"; "d"; "e"; "f"; "g"; "h"; "i"; "j"; "k"; "l"]
    (GoFloat64 10) 15 5 3.

Definition quiz1 : Quiz :=
  mkQuiz 161%N "course-1" StatusApproved [question1; question2; question3].

Definition quizzes : list Quiz := [quiz1].

Definition quiz1_hex : string := "0000000000000000000000a1".
Definition question1_hex : string := "0000000000000000000000b1".
Definition question2_hex : string := "0000000000000000000000b2".
Definition question3_hex : string := "0000000000000000000000b3".
Definition attempt1_hex : string := "000000000000000000000001".
Definition attempt2_hex : string := "000000000000000000000002".

Definition alice : ObjectID := 10%N.
Definition bob : ObjectID := 11%N.

Definition users : list User :=
  [ mkUser alice "Alice" "Johnson"; mkUser bob "Bob" "Smith" ].

Definition course_done : ObjectID -> string -> CourseCheck :=
  fun _ _ => CourseAnswer true.

Definition ms (n : Z) : Time := (n * 1000000)%Z.

(** Alice starts an attempt, *)
Definition started : list QuizAttempt :=
  run quizzes
    (CallStart course_done (mkStartAttemptRequest quiz1_hex) alice 1%N (ms 0))
    [].

(** answers the first question correctly after 7 seconds, *)
Definition answered : list QuizAttempt :=
  run quizzes
    (CallSubmit (mkSubmitAnswerRequest attempt1_hex question1_hex "true" 7)
       alice (ms 9000))
    started.

(** and completes with the other questions unanswered. *)
Definition alice_run : list QuizAttempt :=
  run quizzes (CallComplete attempt1_hex alice (ms 20500)) answered.

Definition no_attempt : QuizAttempt :=
  mkQuizAttempt 0%N 0%N 0%N [] 0 0 0%Z None 0%Z.

(** Her attempt before and after completion. *)
Definition alice_open_attempt : QuizAttempt :=
  Eval vm_compute in nth 0 answered no_attempt.

Definition alice_attempt : QuizAttempt :=
  Eval vm_compute in nth 0 alice_run no_attempt.

(** Alice and Bob both complete without answering, each after 100 whole
    seconds; Bob starts later and completes earlier. *)
Definition tie_run : list QuizAttempt :=
  fold_left (fun db c => run quizzes c db)
    [ CallStart course_done (mkStartAttemptRequest quiz1_hex) alice 1%N (ms 0);
      CallStart course_done (mkStartAttemptRequest quiz1_hex) bob 2%N (ms 500);
      CallComplete attempt2_hex bob (ms 100600);
      CallComplete attempt1_hex alice (ms 100900) ]
    [].

(** A completed attempt whose maximum score is 0, beside Alice's. *)
Definition zero_max_attempt : QuizAttempt :=
  mkQuizAttempt 7%N 162%N bob [] 0 0 (ms 0) (Some (ms 4000)) 4.

Definition zero_max_run : list QuizAttempt := alice_run ++ [zero_max_attempt].

(** Her answer to the first question, as a call. *)
Definition submit_out : Response SubmitAnswerResponse * list QuizAttempt :=
  SubmitAnswer quizzes
    (mkSubmitAnswerRequest attempt1_hex question1_hex "true" 7)
    alice (ms 9000) started.

(** A quiz whose only question takes 10 points away, and Alice answering it
    correctly after 12 seconds. *)
Definition debt_quiz_hex : string := "0000000000000000000000a3".

Definition debt_quizzes : list Quiz :=
  [ mkQuiz 163%N "course-1" StatusApproved
      [mkQuestion 177%N QuestionTypeTrueFalse [] (GoBool true) 15 (-10) 1] ].

Definition debt_calls : list Call :=
  [ CallStart course_done (mkStartAttemptRequest debt_quiz_hex) alice 1%N
      (ms 1000);
    CallSubmit (mkSubmitAnswerRequest attempt1_hex question1_hex "true" 12)
      alice (ms 14000) ].

(** A quiz with questions of [2^53], 1 and 1 points, and Alice answering the
    second, the third and then the first, each correctly after 3 seconds. *)
Definition huge_quiz_hex : string := "0000000000000000000000a4".

Definition huge_quizzes : list Quiz :=
  [ mkQuiz 164%N "course-1" StatusApproved
      [ mkQuestion 177%N QuestionTypeTrueFalse [] (GoBool true) 15 (2 ^ 53) 1;
        mkQuestion 178%N QuestionTypeTrueFalse [] (GoBool true) 15 1 2;
        mkQuestion 179%N QuestionTypeTrueFalse [] (GoBool true) 15 1 3 ] ].

Definition huge_calls : list Call :=
  [ CallStart course_done (mkStartAttemptRequest huge_quiz_hex) alice 1%N
      (ms 0);
    CallSubmit (mkSubmitAnswerRequest attempt1_hex question2_hex "true" 3)
      alice (ms 4000);
    CallSubmit (mkSubmitAnswerRequest attempt1_hex question3_hex "true" 3)
      alice (ms 8000);
    CallSubmit (mkSubmitAnswerRequest attempt1_hex question1_hex "true" 3)
      alice (ms 12000) ].

End Scenario.

(* ================================================================= *)
(** ** Invariants of the attempt collection *)

(** What holds of every stored attempt: the total score is the binary64 sum
    of the points of its answers in the order they were recorded, its quiz is
    an approved one, the maximum score is what [maxScore_of] gives for the
    questions of that quiz, and its answers are for distinct questions of
    that quiz, each scored by [CalculateScore] on the base points of its
    question. *)
Definition attempt_ok (quizzes : list Quiz) (a : QuizAttempt) : Prop :=
  att_TotalScore a = F64.sum (map ans_PointsEarned (att_Answers a))
  /\ exists quiz : Quiz,
       Mongo.FindOne (fun q => N.eqb (quiz_ID q) (att_QuizID a)) quizzes
       = Some quiz
       /\ quiz_Status quiz = StatusApproved
       /\ att_MaxScore a = maxScore_of (quiz_Questions quiz)
       /\ NoDup (map ans_QuestionID (att_Answers a))
       /\ Forall
            (fun ans =>
               exists (q : Question) (b : bool),
                 find (fun q => N.eqb (q_ID q) (ans_QuestionID ans))
                   (quiz_Questions quiz) = Some q
                 /\ ans_PointsEarned ans
                    = CalculateScore (q_Points q) (ans_TimeToAnswer ans) b)
            (att_Answers a).

(** The number of in-progress attempts of a student for a quiz. *)
Definition ongoing_count (quizID studentID : ObjectID)
  (attempts : list QuizAttempt) : nat :=
  List.length (List.filter (ongoing_attempt quizID studentID) attempts).

Definition store_ok (quizzes : list Quiz) (attempts : list QuizAttempt)
  : Prop :=
  NoDup (map att_ID attempts)
  /\ Forall (attempt_ok quizzes) attempts
  /\ forall quizID studentID : ObjectID,
       (ongoing_count quizID studentID attempts <= 1)%nat.

Definition Zsum (l : list Z) : Z := fold_right Z.add 0%Z l.

(** The sum of the base points of the questions of a quiz. *)
Definition total_points (questions : list Question) : Z :=
  Zsum (map q_Points questions).

(** The base points of the question an answer is for. *)
Definition answer_points (questions : list Question) (ans : Answer) : Z :=
  match find (fun q => N.eqb (q_ID q) (ans_QuestionID ans)) questions with
  | Some q => q_Points q
  | None => 0%Z
  end.

(** The base points up to which the properties of scores are proved. *)
Definition points_limit : Z := (10 ^ 12)%Z.

(** No question has negative base points.  Nothing in the code enforces it:
    the tags [required,min=1] of [CreateQuestionRequest.Points] are not
    applied, the tag of [CreateQuizRequest.Questions] having no [dive]. *)
Definition points_nonneg (quizzes : list Quiz) : Prop :=
  forall quiz q,
    In quiz quizzes -> In q (quiz_Questions quiz) -> (0 <= q_Points q)%Z.

(** The base points of every quiz sum up to at most [points_limit]. *)
Definition points_bounded (quizzes : list Quiz) : Prop :=
  forall quiz,
    In quiz quizzes -> (total_points (quiz_Questions quiz) <= points_limit)%Z.

(* ================================================================= *)
(** * More of the API

    The rest of the embedding covers

    - [ScoringService.CalculateTotalScore] and
      [CourseService.CheckCourseCompletion]
      ([src/services/course_service.go]),
    - [AttemptHandler.GetAttemptByID] and [GetMyAttempts], and
      [UserHandler.Register], [Login] and [GetProfile]
      ([src/handlers/user_handler.go]),
    - [QuizHandler.CreateQuiz], [GetQuizzes], [GetQuizByID], [ApproveQuiz]
      and [DeleteQuiz] ([src/handlers/quiz_handler.go]),

    with the conventions above, and these.

    - The quiz and user handlers work on documents with all the fields of
      [models.Quiz], [models.Question] and [models.User]; [Quiz_of],
      [Question_of] and [User_of] give the fields the attempt and
      leaderboard handlers read.
    - Of gin's binding, the [required] and [min] tags are written out.  The
      [email] rule of the validator, the rune count of a string, bcrypt and
      the token generator of the middleware are parameters: the properties
      hold for all of them, a property that needs more says what it
      assumes.
    - The network is a parameter of the course service: what [http.Get]
      returns for a URL, and what the body of the response decodes to.
    - [config] and [main] only read the environment and wire the handlers to
      routes, behind a middleware that is not part of [src]; they are not
      embedded. *)

(* ================================================================= *)
(** ** More of the scoring service and of the attempt handlers *)

(** The anonymous struct of the parameter of [CalculateTotalScore]. *)
Record ScoredAnswer : Type := mkScoredAnswer {
  sa_BasePoints : Z;
  sa_TimeToAnswer : Z;
  sa_IsCorrect : bool
}.

(** [func (ss *ScoringService) CalculateTotalScore(answers []struct{...})
    float64] *)
Definition CalculateTotalScore (answers : list ScoredAnswer) : Q :=
  let totalScore :=
    fold_left
      (fun totalScore answer =>
         F64.add totalScore
           (CalculateScore (sa_BasePoints answer) (sa_TimeToAnswer answer)
              (sa_IsCorrect answer)))
      answers 0 in
  F64.div (GoMath.Round (F64.mul totalScore 100)) 100.

(** [func (h *AttemptHandler) GetAttemptByID(c *gin.Context)], [id] being the
    path parameter. *)
Definition GetAttemptByID (id : string) (studentID : ObjectID)
  (attempts : list QuizAttempt) : Response QuizAttempt :=
  match ObjectIDFromHex id with
  | None => Error StatusBadRequest "Invalid attempt ID"
  | Some objectID =>
      match Mongo.FindOne
              (fun a => N.eqb (att_ID a) objectID
                        && N.eqb (att_StudentID a) studentID) attempts with
      | None => Error StatusNotFound "Attempt not found"
      | Some attempt => JSON StatusOK attempt
      end
  end.

(** The sort document [{started_at: -1}]. *)
Definition started_later (a b : QuizAttempt) : bool :=
  (att_StartedAt b <? att_StartedAt a)%Z.

(** [func (h *AttemptHandler) GetMyAttempts(c *gin.Context)]. *)
Definition GetMyAttempts (studentID : ObjectID) (attempts : list QuizAttempt)
  : Response (list QuizAttempt) :=
  JSON StatusOK
    (Mongo.sort started_later
       (Mongo.Find (fun a => N.eqb (att_StudentID a) studentID) attempts)).

(** The caller of a call of an attempt handler. *)
Definition caller (c : Call) : ObjectID :=
  match c with
  | CallStart _ _ studentID _ _ => studentID
  | CallSubmit _ studentID _ => studentID
  | CallComplete _ studentID _ => studentID
  end.

(** The clock reading of a call. *)
Definition call_time (c : Call) : Time :=
  match c with
  | CallStart _ _ _ _ now => now
  | CallSubmit _ _ now => now
  | CallComplete _ _ now => now
  end.

(** What [SubmitAnswer] has checked and computed for a recorded answer, [q]
    being the question of the quiz the answer is for. *)
Definition answer_ok (q : Question) (ans : Answer) : Prop :=
  q_ID q = ans_QuestionID ans
  /\ (ans_TimeToAnswer ans <= q_TimeLimit q)%Z
  /\ ans_TimeToAnswer ans <> 0%Z
  /\ (exists text : string,
        text <> "" /\ ans_StudentAnswer ans = GoString text
        /\ ans_IsCorrect ans
           = String.eqb text (correctAnswerStr (q_CorrectAnswer q)))
  /\ ans_PointsEarned ans
     = CalculateScore (q_Points q) (ans_TimeToAnswer ans) (ans_IsCorrect ans).

(** The answers of an attempt are for distinct questions of its quiz, each
    found there by its identifier and recorded as [SubmitAnswer] computes
    it; an attempt in progress has no time taken yet. *)
Definition answers_ok (quizzes : list Quiz) (a : QuizAttempt) : Prop :=
  exists quiz : Quiz,
    Mongo.FindOne (fun q => N.eqb (quiz_ID q) (att_QuizID a)) quizzes
    = Some quiz
    /\ NoDup (map ans_QuestionID (att_Answers a))
    /\ Forall
         (fun ans =>
            exists q : Question,
              find (fun q => N.eqb (q_ID q) (ans_QuestionID ans))
                (quiz_Questions quiz) = Some q
              /\ answer_ok q ans)
         (att_Answers a)
    /\ (att_CompletedAt a = None -> att_TimeTaken a = 0%Z).

(** The scored form of a recorded answer. *)
Definition scored (quiz : Quiz) (ans : Answer) : ScoredAnswer :=
  mkScoredAnswer
    (match find (fun q => N.eqb (q_ID q) (ans_QuestionID ans))
             (quiz_Questions quiz) with
     | Some q => q_Points q
     | None => 0%Z
     end)
    (ans_TimeToAnswer ans) (ans_IsCorrect ans).

(** What never changes of an attempt once it is created. *)
Definition identity (a : QuizAttempt)
  : ObjectID * ObjectID * ObjectID * Q * Time :=
  (att_ID a, att_QuizID a, att_StudentID a, att_MaxScore a, att_StartedAt a).

(** The collection after a list of calls, the first call first. *)
Definition run_all (quizzes : list Quiz) (cs : list Call)
  (attempts : list QuizAttempt) : list QuizAttempt :=
  fold_left (fun db c => run quizzes c db) cs attempts.

(** The score of one answer of [CalculateTotalScore]. *)
Definition score_of (answer : ScoredAnswer) : Q :=
  CalculateScore (sa_BasePoints answer) (sa_TimeToAnswer answer)
    (sa_IsCorrect answer).




(* ================================================================= *)
(** ** The quiz handlers *)

Definition RoleProfessor : string := "professor".
Definition RoleStudent : string := "student".

(** [models.Question] with all its fields. *)
Record QuestionDocument : Type := mkQuestionDocument {
  qd_ID : ObjectID;
  qd_QuestionText : string;
  qd_Type : string;
  qd_Options : list string;
  qd_CorrectAnswer : GoValue;
  qd_TimeLimit : Z;
  qd_Points : Z;
  qd_Order : Z
}.

(** [models.Quiz] with all its fields.  [ApprovedBy] is the zero identifier
    and [ApprovedAt] is [nil] until [ApproveQuiz] sets them. *)
Record QuizDocument : Type := mkQuizDocument {
  qz_ID : ObjectID;
  qz_Title : string;
  qz_Description : string;
  qz_Category : string;
  qz_DifficultyLevel : string;
  qz_CourseID : string;
  qz_CreatorID : ObjectID;
  qz_CreatorRole : string;
  qz_Status : string;
  qz_Questions : list QuestionDocument;
  qz_CreatedAt : Time;
  qz_UpdatedAt : Time;
  qz_ApprovedBy : ObjectID;
  qz_ApprovedAt : option Time
}.

(** What the attempt handlers read of a stored quiz. *)
Definition Question_of (q : QuestionDocument) : Question :=
  mkQuestion (qd_ID q) (qd_Type q) (qd_Options q) (qd_CorrectAnswer q)
    (qd_TimeLimit q) (qd_Points q) (qd_Order q).

Definition Quiz_of (d : QuizDocument) : Quiz :=
  mkQuiz (qz_ID d) (qz_CourseID d) (qz_Status d)
    (map Question_of (qz_Questions d)).

Module QuizCollection.

(** [InsertOne] into the quizzes: the unique index on [_id] refuses a
    document whose identifier is taken. *)
Definition InsertOne (d : QuizDocument) (c : list QuizDocument)
  : option (list QuizDocument) :=
  if existsb (fun x => N.eqb (qz_ID x) (qz_ID d)) c then None
  else Some (c ++ [d]).

(** [DeleteOne]: the first document matching the filter is removed. *)
Fixpoint DeleteOne (filter : QuizDocument -> bool) (c : list QuizDocument)
  : list QuizDocument :=
  match c with
  | [] => []
  | x :: c' => if filter x then c' else x :: DeleteOne filter c'
  end.

End QuizCollection.

Record CreateQuestionRequest : Type := mkCreateQuestionRequest {
  cq_QuestionText : string;
  cq_Type : string;
  cq_Options : list string;
  cq_CorrectAnswer : string;
  cq_Points : Z
}.

(** [Questions] is [None] for a [nil] slice (the field is absent or [null]
    in the body). *)
Record CreateQuizRequest : Type := mkCreateQuizRequest {
  cr_Title : string;
  cr_Description : string;
  cr_Category : string;
  cr_DifficultyLevel : string;
  cr_CourseID : string;
  cr_Questions : option (list CreateQuestionRequest)
}.

(** The message of gin's validator for the failed tags, in the order of the
    fields. *)
Definition validation_message (struct : string)
  (failures : list (string * string)) : string :=
  String.concat (String (ascii_of_N 10) EmptyString)
    (map (fun ft => ("Key: '" ++ struct ++ "." ++ fst ft
                     ++ "' Error:Field validation for '" ++ fst ft
                     ++ "' failed on the '" ++ snd ft ++ "' tag")%string)
       failures).

(** The [binding] tags of [CreateQuizRequest].  The tags of
    [CreateQuestionRequest] are left out: the validator goes into the
    elements of a slice only under a [dive] tag, and [Questions] has
    [binding:"required,min=1"] alone.  What is proved of the requests
    [CreateQuiz] accepts holds in particular of those whose questions pass
    these tags. *)
Definition create_quiz_failures (req : CreateQuizRequest)
  : list (string * string) :=
  (if String.eqb (cr_Title req) "" then [("Title", "required")] else [])
  ++ (if String.eqb (cr_Category req) "" then [("Category", "required")]
      else [])
  ++ (if String.eqb (cr_DifficultyLevel req) ""
      then [("DifficultyLevel", "required")] else [])
  ++ (if String.eqb (cr_CourseID req) "" then [("CourseID", "required")]
      else [])
  ++ match cr_Questions req with
     | None => [("Questions", "required")]
     | Some [] => [("Questions", "min")]
     | Some (_ :: _) => []
     end.

(** The loop of [CreateQuiz] over [req.Questions], from index [i] on:
    [newObjectID i] is the identifier [primitive.NewObjectID()] returns for
    the question of index [i]. *)
Fixpoint create_questions (newObjectID : nat -> ObjectID) (i : nat)
  (qs : list CreateQuestionRequest) : string + list QuestionDocument :=
  match qs with
  | [] => inr []
  | q :: rest =>
      if negb (String.eqb (cq_Type q) QuestionTypeTrueFalse)
         && negb (String.eqb (cq_Type q) QuestionTypeMultipleChoice)
      then inl "Invalid question type"
      else if String.eqb (cq_Type q) QuestionTypeMultipleChoice
              && (List.length (cq_Options q) <? 2)%nat
      then inl "Multiple choice questions must have at least 2 options"
      else
        match create_questions newObjectID (S i) rest with
        | inl msg => inl msg
        | inr questions =>
            inr (mkQuestionDocument (newObjectID i) (cq_QuestionText q)
                   (cq_Type q) (cq_Options q) (GoString (cq_CorrectAnswer q))
                   15 (cq_Points q) (Z.of_nat i + 1)
                 :: questions)
        end
  end.

(** [func (h *QuizHandler) CreateQuiz(c *gin.Context)].

    [userID] and [role] are the [user_id] and [user_role] of the context,
    [newObjectID n] the result of the call of [primitive.NewObjectID()]
    number [n] (from 0), [createdAt] and [updatedAt] the results of the two
    calls of [time.Now()]. *)
Definition CreateQuiz (req : CreateQuizRequest) (userID : ObjectID)
  (role : string) (newObjectID : nat -> ObjectID)
  (createdAt updatedAt : Time) (quizzes : list QuizDocument)
  : Response QuizDocument * list QuizDocument :=
  match create_quiz_failures req with
  | _ :: _ =>
      (Error StatusBadRequest
         (validation_message "CreateQuizRequest" (create_quiz_failures req)),
       quizzes)
  | [] =>
  let reqQuestions :=
    match cr_Questions req with Some qs => qs | None => [] end in
  match create_questions newObjectID 0 reqQuestions with
  | inl msg => (Error StatusBadRequest msg, quizzes)
  | inr questions =>
  let status :=
    if String.eqb role RoleStudent then StatusPending else StatusApproved in
  let quiz :=
    mkQuizDocument (newObjectID (List.length reqQuestions)) (cr_Title req)
      (cr_Description req) (cr_Category req) (cr_DifficultyLevel req)
      (cr_CourseID req) userID role status questions createdAt updatedAt
      0%N None in
  match QuizCollection.InsertOne quiz quizzes with
  | None => (Error StatusInternalServerError "Failed to create quiz", quizzes)
  | Some quizzes' => (JSON StatusCreated quiz, quizzes')
  end end end.

(** The filter document of [GetQuizzes]; [category], [difficulty] and
    [status] are the query parameters, empty when absent. *)
Definition quizzes_filter (role category difficulty status : string)
  (d : QuizDocument) : bool :=
  (if String.eqb role RoleStudent then String.eqb (qz_Status d) StatusApproved
   else if negb (String.eqb status "") then String.eqb (qz_Status d) status
   else true)
  && (if negb (String.eqb category "") then String.eqb (qz_Category d) category
      else true)
  && (if negb (String.eqb difficulty "")
      then String.eqb (qz_DifficultyLevel d) difficulty
      else true).

(** The sort document [{created_at: -1}]. *)
Definition created_later (a b : QuizDocument) : bool :=
  (qz_CreatedAt b <? qz_CreatedAt a)%Z.

(** [func (h *QuizHandler) GetQuizzes(c *gin.Context)]. *)
Definition GetQuizzes (role category difficulty status : string)
  (quizzes : list QuizDocument) : Response (list QuizDocument) :=
  JSON StatusOK
    (Mongo.sort created_later
       (Mongo.Find (quizzes_filter role category difficulty status) quizzes)).

(** [func (h *QuizHandler) GetQuizByID(c *gin.Context)], [id] being the path
    parameter. *)
Definition GetQuizByID (id : string) (role : string)
  (quizzes : list QuizDocument) : Response QuizDocument :=
  match ObjectIDFromHex id with
  | None => Error StatusBadRequest "Invalid quiz ID"
  | Some objectID =>
      match Mongo.FindOne (fun d => N.eqb (qz_ID d) objectID) quizzes with
      | None => Error StatusNotFound "Quiz not found"
      | Some quiz =>
          if String.eqb role RoleStudent
             && negb (String.eqb (qz_Status quiz) StatusApproved)
          then Error StatusForbidden "Quiz not available"
          else JSON StatusOK quiz
      end
  end.

Record ApproveQuizRequest : Type := mkApproveQuizRequest {
  ap_Status : string
}.

(** The [$set] of [status], [approved_by], [approved_at] and [updated_at]. *)
Definition set_status (status : string) (approverID : ObjectID) (now : Time)
  (d : QuizDocument) : QuizDocument :=
  mkQuizDocument (qz_ID d) (qz_Title d) (qz_Description d) (qz_Category d)
    (qz_DifficultyLevel d) (qz_CourseID d) (qz_CreatorID d)
    (qz_CreatorRole d) status (qz_Questions d) (qz_CreatedAt d) now
    approverID (Some now).

(** [func (h *QuizHandler) ApproveQuiz(c *gin.Context)]; the body of the
    response is the text of its [message]. *)
Definition ApproveQuiz (id : string) (req : ApproveQuizRequest)
  (approverID : ObjectID) (now : Time) (quizzes : list QuizDocument)
  : Response string * list QuizDocument :=
  match ObjectIDFromHex id with
  | None => (Error StatusBadRequest "Invalid quiz ID", quizzes)
  | Some objectID =>
  if String.eqb (ap_Status req) "" then
    (Error StatusBadRequest
       (validation_message "ApproveQuizRequest" [("Status", "required")]),
     quizzes)
  else if negb (String.eqb (ap_Status req) StatusApproved)
          && negb (String.eqb (ap_Status req) StatusRejected) then
    (Error StatusBadRequest "Status must be 'approved' or 'rejected'", quizzes)
  else
  match Mongo.FindOne (fun d => N.eqb (qz_ID d) objectID) quizzes with
  | None => (Error StatusNotFound "Quiz not found", quizzes)
  | Some _ =>
      (JSON StatusOK "Quiz status updated successfully",
       Mongo.UpdateOne (fun d => N.eqb (qz_ID d) objectID)
         (set_status (ap_Status req) approverID now) quizzes)
  end end.

(** [func (h *QuizHandler) DeleteQuiz(c *gin.Context)]. *)
Definition DeleteQuiz (id : string) (userID : ObjectID) (role : string)
  (quizzes : list QuizDocument) : Response string * list QuizDocument :=
  match ObjectIDFromHex id with
  | None => (Error StatusBadRequest "Invalid quiz ID", quizzes)
  | Some objectID =>
  match Mongo.FindOne (fun d => N.eqb (qz_ID d) objectID) quizzes with
  | None => (Error StatusNotFound "Quiz not found", quizzes)
  | Some quiz =>
  if negb (String.eqb role RoleProfessor)
     && negb (N.eqb (qz_CreatorID quiz) userID) then
    (Error StatusForbidden "You don't have permission to delete this quiz",
     quizzes)
  else
    (JSON StatusOK "Quiz deleted successfully",
     QuizCollection.DeleteOne (fun d => N.eqb (qz_ID d) objectID) quizzes)
  end end.

(** One call of a quiz handler that writes, with everything it reads from
    outside the quiz collection. *)
Inductive QuizCall : Type :=
| CallCreate (req : CreateQuizRequest) (userID : ObjectID) (role : string)
    (newObjectID : nat -> ObjectID) (createdAt updatedAt : Time)
| CallApprove (id : string) (req : ApproveQuizRequest) (approverID : ObjectID)
    (now : Time)
| CallDelete (id : string) (userID : ObjectID) (role : string).

Definition quiz_run (c : QuizCall) (quizzes : list QuizDocument)
  : list QuizDocument :=
  match c with
  | CallCreate req userID role newObjectID createdAt updatedAt =>
      snd (CreateQuiz req userID role newObjectID createdAt updatedAt quizzes)
  | CallApprove id req approverID now =>
      snd (ApproveQuiz id req approverID now quizzes)
  | CallDelete id userID role => snd (DeleteQuiz id userID role quizzes)
  end.

(** The quiz collections that calls of the three handlers produce from the
    empty collection. *)
Inductive quiz_reachable : list QuizDocument -> Prop :=
| quiz_reachable_empty : quiz_reachable []
| quiz_reachable_run (c : QuizCall) (quizzes : list QuizDocument) :
    quiz_reachable quizzes -> quiz_reachable (quiz_run c quizzes).

(** A question as [CreateQuiz] stores it at index [i]. *)
Definition question_ok (i : nat) (q : QuestionDocument) : Prop :=
  qd_Order q = (Z.of_nat i + 1)%Z
  /\ qd_TimeLimit q = 15%Z
  /\ (qd_Type q = QuestionTypeTrueFalse
      \/ (qd_Type q = QuestionTypeMultipleChoice
          /\ (2 <= List.length (qd_Options q))%nat))
  /\ exists s, qd_CorrectAnswer q = GoString s.

(** A quiz as the quiz handlers keep it.  Until it is reviewed it has the
    status its creator's role gave it; once reviewed it is approved or
    rejected, and was last updated by the review. *)
Definition quiz_ok (d : QuizDocument) : Prop :=
  qz_Questions d <> []
  /\ (forall i q, nth_error (qz_Questions d) i = Some q -> question_ok i q)
  /\ match qz_ApprovedAt d with
     | None =>
         qz_Status d
         = (if String.eqb (qz_CreatorRole d) RoleStudent then StatusPending
            else StatusApproved)
         /\ qz_ApprovedBy d = 0%N
     | Some t =>
         (qz_Status d = StatusApproved \/ qz_Status d = StatusRejected)
         /\ qz_UpdatedAt d = t
     end
  /\ qz_Title d <> "" /\ qz_Category d <> "" /\ qz_DifficultyLevel d <> ""
  /\ qz_CourseID d <> "".

Module QuizScenario.

Definition request : CreateQuizRequest :=
  mkCreateQuizRequest "Go basics" "" "programming" "easy" "course-1"
    (Some [mkCreateQuestionRequest "Is Go statically typed?"
             QuestionTypeTrueFalse [] "true" 10;
           mkCreateQuestionRequest "Which keyword starts a goroutine?"
             QuestionTypeMultipleChoice ["defer"; "go"; "chan"] "1" 15]).

(** The questions get the identifiers 177 and 178, the quiz 161. *)
Definition newObjectID (n : nat) : ObjectID :=
  match n with 0%nat => 177%N | 1%nat => 178%N | _ => 161%N end.

Definition carol : ObjectID := 12%N.
Definition dave : ObjectID := 13%N.

(** Carol, a student, creates the quiz. *)
Definition created : list QuizDocument :=
  quiz_run
    (CallCreate request carol RoleStudent newObjectID (Scenario.ms 1)
       (Scenario.ms 1)) [].

Definition pending_quiz : QuizDocument :=
  Eval vm_compute in
    nth 0 created
      (mkQuizDocument 0%N "" "" "" "" "" 0%N "" "" [] 0%Z 0%Z 0%N None).

(** Dave, a professor, approves it. *)
Definition approved : list QuizDocument :=
  quiz_run
    (CallApprove Scenario.quiz1_hex (mkApproveQuizRequest StatusApproved) dave
       (Scenario.ms 2)) created.

Definition approved_quiz : QuizDocument :=
  Eval vm_compute in
    nth 0 approved
      (mkQuizDocument 0%N "" "" "" "" "" 0%N "" "" [] 0%Z 0%Z 0%N None).

End QuizScenario.

(* ================================================================= *)
(** ** The two collections together *)

(** A call of a handler that writes to the quizzes or to the attempts. *)
Inductive SystemCall : Type :=
| OnQuizzes (c : QuizCall)
| OnAttempts (c : Call).

(** The attempt handlers read the quizzes as they are stored at the time of
    the call. *)
Definition system_run (c : SystemCall)
  (st : list QuizDocument * list QuizAttempt)
  : list QuizDocument * list QuizAttempt :=
  match c with
  | OnQuizzes qc => (quiz_run qc (fst st), snd st)
  | OnAttempts ac => (fst st, run (map Quiz_of (fst st)) ac (snd st))
  end.

(** What is assumed of a call: [primitive.NewObjectID()] gives a new quiz an
    identifier that no attempt refers to, no question is created with
    negative base points, and the base points of a new quiz sum up to at most
    [points_limit]. *)
Definition admissible (c : SystemCall) (attempts : list QuizAttempt) : Prop :=
  match c with
  | OnQuizzes (CallCreate req _ _ newObjectID _ _) =>
      forall qs, cr_Questions req = Some qs ->
        ~ In (newObjectID (List.length qs)) (map att_QuizID attempts)
        /\ Forall (fun r => (0 <= cq_Points r)%Z) qs
        /\ (Zsum (map cq_Points qs) <= points_limit)%Z
  | _ => True
  end.

(** The states that admissible calls produce from the empty database, in any
    order. *)
Inductive system_reachable : list QuizDocument * list QuizAttempt -> Prop :=
| system_empty : system_reachable ([], [])
| system_step (c : SystemCall) (st : list QuizDocument * list QuizAttempt) :
    system_reachable st -> admissible c (snd st) ->
    system_reachable (system_run c st).

(** A quiz with the status approved. *)
Definition approved_view (q : Quiz) : Quiz :=
  mkQuiz (quiz_ID q) (quiz_CourseID q) StatusApproved (quiz_Questions q).

(** [ever] has, under every identifier of a stored quiz, the course and the
    questions of that quiz. *)
Definition agrees (quizzes ever : list Quiz) : Prop :=
  forall id q,
    Mongo.FindOne (fun x => N.eqb (quiz_ID x) id) quizzes = Some q ->
    Mongo.FindOne (fun x => N.eqb (quiz_ID x) id) ever
    = Some (approved_view q).

(** The attempts are well formed with respect to the quizzes they were
    started on, which [ever] remembers also after a quiz is rejected or
    deleted. *)
Definition system_ok (st : list QuizDocument * list QuizAttempt) : Prop :=
  NoDup (map qz_ID (fst st))
  /\ exists ever,
       agrees (map Quiz_of (fst st)) ever
       /\ points_nonneg ever /\ points_bounded ever
       /\ store_ok ever (snd st).

Module SystemScenario.

(** Carol creates a quiz, Dave approves it, Alice starts an attempt and
    answers the first question; Dave rejects the quiz; Alice answers the
    second question and completes; Dave deletes the quiz. *)
Definition calls : list SystemCall :=
  [ OnQuizzes
      (CallCreate QuizScenario.request QuizScenario.carol RoleStudent
         QuizScenario.newObjectID (Scenario.ms 1) (Scenario.ms 1));
    OnQuizzes
      (CallApprove Scenario.quiz1_hex (mkApproveQuizRequest StatusApproved)
         QuizScenario.dave (Scenario.ms 2));
    OnAttempts
      (CallStart Scenario.course_done
         (mkStartAttemptRequest Scenario.quiz1_hex) Scenario.alice 1%N
         (Scenario.ms 1000));
    OnAttempts
      (CallSubmit
         (mkSubmitAnswerRequest Scenario.attempt1_hex Scenario.question1_hex
            "true" 7)
         Scenario.alice (Scenario.ms 9000));
    OnQuizzes
      (CallApprove Scenario.quiz1_hex (mkApproveQuizRequest StatusRejected)
         QuizScenario.dave (Scenario.ms 10000));
    OnAttempts
      (CallSubmit
         (mkSubmitAnswerRequest Scenario.attempt1_hex Scenario.question2_hex
            "1" 3)
         Scenario.alice (Scenario.ms 13000));
    OnAttempts
      (CallComplete Scenario.attempt1_hex Scenario.alice (Scenario.ms 20500));
    OnQuizzes
      (CallDelete Scenario.quiz1_hex QuizScenario.dave RoleProfessor) ].

Definition final : list QuizDocument * list QuizAttempt :=
  fold_left (fun st c => system_run c st) calls ([], []).

Definition alice_attempt : QuizAttempt :=
  Eval vm_compute in nth 0 (snd final) Scenario.no_attempt.

(** Carol, as a professor, creates a quiz whose only question takes 10 points
    away: the request passes the validation, and the quiz is approved at
    once.  Alice starts an attempt and answers correctly after 12 seconds. *)
Definition debt_request : CreateQuizRequest :=
  mkCreateQuizRequest "Debts" "" "programming" "easy" "course-1"
    (Some [mkCreateQuestionRequest "Is Go statically typed?"
             QuestionTypeTrueFalse [] "true" (-10)]).

(** The question gets the identifier 177, the quiz 163. *)
Definition debt_newObjectID (n : nat) : ObjectID :=
  match n with 0%nat => 177%N | _ => 163%N end.

Definition debt_calls : list SystemCall :=
  [ OnQuizzes
      (CallCreate debt_request QuizScenario.carol RoleProfessor
         debt_newObjectID (Scenario.ms 1) (Scenario.ms 1));
    OnAttempts
      (CallStart Scenario.course_done
         (mkStartAttemptRequest Scenario.debt_quiz_hex) Scenario.alice 1%N
         (Scenario.ms 1000));
    OnAttempts
      (CallSubmit
         (mkSubmitAnswerRequest Scenario.attempt1_hex Scenario.question1_hex
            "true" 12)
         Scenario.alice (Scenario.ms 14000)) ].

Definition debt_final : list QuizDocument * list QuizAttempt :=
  fold_left (fun st c => system_run c st) debt_calls ([], []).

End SystemScenario.

(* ================================================================= *)
(** ** The user handlers *)

Definition StatusUnauthorized : Z := 401.

(** [models.User] with all its fields. *)
Record UserDocument : Type := mkUserDocument {
  ud_ID : ObjectID;
  ud_Email : string;
  ud_Password : string;
  ud_FirstName : string;
  ud_LastName : string;
  ud_Role : string;
  ud_CreatedAt : Time;
  ud_UpdatedAt : Time
}.

(** What the leaderboard handlers read of a stored user. *)
Definition User_of (u : UserDocument) : User :=
  mkUser (ud_ID u) (ud_FirstName u) (ud_LastName u).

Record RegisterRequest : Type := mkRegisterRequest {
  reg_Email : string;
  reg_Password : string;
  reg_FirstName : string;
  reg_LastName : string;
  reg_Role : string
}.

Record LoginRequest : Type := mkLoginRequest {
  login_Email : string;
  login_Password : string
}.

Record LoginResponse : Type := mkLoginResponse {
  lr_Token : string;
  lr_User : UserDocument
}.

Module UserCollection.

(** [InsertOne] into the users: the unique index on [_id] refuses a document
    whose identifier is taken. *)
Definition InsertOne (u : UserDocument) (c : list UserDocument)
  : option (list UserDocument) :=
  if existsb (fun x => N.eqb (ud_ID x) (ud_ID u)) c then None
  else Some (c ++ [u]).

End UserCollection.

Section UserHandlers.

(** The libraries the user handlers call: the [email] rule of the validator,
    [utf8.RuneCountInString] (the length its [min] rule compares),
    [bcrypt.GenerateFromPassword] at the default cost, with the salt it
    draws, and [bcrypt.CompareHashAndPassword] ([true] for a [nil] error). *)
Variable validator_email : string -> bool.
Variable RuneCountInString : string -> nat.
Variable bcrypt_GenerateFromPassword : string -> string -> option string.
Variable bcrypt_CompareHashAndPassword : string -> string -> bool.

(** The [binding] tags of [RegisterRequest]; the first failing tag of a field
    is reported. *)
Definition register_failures (req : RegisterRequest)
  : list (string * string) :=
  (if String.eqb (reg_Email req) "" then [("Email", "required")]
   else if negb (validator_email (reg_Email req)) then [("Email", "email")]
   else [])
  ++ (if String.eqb (reg_Password req) "" then [("Password", "required")]
      else if (RuneCountInString (reg_Password req) <? 6)%nat
      then [("Password", "min")]
      else [])
  ++ (if String.eqb (reg_FirstName req) "" then [("FirstName", "required")]
      else [])
  ++ (if String.eqb (reg_LastName req) "" then [("LastName", "required")]
      else [])
  ++ (if String.eqb (reg_Role req) "" then [("Role", "required")] else []).

(** [func (h *UserHandler) Register(c *gin.Context)].

    [salt] is the randomness of [bcrypt.GenerateFromPassword] in this call,
    [newID] the result of [primitive.NewObjectID()], [createdAt] and
    [updatedAt] the results of the two calls of [time.Now()], and
    [generateToken] what [middleware.GenerateToken] does at the time of the
    call. *)
Definition Register (req : RegisterRequest) (salt : string)
  (newID : ObjectID) (createdAt updatedAt : Time)
  (generateToken : UserDocument -> option string)
  (users : list UserDocument)
  : Response LoginResponse * list UserDocument :=
  match register_failures req with
  | _ :: _ =>
      (Error StatusBadRequest
         (validation_message "RegisterRequest" (register_failures req)),
       users)
  | [] =>
  if negb (String.eqb (reg_Role req) RoleProfessor)
     && negb (String.eqb (reg_Role req) RoleStudent) then
    (Error StatusBadRequest "Invalid role. Must be 'professor' or 'student'",
     users)
  else
  match Mongo.FindOne (fun u => String.eqb (ud_Email u) (reg_Email req))
          users with
  | Some _ => (Error StatusConflict "Email already registered", users)
  | None =>
  match bcrypt_GenerateFromPassword salt (reg_Password req) with
  | None => (Error StatusInternalServerError "Failed to hash password", users)
  | Some hashedPassword =>
  let user :=
    mkUserDocument newID (reg_Email req) hashedPassword (reg_FirstName req)
      (reg_LastName req) (reg_Role req) createdAt updatedAt in
  match UserCollection.InsertOne user users with
  | None => (Error StatusInternalServerError "Failed to create user", users)
  | Some users' =>
  match generateToken user with
  | None =>
      (Error StatusInternalServerError "Failed to generate token", users')
  | Some token => (JSON StatusCreated (mkLoginResponse token user), users')
  end end end end end.

Definition login_failures (req : LoginRequest) : list (string * string) :=
  (if String.eqb (login_Email req) "" then [("Email", "required")]
   else if negb (validator_email (login_Email req)) then [("Email", "email")]
   else [])
  ++ (if String.eqb (login_Password req) "" then [("Password", "required")]
      else []).

(** [func (h *UserHandler) Login(c *gin.Context)]. *)
Definition Login (req : LoginRequest)
  (generateToken : UserDocument -> option string)
  (users : list UserDocument) : Response LoginResponse :=
  match login_failures req with
  | _ :: _ =>
      Error StatusBadRequest
        (validation_message "LoginRequest" (login_failures req))
  | [] =>
  match Mongo.FindOne (fun u => String.eqb (ud_Email u) (login_Email req))
          users with
  | None => Error StatusUnauthorized "Invalid email or password"
  | Some user =>
  if negb (bcrypt_CompareHashAndPassword (ud_Password user)
             (login_Password req)) then
    Error StatusUnauthorized "Invalid email or password"
  else
  match generateToken user with
  | None => Error StatusInternalServerError "Failed to generate token"
  | Some token => JSON StatusOK (mkLoginResponse token user)
  end end end.

(** One call of [Register], with everything it reads from outside the user
    collection. *)
Record RegisterCall : Type := mkRegisterCall {
  rc_req : RegisterRequest;
  rc_salt : string;
  rc_newID : ObjectID;
  rc_createdAt : Time;
  rc_updatedAt : Time;
  rc_generateToken : UserDocument -> option string
}.

Definition register_run (c : RegisterCall) (users : list UserDocument)
  : list UserDocument :=
  snd (Register (rc_req c) (rc_salt c) (rc_newID c) (rc_createdAt c)
         (rc_updatedAt c) (rc_generateToken c) users).

(** The user collections that calls of [Register] produce from the empty
    collection; no other handler writes to the users. *)
Inductive users_reachable : list UserDocument -> Prop :=
| users_reachable_empty : users_reachable []
| users_reachable_run (c : RegisterCall) (users : list UserDocument) :
    users_reachable users -> users_reachable (register_run c users).

(** A user as [Register] stores it. *)
Definition user_ok (u : UserDocument) : Prop :=
  validator_email (ud_Email u) = true
  /\ ud_Email u <> "" /\ ud_FirstName u <> "" /\ ud_LastName u <> ""
  /\ (ud_Role u = RoleProfessor \/ ud_Role u = RoleStudent)
  /\ exists salt password,
       (6 <= RuneCountInString password)%nat
       /\ bcrypt_GenerateFromPassword salt password = Some (ud_Password u).

End UserHandlers.

(** [func (h *UserHandler) GetProfile(c *gin.Context)], [userID] being the
    [user_id] of the context. *)
Definition GetProfile (userID : ObjectID) (users : list UserDocument)
  : Response UserDocument :=
  match Mongo.FindOne (fun u => N.eqb (ud_ID u) userID) users with
  | None => Error StatusNotFound "User not found"
  | Some user => JSON StatusOK user
  end.

Module UserScenario.

(** Stand-ins for the libraries: every address passes, a rune is a byte, the
    hash of a password is the password, and a password matches the hash
    equal to it. *)
Definition validator_email (s : string) : bool := true.
Definition RuneCountInString (s : string) : nat := String.length s.
Definition GenerateFromPassword (salt password : string) : option string :=
  Some password.
Definition CompareHashAndPassword (hash password : string) : bool :=
  String.eqb hash password.
Definition generateToken (u : UserDocument) : option string :=
  Some ("token-" ++ ud_Email u)%string.

Definition request : RegisterRequest :=
  mkRegisterRequest "alice@example.com" "password123" "Alice" "Johnson"
    RoleStudent.

Definition call : RegisterCall :=
  mkRegisterCall request "salt" Scenario.alice (Scenario.ms 0) (Scenario.ms 0)
    generateToken.

Definition registered : list UserDocument :=
  register_run validator_email RuneCountInString GenerateFromPassword call [].

Definition alice : UserDocument :=
  mkUserDocument Scenario.alice "alice@example.com" "password123" "Alice"
    "Johnson" RoleStudent (Scenario.ms 0) (Scenario.ms 0).

End UserScenario.

(* ================================================================= *)
(** ** The course service *)

(** What [io.ReadAll] and [json.Unmarshal] make of the body of a response:
    the body cannot be read, it is not the JSON of a
    [CourseCompletionResponse], or it is one, with its [completed] field
    ([false] when the field is absent). *)
Inductive HttpBody : Type :=
| BodyUnreadable
| BodyMalformed
| BodyCompletion (completed : bool).

(** The outcome of [http.Get]. *)
Inductive HttpResult : Type :=
| HttpFailure
| HttpResponse (status : Z) (body : HttpBody).

(** [fmt.Sprintf("%s/courses/%s/students/%s/completion", ...)] *)
Definition completion_url (baseURL courseID studentID : string) : string :=
  (baseURL ++ "/courses/" ++ courseID ++ "/students/" ++ studentID
   ++ "/completion")%string.

(** [func (cs *CourseService) CheckCourseCompletion(studentID, courseID
    string) (bool, error)], [httpGet] being the network at the time of the
    call. *)
Definition CheckCourseCompletion (httpGet : string -> HttpResult)
  (baseURL studentID courseID : string) : CourseCheck :=
  match httpGet (completion_url baseURL courseID studentID) with
  | HttpFailure => CourseFailure
  | HttpResponse status body =>
      if (status =? StatusNotFound)%Z then CourseAnswer false
      else if negb (status =? StatusOK)%Z then CourseFailure
      else
        match body with
        | BodyUnreadable => CourseFailure
        | BodyMalformed => CourseFailure
        | BodyCompletion completed => CourseAnswer completed
        end
  end.

(** The course service as [StartAttempt] calls it, [Hex] being
    [primitive.ObjectID.Hex]. *)
Definition courseService_of (httpGet : string -> HttpResult)
  (baseURL : string) (Hex : ObjectID -> string)
  : ObjectID -> string -> CourseCheck :=
  fun studentID courseID =>
    CheckCourseCompletion httpGet baseURL (Hex studentID) courseID.
(* ================================================================= *)
(** * Properties *)

(* ================================================================= *)
(** ** Binary64 rounding *)

(** Powers of two. *)

Lemma two_neq_0 : ~ 2 == 0.
Proof. intros C. discriminate C. Qed.

Lemma pow2_pos (e : Z) : 0 < F64.pow2 e.
Proof. apply Qpower_0_lt. reflexivity. Qed.

Lemma pow2_add (a b : Z) : F64.pow2 (a + b) == F64.pow2 a * F64.pow2 b.
Proof. apply Qpower_plus. exact two_neq_0. Qed.

Lemma pow2_sub (a b : Z) : F64.pow2 (a - b) == F64.pow2 a / F64.pow2 b.
Proof. apply Qpower_minus. exact two_neq_0. Qed.

Lemma pow2_le (a b : Z) : (a <= b)%Z -> F64.pow2 a <= F64.pow2 b.
Proof. intros H. apply Qpower_le_compat_l; [exact H | discriminate]. Qed.

Lemma pow2_lt (a b : Z) : (a < b)%Z -> F64.pow2 a < F64.pow2 b.
Proof. intros H. apply Qpower_lt_compat_l; [exact H | reflexivity]. Qed.

Lemma pow2_lt_inv (a b : Z) : F64.pow2 a < F64.pow2 b -> (a < b)%Z.
Proof.
  intros H. destruct (Z_lt_le_dec a b) as [L | L]; trivial.
  apply pow2_le in L. lra.
Qed.

Lemma pow2_Z (e : Z) : (0 <= e)%Z -> F64.pow2 e == inject_Z (2 ^ e).
Proof. intros H. unfold F64.pow2. now rewrite Zpower_Qpower. Qed.

Lemma pow2_succ (e : Z) : F64.pow2 (e + 1) == 2 * F64.pow2 e.
Proof. rewrite pow2_add. change (F64.pow2 1) with 2. ring. Qed.

Lemma pow2_pred (e : Z) : F64.pow2 (e - 1) == F64.pow2 e / 2.
Proof. rewrite pow2_sub. reflexivity. Qed.

(** Rounding to an integer. *)

Lemma half_even_comp (x y : Q) : x == y -> F64.half_even x = F64.half_even y.
Proof.
  intros E. unfold F64.half_even.
  rewrite (Qfloor_comp _ _ E).
  assert (E2 : x - inject_Z (Qfloor y) == y - inject_Z (Qfloor y))
    by now rewrite E.
  now rewrite (Qcompare_comp _ _ E2 (1 # 2) (1 # 2) (Qeq_refl _)).
Qed.

Lemma half_even_cases (q : Q) :
  let f := Qfloor q in
  (F64.half_even q = f /\ q - inject_Z f <= 1 # 2)
  \/ (F64.half_even q = (f + 1)%Z /\ 1 # 2 <= q - inject_Z f).
Proof.
  intros f. unfold F64.half_even. fold f.
  destruct (Qcompare_spec (q - inject_Z f) (1 # 2)) as [E | L | G].
  - destruct (Z.even f); [left | right]; split; trivial; lra.
  - left. split; trivial. lra.
  - right. split; trivial. lra.
Qed.

Lemma floor_bounds (q : Q) :
  inject_Z (Qfloor q) <= q /\ q < inject_Z (Qfloor q) + 1.
Proof.
  split; [apply Qfloor_le |].
  pose proof (Qlt_floor q) as H. rewrite inject_Z_plus in H. exact H.
Qed.

Lemma half_even_error (q : Q) :
  Qabs (inject_Z (F64.half_even q) - q) <= 1 # 2.
Proof.
  pose proof (floor_bounds q) as [Lo Hi].
  apply Qabs_Qle_condition.
  destruct (half_even_cases q) as [[-> H] | [-> H]].
  - lra.
  - rewrite inject_Z_plus. change (inject_Z 1) with 1. lra.
Qed.

Lemma half_even_Z (n : Z) : F64.half_even (inject_Z n) = n.
Proof.
  unfold F64.half_even. rewrite Qfloor_Z.
  assert (E : inject_Z n - inject_Z n == 0) by ring.
  rewrite (Qcompare_comp _ _ E (1 # 2) (1 # 2) (Qeq_refl _)). reflexivity.
Qed.

Lemma half_even_mono (x y : Q) :
  x <= y -> (F64.half_even x <= F64.half_even y)%Z.
Proof.
  intros L.
  pose proof (Qfloor_resp_le _ _ L) as F.
  pose proof (floor_bounds x) as [Lx Hx].
  pose proof (floor_bounds y) as [Ly Hy].
  destruct (Z.eq_dec (Qfloor x) (Qfloor y)) as [E | N].
  - unfold F64.half_even. rewrite E in *.
    destruct (Qcompare_spec (x - inject_Z (Qfloor y)) (1 # 2))
      as [E1 | L1 | G1];
      destruct (Qcompare_spec (y - inject_Z (Qfloor y)) (1 # 2))
        as [E2 | L2 | G2];
      try destruct (Z.even (Qfloor y)); try lia; lra.
  - destruct (half_even_cases x) as [[-> _] | [-> _]];
      destruct (half_even_cases y) as [[-> _] | [-> _]]; lia.
Qed.

(** The exponent of the last place. *)

Lemma ulp_exponent_unique (x : Q) (e e' : Z) :
  F64.ulp_exponent x e -> F64.ulp_exponent x e' -> e = e'.
Proof.
  intros (A1 & B1 & C1) (A2 & B2 & C2).
  destruct (Z.lt_trichotomy e e') as [L | [E | L]]; trivial; exfalso.
  - assert (H : F64.pow2 (52 + e') < F64.pow2 (53 + e)).
    { apply Qle_lt_trans with x; [apply C2; lia | exact B1]. }
    apply pow2_lt_inv in H. lia.
  - assert (H : F64.pow2 (52 + e) < F64.pow2 (53 + e')).
    { apply Qle_lt_trans with x; [apply C1; lia | exact B2]. }
    apply pow2_lt_inv in H. lia.
Qed.

Lemma ulp_exponent_comp (x y : Q) (e : Z) :
  x == y -> F64.ulp_exponent x e -> F64.ulp_exponent y e.
Proof. unfold F64.ulp_exponent. intros E. now rewrite E. Qed.

Lemma log2_bounds (n : positive) :
  F64.pow2 (Z.log2 (Z.pos n)) <= inject_Z (Z.pos n)
  /\ inject_Z (Z.pos n) < F64.pow2 (Z.log2 (Z.pos n) + 1).
Proof.
  pose proof (Z.log2_nonneg (Z.pos n)) as N.
  destruct (Z.log2_spec (Z.pos n)) as [Lo Hi]; [reflexivity |].
  rewrite !pow2_Z by lia. split.
  - now rewrite <- Zle_Qle.
  - rewrite <- Zlt_Qlt. exact Hi.
Qed.

Lemma exponent_estimate (n d : positive) :
  let g := (Z.log2 (Z.pos n) - Z.log2 (Z.pos d) - 53)%Z in
  F64.pow2 (52 + g) <= Z.pos n # d /\ Z.pos n # d < F64.pow2 (54 + g).
Proof.
  intros g. subst g.
  destruct (log2_bounds n) as [Ln Hn]. destruct (log2_bounds d) as [Ld Hd].
  set (a := Z.log2 (Z.pos n)) in *. set (b := Z.log2 (Z.pos d)) in *.
  pose proof (pow2_pos a) as Pa. pose proof (pow2_pos b) as Pb.
  pose proof (pow2_pos (a + 1)) as Pa1. pose proof (pow2_pos (b + 1)) as Pb1.
  assert (D : 0 < inject_Z (Z.pos d)) by lra.
  rewrite (Qmake_Qdiv (Z.pos n) d).
  replace (52 + (a - b - 53))%Z with (a - (b + 1))%Z by lia.
  replace (54 + (a - b - 53))%Z with (a + 1 - b)%Z by lia.
  rewrite !pow2_sub. split.
  - apply Qle_shift_div_l; [exact D |].
    apply Qle_trans with (F64.pow2 a / F64.pow2 (b + 1) * F64.pow2 (b + 1)).
    + apply Qmult_le_l.
      * apply Qlt_shift_div_l; [exact Pb1 | lra].
      * lra.
    + assert (E : F64.pow2 a / F64.pow2 (b + 1) * F64.pow2 (b + 1)
                  == F64.pow2 a) by (field; lra).
      rewrite E. exact Ln.
  - apply Qlt_shift_div_r; [exact D |].
    apply Qlt_le_trans with (F64.pow2 (a + 1)); [exact Hn |].
    assert (E : F64.pow2 (a + 1) == F64.pow2 (a + 1) / F64.pow2 b * F64.pow2 b)
      by (field; lra).
    rewrite E at 1.
    apply Qmult_le_l; [| exact Ld].
    apply Qlt_shift_div_l; [exact Pb | lra].
Qed.

Lemma exponent_spec (x : Q) : 0 < x -> F64.ulp_exponent x (F64.exponent x).
Proof.
  intros P. destruct x as [n d].
  destruct n as [| n | n]; try (exfalso; revert P; unfold Qlt; cbn; lia).
  unfold F64.exponent. cbn [Qnum Qden].
  pose proof (exponent_estimate n d) as [Lo Hi]. cbv zeta in Lo, Hi.
  set (g := (Z.log2 (Z.pos n) - Z.log2 (Z.pos d) - 53)%Z) in *.
  set (x := Z.pos n # d) in *.
  assert (S : exists e0, (if Qle_bool (F64.pow2 (53 + g)) x
                          then (g + 1)%Z else g) = e0
                         /\ F64.pow2 (52 + e0) <= x /\ x < F64.pow2 (53 + e0)).
  { destruct (Qle_bool (F64.pow2 (53 + g)) x) eqn:B.
    - exists (g + 1)%Z. apply Qle_bool_iff in B. split; [trivial |].
      replace (52 + (g + 1))%Z with (53 + g)%Z by lia.
      replace (53 + (g + 1))%Z with (54 + g)%Z by lia. now split.
    - exists g. split; [trivial |]. split; [exact Lo |].
      apply Qnot_le_lt. intros C. apply Qle_bool_iff in C. congruence. }
  destruct S as (e0 & -> & Lo0 & Hi0).
  split; [lia |]. split.
  - apply Qlt_le_trans with (F64.pow2 (53 + e0)); [exact Hi0 |].
    apply pow2_le. lia.
  - intros H. replace (Z.max (-1074) e0) with e0 by lia. exact Lo0.
Qed.

(** Rounding. *)

Lemma rnd_pos_comp (x y : Q) :
  0 < x -> x == y -> F64.rnd_pos x == F64.rnd_pos y.
Proof.
  intros P E. unfold F64.rnd_pos.
  assert (X : F64.exponent x = F64.exponent y).
  { apply (@ulp_exponent_unique y).
    - apply ulp_exponent_comp with x; [exact E | now apply exponent_spec].
    - apply exponent_spec. now rewrite <- E. }
  rewrite X.
  rewrite (@half_even_comp (x / F64.pow2 (F64.exponent y))
             (y / F64.pow2 (F64.exponent y))) by now rewrite E.
  reflexivity.
Qed.

Lemma Qnum_sign (x : Q) :
  match Qnum x with
  | Z0 => x == 0
  | Zpos _ => 0 < x
  | Zneg _ => x < 0
  end.
Proof. destruct x as [[| n | n] d]; unfold Qeq, Qlt; cbn; lia. Qed.

Lemma rnd_0 (x : Q) : x == 0 -> F64.rnd x = 0.
Proof.
  intros E. unfold F64.rnd. pose proof (Qnum_sign (Qred x)) as S.
  destruct (Qnum (Qred x)); trivial; rewrite (Qred_correct x) in S; lra.
Qed.

Lemma rnd_of_pos (x : Q) : 0 < x -> F64.rnd x == F64.rnd_pos x.
Proof.
  intros P. unfold F64.rnd. pose proof (Qnum_sign (Qred x)) as S.
  destruct (Qnum (Qred x)); rewrite (Qred_correct x) in S; try lra.
  rewrite Qred_correct. apply rnd_pos_comp.
  - now rewrite Qred_correct.
  - apply Qred_correct.
Qed.

Lemma rnd_of_neg (x : Q) : x < 0 -> F64.rnd x == - F64.rnd_pos (- x).
Proof.
  intros P. unfold F64.rnd. pose proof (Qnum_sign (Qred x)) as S.
  destruct (Qnum (Qred x)); rewrite (Qred_correct x) in S; try lra.
  rewrite Qred_correct. apply Qopp_comp. apply rnd_pos_comp.
  - rewrite Qred_correct. lra.
  - now rewrite Qred_correct.
Qed.

Lemma rnd_comp (x y : Q) : x == y -> F64.rnd x = F64.rnd y.
Proof. intros E. unfold F64.rnd. now rewrite (Qred_complete _ _ E). Qed.

Lemma rnd_opp (x : Q) : F64.rnd (- x) == - F64.rnd x.
Proof.
  destruct (Q_dec x 0) as [[N | P] | Z].
  - rewrite (rnd_of_neg N), rnd_of_pos by lra. ring.
  - rewrite (rnd_of_pos P), rnd_of_neg by lra.
    apply Qopp_comp. apply rnd_pos_comp; [lra | ring].
  - rewrite (rnd_0 Z), rnd_0 by lra. reflexivity.
Qed.

(** Rounding a positive number at the exponent of its last place. *)
Lemma rnd_at (x : Q) (e : Z) :
  0 < x -> F64.ulp_exponent x e ->
  F64.rnd x == inject_Z (F64.half_even (x / F64.pow2 e)) * F64.pow2 e.
Proof.
  intros P U. rewrite (rnd_of_pos P). unfold F64.rnd_pos.
  now rewrite (ulp_exponent_unique (exponent_spec P) U).
Qed.

Lemma scaled_bounds (x : Q) (e : Z) :
  0 < x -> F64.ulp_exponent x e ->
  (0 <= F64.half_even (x / F64.pow2 e) <= 2 ^ 53)%Z
  /\ ((-1074 < e)%Z -> (2 ^ 52 <= F64.half_even (x / F64.pow2 e))%Z).
Proof.
  intros P (A & B & C). pose proof (pow2_pos e) as Pe.
  rewrite <- (half_even_Z 0), <- (half_even_Z (2 ^ 53)),
    <- (half_even_Z (2 ^ 52)).
  split; [split |]; [| | intros H]; apply half_even_mono.
  - apply Qle_shift_div_l; [exact Pe | change (inject_Z 0) with 0; lra].
  - apply Qle_shift_div_r; [exact Pe |].
    rewrite <- pow2_Z, <- pow2_add by lia. lra.
  - apply Qle_shift_div_l; [exact Pe |].
    rewrite <- pow2_Z, <- pow2_add by lia. now apply C.
Qed.

Lemma rnd_nonneg (x : Q) : 0 <= x -> 0 <= F64.rnd x.
Proof.
  intros H. destruct (Qle_lt_or_eq _ _ H) as [P | Z].
  - rewrite (rnd_at P (exponent_spec P)).
    destruct (scaled_bounds P (exponent_spec P)) as [[L _] _].
    apply Qmult_le_0_compat.
    + change 0 with (inject_Z 0). now rewrite <- Zle_Qle.
    + apply Qlt_le_weak, pow2_pos.
  - rewrite rnd_0; [lra | now symmetry].
Qed.

Lemma rnd_nonpos (x : Q) : x <= 0 -> F64.rnd x <= 0.
Proof.
  intros H. assert (N : 0 <= - x) by lra.
  apply rnd_nonneg in N. rewrite rnd_opp in N. lra.
Qed.

Lemma rnd_mono_pos (x y : Q) : 0 < x -> x <= y -> F64.rnd x <= F64.rnd y.
Proof.
  intros Px L. assert (Py : 0 < y) by lra.
  pose proof (exponent_spec Px) as Ux. pose proof (exponent_spec Py) as Uy.
  set (e := F64.exponent x) in *. set (e' := F64.exponent y) in *.
  rewrite (rnd_at Px Ux), (rnd_at Py Uy).
  destruct (scaled_bounds Px Ux) as [[_ Hx] _].
  destruct (scaled_bounds Py Uy) as [_ Hy].
  pose proof (pow2_pos e) as Pe. pose proof (pow2_pos e') as Pe'.
  destruct (Z.lt_trichotomy e e') as [Lt | [Eq | Gt]].
  - (* a smaller exponent: a power of two lies in between *)
    apply Qle_trans with (F64.pow2 (53 + e)).
    + rewrite (pow2_add 53 e), (@pow2_Z 53) by lia.
      apply Qmult_le_compat_r; [| lra]. now rewrite <- Zle_Qle.
    + apply Qle_trans with (F64.pow2 (52 + e')); [apply pow2_le; lia |].
      rewrite (pow2_add 52 e'), (@pow2_Z 52) by lia.
      apply Qmult_le_compat_r; [| lra]. rewrite <- Zle_Qle.
      apply Hy. destruct Ux as (A & _). lia.
  - rewrite <- Eq. apply Qmult_le_compat_r; [| lra].
    rewrite <- Zle_Qle. apply half_even_mono.
    apply Qmult_le_compat_r; [exact L |].
    apply Qlt_le_weak, Qinv_lt_0_compat, Pe.
  - exfalso. destruct Ux as (_ & _ & Cx). destruct Uy as (Ay & By & _).
    assert (H : F64.pow2 (52 + e) < F64.pow2 (53 + e')).
    { apply Qle_lt_trans with x; [apply Cx; lia | lra]. }
    apply pow2_lt_inv in H. lia.
Qed.

(** Rounding is monotone. *)
Lemma rnd_mono (x y : Q) : x <= y -> F64.rnd x <= F64.rnd y.
Proof.
  intros L. destruct (Qlt_le_dec 0 x) as [Px | Nx].
  - now apply rnd_mono_pos.
  - destruct (Qlt_le_dec y 0) as [Ny | Py].
    + assert (H : F64.rnd (- y) <= F64.rnd (- x))
        by (apply rnd_mono_pos; lra).
      rewrite !rnd_opp in H. lra.
    + apply Qle_trans with 0; [now apply rnd_nonpos | now apply rnd_nonneg].
Qed.

(** Binary64 numbers. *)

Lemma representable_comp (x y : Q) :
  x == y -> F64.representable x -> F64.representable y.
Proof. intros E (m & e & A & B & C). exists m, e. now rewrite <- E. Qed.

Lemma representable_opp (x : Q) :
  F64.representable x -> F64.representable (- x).
Proof.
  intros (m & e & A & B & C). exists (- m)%Z, e.
  split; [now rewrite Z.abs_opp | split; [exact B |]].
  rewrite C, inject_Z_opp. ring.
Qed.

Lemma rnd_representable (x : Q) : F64.representable (F64.rnd x).
Proof.
  assert (Pos : forall x, 0 < x -> F64.representable (F64.rnd x)).
  { clear x. intros x P. pose proof (exponent_spec P) as U.
    destruct (scaled_bounds P U) as [[L H] _].
    exists (F64.half_even (x / F64.pow2 (F64.exponent x))), (F64.exponent x).
    split; [lia | split; [apply U | now apply rnd_at]]. }
  destruct (Q_dec x 0) as [[N | P] | Z].
  - apply representable_comp with (- F64.rnd (- x)).
    + rewrite rnd_opp. ring.
    + apply representable_opp, Pos. lra.
  - now apply Pos.
  - rewrite (rnd_0 Z). exists 0%Z, 0%Z. repeat split; try discriminate.
Qed.

Lemma rnd_exact_pos (m e : Z) :
  (0 < m <= 2 ^ 53)%Z -> (-1074 <= e)%Z ->
  F64.rnd (inject_Z m * F64.pow2 e) == inject_Z m * F64.pow2 e.
Proof.
  intros [M0 M] E. set (x := inject_Z m * F64.pow2 e).
  pose proof (pow2_pos e) as Pe.
  assert (Im : 0 < inject_Z m).
  { change 0 with (inject_Z 0). now rewrite <- Zlt_Qlt. }
  assert (P : 0 < x) by now apply Qmult_lt_0_compat.
  pose proof (exponent_spec P) as U. set (k := F64.exponent x) in *.
  rewrite (rnd_at P U). destruct U as (A & B & C).
  pose proof (pow2_pos k) as Pk.
  destruct (Z_le_gt_dec k e) as [L | G].
  - (* the last place is at or below [e] *)
    assert (X : x / F64.pow2 k == inject_Z (m * 2 ^ (e - k))).
    { rewrite inject_Z_mult, <- pow2_Z, pow2_sub by lia. unfold x. field.
      lra. }
    rewrite (half_even_comp X), half_even_Z.
    rewrite inject_Z_mult, <- pow2_Z, pow2_sub by lia. unfold x. field. lra.
  - (* otherwise [x] is [2^(53+e)] *)
    assert (Lo : F64.pow2 (52 + k) <= x) by (apply C; lia).
    assert (Up : x <= F64.pow2 (53 + e)).
    { unfold x. rewrite (pow2_add 53 e), (@pow2_Z 53) by lia.
      apply Qmult_le_compat_r; [| lra]. now rewrite <- Zle_Qle. }
    assert (K : k = (e + 1)%Z).
    { destruct (Z.eq_dec k (e + 1)) as [K | K]; trivial. exfalso.
      assert (H : F64.pow2 (53 + e) < F64.pow2 (52 + k))
        by (apply pow2_lt; lia).
      lra. }
    assert (Xe : x == F64.pow2 (53 + e)).
    { apply Qle_antisym; [exact Up |]. rewrite K in Lo.
      now replace (52 + (e + 1))%Z with (53 + e)%Z in Lo by lia. }
    assert (X : x / F64.pow2 k == inject_Z (2 ^ 52)).
    { rewrite Xe, K, <- pow2_Z by lia.
      replace (53 + e)%Z with (52 + (e + 1))%Z by lia.
      rewrite (pow2_add 52). field.
      pose proof (pow2_pos (e + 1)). lra. }
    rewrite (half_even_comp X), half_even_Z, Xe, K, <- pow2_Z, <- pow2_add
      by lia.
    now replace (52 + (e + 1))%Z with (53 + e)%Z by lia.
Qed.

(** A binary64 number is its own rounding. *)
Lemma rnd_exact (x : Q) : F64.representable x -> F64.rnd x == x.
Proof.
  intros (m & e & A & B & C). rewrite (rnd_comp C), C.
  destruct (Z.lt_trichotomy m 0) as [N | [Z | P]].
  - assert (E : inject_Z m * F64.pow2 e == - (inject_Z (- m) * F64.pow2 e))
      by (rewrite inject_Z_opp; ring).
    rewrite (rnd_comp E), rnd_opp, rnd_exact_pos by lia.
    rewrite inject_Z_opp. ring.
  - subst m. rewrite rnd_0; [| ring]. ring.
  - apply rnd_exact_pos; lia.
Qed.

Lemma representable_Z (n : Z) :
  (Z.abs n <= 2 ^ 53)%Z -> F64.representable (inject_Z n).
Proof.
  intros H. exists n, 0%Z. split; [exact H | split; [discriminate |]].
  change (F64.pow2 0) with 1. ring.
Qed.

Lemma rnd_Z (n : Z) :
  (Z.abs n <= 2 ^ 53)%Z -> F64.rnd (inject_Z n) == inject_Z n.
Proof. intros H. apply rnd_exact. now apply representable_Z. Qed.

Lemma rnd_idem (x : Q) : F64.rnd (F64.rnd x) == F64.rnd x.
Proof. apply rnd_exact, rnd_representable. Qed.

(** The rounding error. *)

Lemma rnd_error_pos (x : Q) (k : Z) :
  0 < x -> (-1074 <= k)%Z -> x < F64.pow2 (53 + k) ->
  Qabs (F64.rnd x - x) <= F64.pow2 (k - 1).
Proof.
  intros P K B. pose proof (exponent_spec P) as U.
  set (e := F64.exponent x) in *.
  rewrite (rnd_at P U). pose proof (pow2_pos e) as Pe.
  assert (L : (e <= k)%Z).
  { destruct (Z_le_gt_dec e k) as [L | G]; trivial. exfalso.
    destruct U as (_ & _ & C).
    assert (H : F64.pow2 (52 + e) < F64.pow2 (53 + k)).
    { apply Qle_lt_trans with x; [apply C; lia | exact B]. }
    apply pow2_lt_inv in H. lia. }
  set (q := x / F64.pow2 e).
  assert (E : inject_Z (F64.half_even q) * F64.pow2 e - x
              == (inject_Z (F64.half_even q) - q) * F64.pow2 e).
  { unfold q. field. lra. }
  rewrite E, Qabs_Qmult, (Qabs_pos (F64.pow2 e)) by lra.
  apply Qle_trans with ((1 # 2) * F64.pow2 e).
  - apply Qmult_le_compat_r; [apply half_even_error | lra].
  - apply Qle_trans with (F64.pow2 (e - 1)).
    + rewrite pow2_pred. apply Qle_shift_div_l; lra.
    + apply pow2_le. lia.
Qed.

(** The error of rounding is at most half a unit in the last place. *)
Lemma rnd_error (x : Q) (k : Z) :
  (-1074 <= k)%Z -> Qabs x < F64.pow2 (53 + k) ->
  Qabs (F64.rnd x - x) <= F64.pow2 (k - 1).
Proof.
  intros K B. destruct (Q_dec x 0) as [[N | P] | Z].
  - assert (E : F64.rnd x - x == - (F64.rnd (- x) - - x))
      by (rewrite rnd_opp; ring).
    rewrite E, Qabs_opp. apply rnd_error_pos; trivial; [lra |].
    now rewrite (Qabs_neg x) in B by lra.
  - apply rnd_error_pos; trivial. now rewrite (Qabs_pos x) in B by lra.
  - rewrite (rnd_0 Z), Z. change (Qabs (0 - 0)) with 0.
    apply Qlt_le_weak, pow2_pos.
Qed.

(** For a number in the normal range the relative error is at most
    [2^-53]. *)
Lemma rnd_relative_error (x : Q) :
  F64.pow2 (-1022) <= Qabs x ->
  Qabs (F64.rnd x - x) <= Qabs x * F64.pow2 (-53).
Proof.
  assert (Pos : forall x, F64.pow2 (-1022) <= x ->
                          Qabs (F64.rnd x - x) <= x * F64.pow2 (-53)).
  { clear x. intros x N. pose proof (pow2_pos (-1022)) as P0.
    assert (P : 0 < x) by lra.
    pose proof (exponent_spec P) as U. set (e := F64.exponent x) in *.
    assert (Lo : F64.pow2 (52 + e) <= x).
    { destruct U as (A & _ & C).
      destruct (Z.eq_dec e (-1074)) as [-> | Ne]; [exact N | apply C; lia]. }
    apply Qle_trans with (F64.pow2 (e - 1)).
    - apply rnd_error_pos; trivial; apply U.
    - replace (e - 1)%Z with (52 + e + -53)%Z by lia. rewrite pow2_add.
      apply Qmult_le_compat_r; [exact Lo |].
      apply Qlt_le_weak, pow2_pos. }
  intros N. destruct (Qlt_le_dec x 0) as [Ng | Ps].
  - assert (E : F64.rnd x - x == - (F64.rnd (- x) - - x))
      by (rewrite rnd_opp; ring).
    rewrite E, Qabs_opp, (Qabs_neg x) in * by lra. now apply Pos.
  - rewrite (Qabs_pos x) in * by lra. now apply Pos.
Qed.

(** Nearest. *)

Lemma half_even_nearest (q : Q) (n : Z) :
  Qabs (inject_Z (F64.half_even q) - q) <= Qabs (inject_Z n - q).
Proof.
  pose proof (half_even_error q) as H. set (h := F64.half_even q) in *.
  destruct (Z.eq_dec n h) as [-> | N]; [apply Qle_refl |].
  apply Qle_trans with (1 := H).
  apply Qabs_Qle_condition in H.
  destruct (Z_lt_le_dec n h) as [L | G].
  - assert (I : inject_Z n + 1 <= inject_Z h).
    { change 1 with (inject_Z 1). rewrite <- inject_Z_plus, <- Zle_Qle. lia. }
    rewrite Qabs_neg by lra. lra.
  - assert (I : inject_Z h + 1 <= inject_Z n).
    { change 1 with (inject_Z 1). rewrite <- inject_Z_plus, <- Zle_Qle. lia. }
    rewrite Qabs_pos by lra. lra.
Qed.

Lemma half_even_close_to_zero (q : Q) :
  0 <= q -> Qabs (inject_Z (F64.half_even q) - q) <= q.
Proof.
  intros P. pose proof (half_even_nearest q 0) as H.
  apply Qle_trans with (1 := H). rewrite Qabs_neg.
  - change (inject_Z 0) with 0. lra.
  - change (inject_Z 0) with 0. lra.
Qed.

Lemma rnd_nearest_pos (x f : Q) :
  0 < x -> F64.representable f ->
  Qabs (F64.rnd x - x) <= Qabs (f - x).
Proof.
  intros P (m & k & M & K & Ef).
  pose proof (exponent_spec P) as U. set (e := F64.exponent x) in *.
  rewrite (rnd_at P U). pose proof (pow2_pos e) as Pe.
  pose proof (pow2_pos k) as Pk.
  set (q := x / F64.pow2 e).
  assert (Q0 : 0 < q) by (apply Qlt_shift_div_l; lra).
  assert (Scale : forall z : Q,
             z * F64.pow2 e - x == (z - q) * F64.pow2 e).
  { intros z. unfold q. field. lra. }
  assert (Abs : forall z : Q,
             Qabs (z * F64.pow2 e - x) == Qabs (z - q) * F64.pow2 e).
  { intros z. rewrite Scale, Qabs_Qmult, (Qabs_pos (F64.pow2 e)) by lra.
    reflexivity. }
  assert (Grid : forall n : Z,
             Qabs (inject_Z (F64.half_even q) * F64.pow2 e - x)
             <= Qabs (inject_Z n * F64.pow2 e - x)).
  { intros n. rewrite !Abs. apply Qmult_le_compat_r; [| lra].
    apply half_even_nearest. }
  destruct (Z_le_gt_dec m 0) as [Neg | Pos].
  - (* [f <= 0] *)
    assert (F0 : f <= 0).
    { rewrite Ef. assert (I : inject_Z m <= 0).
      { change 0 with (inject_Z 0). now rewrite <- Zle_Qle. }
      assert (J : 0 <= - inject_Z m * F64.pow2 k)
        by (apply Qmult_le_0_compat; lra).
      lra. }
    rewrite (Qabs_neg (f - x)) by lra.
    apply Qle_trans with x; [| lra].
    rewrite Abs.
    apply Qle_trans with (q * F64.pow2 e).
    + apply Qmult_le_compat_r; [| lra].
      apply half_even_close_to_zero. lra.
    + unfold q. apply Qle_lteq. right. field. lra.
  - destruct (Z_le_gt_dec e k) as [Le | Gt].
    + (* [f] is a multiple of the unit in the last place *)
      assert (E : f == inject_Z (m * 2 ^ (k - e)) * F64.pow2 e).
      { rewrite Ef, inject_Z_mult, <- pow2_Z, pow2_sub by lia. field. lra. }
      rewrite E. apply Grid.
    + (* [f] is below the binade of [x] *)
      destruct U as (A & B & C).
      assert (Lo : F64.pow2 (52 + e) <= x) by (apply C; lia).
      assert (Ff : f <= F64.pow2 (52 + e)).
      { rewrite Ef.
        apply Qle_trans with (inject_Z (2 ^ 53) * F64.pow2 k).
        - apply Qmult_le_compat_r; [| lra]. rewrite <- Zle_Qle. lia.
        - rewrite <- pow2_Z, <- pow2_add by lia. apply pow2_le. lia. }
      apply Qle_trans
        with (Qabs (inject_Z (2 ^ 52) * F64.pow2 e - x)); [apply Grid |].
      rewrite <- pow2_Z, <- pow2_add by lia.
      rewrite !Qabs_neg by lra. lra.
Qed.

(** [F64.rnd x] is a binary64 number nearest to [x]. *)
Lemma rnd_nearest (x f : Q) :
  F64.representable f -> Qabs (F64.rnd x - x) <= Qabs (f - x).
Proof.
  intros F. destruct (Q_dec x 0) as [[N | P] | Z].
  - assert (E : F64.rnd x - x == - (F64.rnd (- x) - - x))
      by (rewrite rnd_opp; ring).
    assert (E' : f - x == - (- f - - x)) by ring.
    rewrite E, E', !Qabs_opp. apply rnd_nearest_pos; [lra |].
    now apply representable_opp.
  - now apply rnd_nearest_pos.
  - rewrite (rnd_0 Z), Z. change (Qabs (0 - 0)) with 0. apply Qabs_nonneg.
Qed.

(* ================================================================= *)
(** ** Rounding *)

Lemma Qabs_nonneg_eq (x y : Q) : 0 <= x -> x == y -> Qabs x == y.
Proof. intros H E. rewrite <- E. now apply Qabs_pos. Qed.

Lemma Qabs_nonpos_eq (x y : Q) : x <= 0 -> - x == y -> Qabs x == y.
Proof. intros H E. rewrite <- E. now apply Qabs_neg. Qed.

Lemma Qle_bool_comp (a b c d : Q) :
  a == c -> b == d -> Qle_bool a b = Qle_bool c d.
Proof.
  intros E1 E2.
  destruct (Qle_bool a b) eqn:H1, (Qle_bool c d) eqn:H2; trivial.
  - apply Qle_bool_iff in H1. rewrite E1, E2 in H1.
    apply Qle_bool_iff in H1. congruence.
  - apply Qle_bool_iff in H2. rewrite <- E1, <- E2 in H2.
    apply Qle_bool_iff in H2. congruence.
Qed.

Lemma Qle_bool_false (x y : Q) : Qle_bool x y = false <-> y < x.
Proof.
  split.
  - intros H. apply Qnot_le_lt. intros C. apply Qle_bool_iff in C. congruence.
  - intros H. destruct (Qle_bool x y) eqn:E; trivial.
    apply Qle_bool_iff in E. lra.
Qed.

Lemma Qlt_bool_iff (x y : Q) : Qlt_bool x y = true <-> x < y.
Proof.
  unfold Qlt_bool. rewrite negb_true_iff. apply Qle_bool_false.
Qed.

Lemma Qlt_bool_false (x y : Q) : Qlt_bool x y = false <-> y <= x.
Proof.
  unfold Qlt_bool. rewrite negb_false_iff. apply Qle_bool_iff.
Qed.

Lemma Trunc_comp (x y : Q) : x == y -> GoMath.Trunc x = GoMath.Trunc y.
Proof.
  intros E. unfold GoMath.Trunc.
  rewrite (@Qle_bool_comp 0 x 0 y) by (trivial; reflexivity).
  destruct (Qle_bool 0 y).
  - now apply Qfloor_comp.
  - now apply Qceiling_comp.
Qed.

Lemma Round_comp (x y : Q) : x == y -> GoMath.Round x == GoMath.Round y.
Proof.
  intros E. unfold GoMath.Round, GoMath.Copysign1.
  rewrite (Trunc_comp E).
  rewrite (@Qle_bool_comp (1 # 2) (Qabs (x - inject_Z (GoMath.Trunc y)))
             (1 # 2) (Qabs (y - inject_Z (GoMath.Trunc y)))).
  - rewrite (@Qle_bool_comp 0 x 0 y) by (trivial; reflexivity). reflexivity.
  - reflexivity.
  - now rewrite E.
Qed.

Lemma Trunc_inject_Z (n : Z) : GoMath.Trunc (inject_Z n) = n.
Proof.
  unfold GoMath.Trunc. destruct (Qle_bool 0 (inject_Z n)).
  - apply Qfloor_Z.
  - apply Qceiling_Z.
Qed.

(** An integer is its own rounding. *)
Lemma Round_inject_Z (n : Z) : GoMath.Round (inject_Z n) == inject_Z n.
Proof.
  unfold GoMath.Round. rewrite Trunc_inject_Z.
  destruct (Qle_bool (1 # 2) (Qabs (inject_Z n - inject_Z n))) eqn:H.
  - apply Qle_bool_iff in H.
    assert (Z0 : inject_Z n - inject_Z n == 0) by ring.
    rewrite Z0 in H. change (Qabs 0) with 0 in H. lra.
  - reflexivity.
Qed.

(** [math.Round] rounds to the nearest integer, ties away from zero. *)
Lemma Round_nearest_away (x : Q) :
  exists n : Z, GoMath.Round x == inject_Z n /\ nearest_away x n.
Proof.
  unfold GoMath.Round, GoMath.Trunc, GoMath.Copysign1, nearest_away.
  destruct (Qle_bool 0 x) eqn:Hs.
  - apply Qle_bool_iff in Hs.
    pose proof (Qfloor_le x) as Hlo. pose proof (Qlt_floor x) as Hhi.
    rewrite inject_Z_plus in Hhi. change (inject_Z 1) with 1 in Hhi.
    set (f := Qfloor x) in *.
    assert (A : Qabs (x - inject_Z f) == x - inject_Z f)
      by (apply Qabs_nonneg_eq; [lra | ring]).
    destruct (Qle_bool (1 # 2) (Qabs (x - inject_Z f))) eqn:Hh.
    + apply Qle_bool_iff in Hh. rewrite A in Hh.
      exists (f + 1)%Z. rewrite inject_Z_plus. change (inject_Z 1) with 1.
      assert (B : Qabs (inject_Z f + 1 - x) == inject_Z f + 1 - x)
        by (apply Qabs_nonneg_eq; [lra | ring]).
      split; [reflexivity | rewrite B; split; [lra | intros _]].
      assert (Y : Qabs (inject_Z f + 1) == inject_Z f + 1)
        by (apply Qabs_nonneg_eq; [lra | ring]).
      rewrite (Qabs_pos x Hs), Y. lra.
    + apply Qle_bool_false in Hh. rewrite A in Hh.
      exists f.
      assert (B : Qabs (inject_Z f - x) == x - inject_Z f)
        by (apply Qabs_nonpos_eq; [lra | ring]).
      split; [reflexivity | rewrite B; split; [lra | intros C; lra]].
  - apply Qle_bool_false in Hs.
    pose proof (Qle_ceiling x) as Hhi. pose proof (Qceiling_lt x) as Hlo.
    assert (E : inject_Z (Qceiling x - 1) == inject_Z (Qceiling x) - 1)
      by (unfold Zminus; rewrite inject_Z_plus; reflexivity).
    rewrite E in Hlo. clear E.
    set (c := Qceiling x) in *.
    assert (A : Qabs (x - inject_Z c) == inject_Z c - x)
      by (apply Qabs_nonpos_eq; [lra | ring]).
    destruct (Qle_bool (1 # 2) (Qabs (x - inject_Z c))) eqn:Hh.
    + apply Qle_bool_iff in Hh. rewrite A in Hh.
      exists (c + -1)%Z. rewrite inject_Z_plus.
      change (inject_Z (-1)) with (- (1)).
      assert (B : Qabs (inject_Z c + - (1) - x) == x - inject_Z c + 1)
        by (apply Qabs_nonpos_eq; [lra | ring]).
      split; [reflexivity | rewrite B; split; [lra | intros _]].
      assert (X : Qabs x == - x) by (apply Qabs_nonpos_eq; [lra | ring]).
      assert (Y : Qabs (inject_Z c + - (1)) == - (inject_Z c + - (1)))
        by (apply Qabs_nonpos_eq; [lra | ring]).
      rewrite X, Y. lra.
    + apply Qle_bool_false in Hh. rewrite A in Hh.
      exists c.
      assert (B : Qabs (inject_Z c - x) == inject_Z c - x)
        by (apply Qabs_nonneg_eq; [lra | ring]).
      split; [reflexivity | rewrite B; split; [lra | intros C; lra]].
Qed.

(** [Round (x * 100) / 100] is [x] rounded to two decimals. *)
Lemma Round_rounded2_away (x : Q) :
  rounded2_away x (GoMath.Round (x * 100) / 100).
Proof.
  destruct (Round_nearest_away (x * 100)) as (n & E & N).
  exists n. split; [now rewrite E | exact N].
Qed.

Lemma inject_Z_nonneg (p : Z) : (0 <= p)%Z -> 0 <= inject_Z p.
Proof. intros H. change 0 with (inject_Z 0). now rewrite <- Zle_Qle. Qed.

Lemma nearest_away_mono (x y : Q) (n m : Z) :
  x <= y -> nearest_away x n -> nearest_away y m -> (n <= m)%Z.
Proof.
  intros L [Hn Tn] [Hm Tm].
  destruct (Z_le_gt_dec n m) as [H | H]; trivial. exfalso.
  assert (N : inject_Z m + 1 <= inject_Z n).
  { change 1 with (inject_Z 1). rewrite <- inject_Z_plus, <- Zle_Qle. lia. }
  apply Qabs_Qle_condition in Hn, Hm.
  assert (Ex : x == inject_Z m + (1 # 2)) by lra.
  assert (Ey : y == inject_Z m + (1 # 2)) by lra.
  assert (En : inject_Z n == inject_Z m + 1) by lra.
  assert (T1 : Qabs (inject_Z n - x) == 1 # 2).
  { apply Qabs_nonneg_eq; lra. }
  assert (T2 : Qabs (inject_Z m - y) == 1 # 2).
  { apply Qabs_nonpos_eq; lra. }
  specialize (Tn T1). specialize (Tm T2).
  destruct (Z_le_gt_dec 0 m) as [P | P].
  - pose proof (inject_Z_nonneg P) as Q0.
    rewrite (Qabs_pos y), (Qabs_pos (inject_Z m)) in Tm by lra. lra.
  - assert (Q0 : inject_Z m <= - (1)).
    { change (- (1)) with (inject_Z (-1)). rewrite <- Zle_Qle. lia. }
    rewrite (Qabs_neg x), (Qabs_neg (inject_Z n)) in Tn by lra. lra.
Qed.

(** [math.Round] is monotone. *)
Lemma Round_mono (x y : Q) : x <= y -> GoMath.Round x <= GoMath.Round y.
Proof.
  intros L.
  destruct (Round_nearest_away x) as (n & En & Hn).
  destruct (Round_nearest_away y) as (m & Em & Hm).
  rewrite En, Em, <- Zle_Qle. now apply nearest_away_mono with x y.
Qed.

(** A number less than one half away from an integer is rounded to it. *)
Lemma Round_near (x : Q) (n : Z) :
  Qabs (x - inject_Z n) < 1 # 2 -> GoMath.Round x == inject_Z n.
Proof.
  intros H. destruct (Round_nearest_away x) as (k & Ek & [Hk _]).
  rewrite Ek. apply Qabs_Qlt_condition in H. apply Qabs_Qle_condition in Hk.
  assert (A : inject_Z (k - n) < 1).
  { unfold Zminus. rewrite inject_Z_plus, inject_Z_opp. lra. }
  assert (B : - (1) < inject_Z (k - n)).
  { unfold Zminus. rewrite inject_Z_plus, inject_Z_opp. lra. }
  change 1 with (inject_Z 1) in A. change (- (1)) with (inject_Z (-1)) in B.
  rewrite <- Zlt_Qlt in A, B. now replace k with n by lia.
Qed.

Lemma Round_nonneg (x : Q) : 0 <= x -> 0 <= GoMath.Round x.
Proof.
  intros H. apply Round_mono in H.
  now rewrite (Round_inject_Z 0) in H.
Qed.

(** [math.Round] of a binary64 number is a binary64 number. *)
Lemma Round_representable (x : Q) :
  F64.representable x -> F64.representable (GoMath.Round x).
Proof.
  intros (m & e & A & B & C).
  destruct (Z_le_gt_dec 0 e) as [P | N].
  - apply representable_comp with x; [| now exists m, e].
    assert (I : x == inject_Z (m * 2 ^ e)).
    { rewrite C, inject_Z_mult, (pow2_Z P). reflexivity. }
    rewrite (Round_comp I), Round_inject_Z. exact I.
  - destruct (Round_nearest_away x) as (k & Ek & [Hk _]).
    apply representable_comp with (inject_Z k); [now symmetry |].
    apply representable_Z.
    assert (X : Qabs x <= inject_Z (2 ^ 52)).
    { rewrite C, Qabs_Qmult, (Qabs_pos (F64.pow2 e))
        by apply Qlt_le_weak, pow2_pos.
      apply Qle_trans with (inject_Z (2 ^ 53) * F64.pow2 (-1)).
      - apply Qmult_le_compat_nonneg.
        + split; [apply Qabs_nonneg |].
          apply Qabs_Qle_condition. rewrite <- inject_Z_opp, <- !Zle_Qle. lia.
        + split; [apply Qlt_le_weak, pow2_pos | apply pow2_le; lia].
      - vm_compute. discriminate. }
    apply Qabs_Qle_condition in X, Hk.
    assert (U : inject_Z k <= inject_Z (2 ^ 52 + 1)).
    { rewrite inject_Z_plus. change (inject_Z 1) with 1. lra. }
    assert (L : inject_Z (- (2 ^ 52 + 1)) <= inject_Z k).
    { rewrite inject_Z_opp, inject_Z_plus. change (inject_Z 1) with 1. lra. }
    rewrite <- Zle_Qle in U, L. lia.
Qed.

(** The integer part of a non-negative number. *)
Lemma Trunc_between (x : Q) (n : Z) :
  (0 <= n)%Z -> inject_Z n <= x -> x < inject_Z n + 1 -> GoMath.Trunc x = n.
Proof.
  intros P L U. unfold GoMath.Trunc.
  assert (X : 0 <= x) by (pose proof (inject_Z_nonneg P); lra).
  apply Qle_bool_iff in X. rewrite X.
  pose proof (Qfloor_resp_le _ _ L) as F1. rewrite Qfloor_Z in F1.
  pose proof (Qfloor_le x) as F2.
  assert (F3 : inject_Z (Qfloor x) < inject_Z (n + 1)).
  { rewrite inject_Z_plus. change (inject_Z 1) with 1. lra. }
  rewrite <- Zlt_Qlt in F3. lia.
Qed.

Lemma Trunc_opp (x : Q) : GoMath.Trunc (- x) = (- GoMath.Trunc x)%Z.
Proof.
  unfold GoMath.Trunc, Qceiling.
  destruct (Qle_bool 0 x) eqn:A, (Qle_bool 0 (- x)) eqn:B.
  - apply Qle_bool_iff in A, B. assert (E : x == 0) by lra.
    assert (E' : - x == 0) by lra.
    rewrite (Qfloor_comp _ _ E), (Qfloor_comp _ _ E'). reflexivity.
  - assert (E : - - x == x) by ring.
    now rewrite (Qfloor_comp _ _ E).
  - lia.
  - apply Qle_bool_false in A, B. lra.
Qed.
(* ================================================================= *)
(** ** The scoring function *)

Lemma CalculateScore_incorrect (p t : Z) : CalculateScore p t false = 0.
Proof. reflexivity. Qed.

Lemma CalculateScore_correct (p t : Z) :
  CalculateScore p t true
  = F64.div
      (GoMath.Round (F64.mul (F64.mul (F64.of_int p) (multiplier t)) 100)) 100.
Proof. reflexivity. Qed.

Lemma medium_times (t : Z) :
  (5 < t <= 10)%Z -> t = 6%Z \/ t = 7%Z \/ t = 8%Z \/ t = 9%Z \/ t = 10%Z.
Proof. lia. Qed.

(** The hundredths the specification grants at a response time. *)
Lemma policy_hundredths (t : Z) :
  exists c : Z,
    (50 <= c <= 100)%Z /\ policy t true == inject_Z c / 100
    /\ ((t <= 5)%Z -> c = 100%Z)
    /\ ((5 < t <= 10)%Z -> c = (130 - 6 * t)%Z)
    /\ ((10 < t)%Z -> c = 50%Z).
Proof.
  unfold policy. cbn [negb].
  destruct (Z.leb_spec t 5) as [H5 | H5].
  - exists 100%Z. split; [lia |]. split; [reflexivity |].
    split; [intros; lia | split; intros; lia].
  - destruct (Z.leb_spec t 10) as [H10 | H10].
    + exists (130 - 6 * t)%Z. split; [lia |]. split.
      * unfold decay, Zminus.
        rewrite inject_Z_plus, inject_Z_opp, inject_Z_mult.
        change (inject_Z 130) with 130. change (inject_Z 6) with 6. field.
      * split; [intros; lia | split; intros; lia].
    + exists 50%Z. split; [lia |]. split; [reflexivity |].
      split; [intros; lia | split; intros; lia].
Qed.

(** The binary64 multiplier is within [2^-52] of the one of the
    specification. *)
Lemma multiplier_close (t : Z) :
  Qabs (multiplier t - policy t true) <= F64.pow2 (-52).
Proof.
  destruct (Z_le_gt_dec t 5) as [H5 | H5].
  - unfold multiplier, policy. cbn [negb].
    apply Z.leb_le in H5. rewrite H5. vm_compute. discriminate.
  - destruct (Z_le_gt_dec t 10) as [H10 | H10].
    + destruct (@medium_times t) as [-> | [-> | [-> | [-> | ->]]]];
        [lia | vm_compute; discriminate ..].
    + unfold multiplier, policy. cbn [negb].
      assert (A : (t <=? 5)%Z = false) by (apply Z.leb_gt; lia).
      assert (B : (t <=? 10)%Z = false) by (apply Z.leb_gt; lia).
      rewrite A, B. vm_compute. discriminate.
Qed.

Lemma multiplier_range (t : Z) : 1 # 2 <= multiplier t /\ multiplier t <= 1.
Proof.
  destruct (Z_le_gt_dec t 5) as [H5 | H5].
  - unfold multiplier. apply Z.leb_le in H5. rewrite H5.
    split; [discriminate | apply Qle_refl].
  - destruct (Z_le_gt_dec t 10) as [H10 | H10].
    + destruct (@medium_times t) as [-> | [-> | [-> | [-> | ->]]]];
        [lia | split; vm_compute; discriminate ..].
    + unfold multiplier.
      assert (A : (t <=? 5)%Z = false) by (apply Z.leb_gt; lia).
      assert (B : (t <=? 10)%Z = false) by (apply Z.leb_gt; lia).
      rewrite A, B. split; [apply Qle_refl | discriminate].
Qed.

(** The multiplier does not increase with the response time. *)
Lemma multiplier_antitone (t1 t2 : Z) :
  (t1 <= t2)%Z -> multiplier t2 <= multiplier t1.
Proof.
  intros H.
  destruct (Z_le_gt_dec t1 5) as [H5 | H5].
  { unfold multiplier at 2. apply Z.leb_le in H5. rewrite H5.
    apply multiplier_range. }
  destruct (Z_le_gt_dec t2 10) as [H10 | H10].
  - destruct (@medium_times t1) as [-> | [-> | [-> | [-> | ->]]]]; [lia | ..];
      (destruct (@medium_times t2) as [-> | [-> | [-> | [-> | ->]]]];
       [lia | try (exfalso; lia); vm_compute; discriminate ..]).
  - unfold multiplier at 1.
    assert (A : (t2 <=? 5)%Z = false) by (apply Z.leb_gt; lia).
    assert (B : (t2 <=? 10)%Z = false) by (apply Z.leb_gt; lia).
    rewrite A, B. apply multiplier_range.
Qed.

Lemma points_limit_small : (points_limit <= 2 ^ 53)%Z.
Proof. discriminate. Qed.

Lemma of_int_exact (n : Z) :
  (Z.abs n <= 2 ^ 53)%Z -> F64.of_int n == inject_Z n.
Proof. apply rnd_Z. Qed.

Lemma Qabs_mult_le (a b A B : Q) :
  Qabs a <= A -> Qabs b <= B -> Qabs (a * b) <= A * B.
Proof.
  intros Ha Hb. rewrite Qabs_Qmult.
  apply Qmult_le_compat_nonneg; split; trivial; apply Qabs_nonneg.
Qed.

(** Up to [points_limit] the rounding errors stay below half a hundredth:
    [math.Round] recovers the hundredths of the exact product. *)
Lemma score_hundredths (p c : Z) (M : Q) :
  (0 <= p <= points_limit)%Z -> (0 <= c <= 100)%Z ->
  Qabs (M - inject_Z c / 100) <= F64.pow2 (-52) ->
  GoMath.Round (F64.mul (F64.mul (F64.of_int p) M) 100) == inject_Z (p * c).
Proof.
  intros [P0 P1] [C0 C1] HM. unfold F64.mul.
  assert (IP : F64.of_int p == inject_Z p).
  { apply of_int_exact. pose proof points_limit_small. lia. }
  set (v := inject_Z p * (inject_Z c / 100)).
  set (w := inject_Z p * (M - inject_Z c / 100)).
  assert (X1 : F64.of_int p * M == v + w) by (unfold v, w; rewrite IP; ring).
  rewrite (rnd_comp X1).
  assert (Bp : 0 <= inject_Z p /\ inject_Z p <= inject_Z points_limit).
  { split; [now apply inject_Z_nonneg | now rewrite <- Zle_Qle]. }
  assert (Bc : 0 <= inject_Z c / 100 /\ inject_Z c / 100 <= 1).
  { split.
    - apply Qle_shift_div_l; [reflexivity |]. rewrite Qmult_0_l.
      now apply inject_Z_nonneg.
    - apply Qle_shift_div_r; [reflexivity |].
      change (1 * 100) with (inject_Z 100). now rewrite <- Zle_Qle. }
  assert (Bv : 0 <= v /\ v <= inject_Z points_limit).
  { unfold v. split; [apply Qmult_le_0_compat; tauto |].
    rewrite <- (Qmult_1_r (inject_Z points_limit)).
    apply Qmult_le_compat_nonneg; tauto. }
  assert (Bw : Qabs w <= inject_Z points_limit * F64.pow2 (-52)).
  { unfold w. apply Qabs_mult_le; [| exact HM].
    rewrite Qabs_pos; tauto. }
  change (inject_Z points_limit) with 1000000000000 in Bv, Bw.
  change (F64.pow2 (-52)) with (1 # 4503599627370496) in Bw.
  apply Qabs_Qle_condition in Bw.
  pose proof (@rnd_error (v + w) (-13)) as E1.
  change (F64.pow2 (53 + -13)) with 1099511627776 in E1.
  change (F64.pow2 (-13 - 1)) with (1 # 16384) in E1.
  assert (E1' : Qabs (F64.rnd (v + w) - (v + w)) <= 1 # 16384).
  { apply E1; [discriminate |]. apply Qabs_Qlt_condition. lra. }
  clear E1. apply Qabs_Qle_condition in E1'.
  set (s := F64.rnd (v + w)) in *.
  pose proof (@rnd_error (s * 100) (-6)) as E2.
  change (F64.pow2 (53 + -6)) with 140737488355328 in E2.
  change (F64.pow2 (-6 - 1)) with (1 # 128) in E2.
  assert (E2' : Qabs (F64.rnd (s * 100) - s * 100) <= 1 # 128).
  { apply E2; [discriminate |]. apply Qabs_Qlt_condition. lra. }
  clear E2. apply Qabs_Qle_condition in E2'.
  apply Round_near.
  assert (V : inject_Z (p * c) == 100 * v).
  { unfold v. rewrite inject_Z_mult. field. }
  rewrite V. apply Qabs_Qlt_condition. lra.
Qed.

(** Up to [points_limit] base points, the score of a correct answer is the
    binary64 number nearest to the share the specification grants. *)
Lemma CalculateScore_exact (p t : Z) :
  (0 <= p <= points_limit)%Z ->
  CalculateScore p t true = F64.rnd (inject_Z p * policy t true).
Proof.
  intros Hp. rewrite CalculateScore_correct.
  destruct (policy_hundredths t) as (c & Hc & Ec & _).
  assert (R : GoMath.Round
                (F64.mul (F64.mul (F64.of_int p) (multiplier t)) 100)
              == inject_Z (p * c)).
  { apply score_hundredths; [exact Hp | lia |].
    rewrite <- Ec. apply multiplier_close. }
  unfold F64.div. apply rnd_comp.
  rewrite R, Ec, inject_Z_mult. field.
Qed.

Lemma CalculateScore_fast (p t : Z) :
  (0 <= p <= points_limit)%Z -> (t <= 5)%Z ->
  CalculateScore p t true == inject_Z p.
Proof.
  intros Hp H. rewrite (CalculateScore_exact t Hp).
  unfold policy. cbn [negb]. apply Z.leb_le in H. rewrite H.
  rewrite (@rnd_comp _ (inject_Z p)) by ring.
  apply rnd_Z. pose proof points_limit_small. lia.
Qed.

Lemma CalculateScore_medium (p t : Z) :
  (0 <= p <= points_limit)%Z -> (5 < t <= 10)%Z ->
  CalculateScore p t true = F64.rnd (inject_Z p * decay t).
Proof.
  intros Hp [H1 H2]. rewrite (CalculateScore_exact t Hp).
  unfold policy. cbn [negb].
  apply Z.leb_gt in H1. apply Z.leb_le in H2. now rewrite H1, H2.
Qed.

Lemma CalculateScore_slow (p t : Z) :
  (0 <= p <= points_limit)%Z -> (10 < t)%Z ->
  CalculateScore p t true == inject_Z p * (1 # 2).
Proof.
  intros Hp H. rewrite (CalculateScore_exact t Hp).
  unfold policy. cbn [negb].
  assert (H5 : (t <=? 5)%Z = false) by (apply Z.leb_gt; lia).
  apply Z.leb_gt in H. rewrite H5, H.
  apply rnd_exact. exists p, (-1)%Z.
  split; [pose proof points_limit_small; lia | split; [discriminate |]].
  reflexivity.
Qed.

Lemma policy_range (t : Z) (c : bool) : 0 <= policy t c /\ policy t c <= 1.
Proof.
  destruct c; [| split; [apply Qle_refl | discriminate]].
  destruct (policy_hundredths t) as (k & Hk & -> & _). split.
  - apply Qle_shift_div_l; [reflexivity |]. rewrite Qmult_0_l.
    apply inject_Z_nonneg. lia.
  - apply Qle_shift_div_r; [reflexivity |].
    change (1 * 100) with (inject_Z 100). rewrite <- Zle_Qle. lia.
Qed.

Lemma CalculateScore_nonneg (p t : Z) (c : bool) :
  (0 <= p)%Z -> 0 <= CalculateScore p t c.
Proof.
  intros Hp. destruct c; [| apply Qle_refl].
  rewrite CalculateScore_correct. unfold F64.div, F64.mul, F64.of_int.
  apply rnd_nonneg. apply Qle_shift_div_l; [reflexivity |].
  rewrite Qmult_0_l. apply Round_nonneg, rnd_nonneg.
  apply Qmult_le_0_compat; [| discriminate].
  apply rnd_nonneg, Qmult_le_0_compat.
  - apply rnd_nonneg. now apply inject_Z_nonneg.
  - pose proof (multiplier_range t). lra.
Qed.

(** Points earned lie between zero and the base points. *)
Lemma CalculateScore_bounds (p t : Z) (c : bool) :
  (0 <= p <= points_limit)%Z ->
  0 <= CalculateScore p t c /\ CalculateScore p t c <= inject_Z p.
Proof.
  intros Hp. split; [apply CalculateScore_nonneg; lia |].
  pose proof (inject_Z_nonneg (proj1 Hp)) as P.
  destruct c; [| exact P].
  rewrite (CalculateScore_exact t Hp).
  apply Qle_trans with (F64.rnd (inject_Z p)).
  - apply rnd_mono.
    destruct (policy_range t true) as [_ U].
    rewrite <- (Qmult_1_r (inject_Z p)) at 2.
    rewrite !(Qmult_comm (inject_Z p)). now apply Qmult_le_compat_r.
  - rewrite rnd_Z by (pose proof points_limit_small; lia). apply Qle_refl.
Qed.

Lemma nearest_away_comp (x y : Q) (n : Z) :
  x == y -> nearest_away x n -> nearest_away y n.
Proof.
  unfold nearest_away. intros E [H1 H2]. rewrite <- E. now split.
Qed.

Lemma rounded2_away_comp (x y r : Q) :
  x == y -> rounded2_away x r -> rounded2_away y r.
Proof.
  intros E (n & Hr & Hn). exists n. split; trivial.
  apply nearest_away_comp with (x := x * 100); trivial. now rewrite E.
Qed.

(** A whole number of hundredths is its own rounding to two decimals. *)
Lemma rounded2_away_exact (x : Q) (n : Z) :
  x * 100 == inject_Z n -> rounded2_away x x.
Proof.
  intros E. exists n. split; [rewrite <- E; field |].
  assert (Z0 : inject_Z n - x * 100 == 0) by (rewrite E; ring).
  unfold nearest_away. rewrite Z0. change (Qabs 0) with 0.
  split; [discriminate | intros C; discriminate C].
Qed.

(** The value returned is the binary64 quotient by 100 of an integer, which
    is the product the function forms, times 100, rounded with ties away
    from zero. *)
Lemma CalculateScore_rounds_product (p t : Z) :
  exists n : Z,
    CalculateScore p t true = F64.div (inject_Z n) 100
    /\ nearest_away
         (F64.mul (F64.mul (F64.of_int p) (multiplier t)) 100) n.
Proof.
  rewrite CalculateScore_correct.
  destruct (Round_nearest_away
              (F64.mul (F64.mul (F64.of_int p) (multiplier t)) 100))
    as (n & E & N).
  exists n. split; [| exact N]. unfold F64.div. apply rnd_comp. now rewrite E.
Qed.

(** C1 as stated fails for large base points: with [2^53 + 1] base points
    an answer within 5 seconds earns [2^53], and with [10^14] base points an
    answer at 10 seconds earns 69999999999999.9921875, which is not
    [0.7 * 10^14]. *)
Lemma CalculateScore_large_counterexample :
  (0 < 2 ^ 53 + 1)%Z /\ (0 <= 3)%Z /\ (3 <= 5)%Z
  /\ CalculateScore (2 ^ 53 + 1) 3 true == inject_Z (2 ^ 53)
  /\ ~ CalculateScore (2 ^ 53 + 1) 3 true == inject_Z (2 ^ 53 + 1)
  /\ CalculateScore (10 ^ 14) 10 true == 8959999999999999 # 128
  /\ ~ CalculateScore (10 ^ 14) 10 true
       == inject_Z (10 ^ 14) * (1 - ((inject_Z 10 - 5) / 5) * (3 # 10)).
Proof.
  split; [reflexivity |]. split; [discriminate |]. split; [discriminate |].
  split; [vm_compute; reflexivity |].
  split; [intros C; vm_compute in C; discriminate C |].
  split; [vm_compute; reflexivity |].
  intros C. vm_compute in C. discriminate C.
Qed.

(** C1, amended.  For base points from 1 to [points_limit] (10^12) and a
    non-negative response time, [CalculateScore] returns 0 for an incorrect
    answer, the base points up to 5 seconds, the binary64 number nearest to
    [basePoints * (1 - ((responseTime - 5) / 5) * 0.3)] above 5 and up to 10
    seconds, and half the base points above 10 seconds.  In each case the
    result is the binary64 number nearest to that value rounded to two
    decimal places, ties away from zero. *)
Theorem CalculateScore_policy (basePoints responseTime : Z) (isCorrect : bool) :
  (0 < basePoints <= points_limit)%Z -> (0 <= responseTime)%Z ->
  let score := CalculateScore basePoints responseTime isCorrect in
  let p := inject_Z basePoints in
  let t := inject_Z responseTime in
  (isCorrect = false -> score == 0)
  /\ (isCorrect = true -> (responseTime <= 5)%Z -> score == p)
  /\ (isCorrect = true -> (5 < responseTime <= 10)%Z ->
      score = F64.rnd (p * (1 - ((t - 5) / 5) * (3 # 10))))
  /\ (isCorrect = true -> (10 < responseTime)%Z -> score == p * (1 # 2))
  /\ exists r : Q,
       rounded2_away (p * policy responseTime isCorrect) r
       /\ score = F64.rnd r.
Proof.
  intros [P0 P1] _ score p t. subst score p t.
  assert (Hp : (0 <= basePoints <= points_limit)%Z) by lia.
  split; [| split; [| split; [| split]]].
  - intros ->. reflexivity.
  - intros -> H. now apply CalculateScore_fast.
  - intros -> H. now apply CalculateScore_medium.
  - intros -> H. now apply CalculateScore_slow.
  - exists (inject_Z basePoints * policy responseTime isCorrect). split.
    + destruct isCorrect.
      * destruct (policy_hundredths responseTime) as (c & _ & Ec & _).
        apply rounded2_away_exact with (basePoints * c)%Z.
        rewrite Ec, inject_Z_mult. field.
      * apply rounded2_away_exact with 0%Z.
        change (policy responseTime false) with 0. ring.
    + destruct isCorrect.
      * now apply CalculateScore_exact.
      * rewrite CalculateScore_incorrect. symmetry. apply rnd_0.
        change (policy responseTime false) with 0. ring.
Qed.

Lemma CalculateScore_policy_witness :
  (0 < 10 <= points_limit)%Z /\ (0 <= 7)%Z
  /\ CalculateScore 10 7 true
     = F64.rnd (inject_Z 10 * (1 - ((inject_Z 7 - 5) / 5) * (3 # 10)))
  /\ exists r : Q,
       rounded2_away (inject_Z 10 * policy 7 true) r
       /\ CalculateScore 10 7 true = F64.rnd r.
Proof.
  assert (P : (0 < 10 <= points_limit)%Z)
    by (split; [reflexivity | discriminate]).
  assert (T : (0 <= 7)%Z) by discriminate.
  split; [exact P | split; [exact T |]].
  destruct (@CalculateScore_policy 10 7 true P T) as (_ & _ & H & _ & R).
  split; [| exact R].
  apply H; [reflexivity | split; [reflexivity | discriminate]].
Defined.

(** C2 as stated fails at 10 seconds: with 10 base points the function
    returns 7, not 5. *)
Lemma CalculateScore_ten_seconds_counterexample :
  (0 < 10)%Z
  /\ CalculateScore 10 10 true == 7
  /\ ~ CalculateScore 10 10 true == (1 # 2) * inject_Z 10.
Proof.
  split; [reflexivity | split; [vm_compute; reflexivity |]].
  intros C. vm_compute in C. discriminate C.
Qed.

(** C2, amended.  For base points [p] from 1 to [points_limit] (10^12): the
    score of a correct answer is [p] for every time from 0 to 5, the binary64
    number nearest to [0.7 * p] at 10 seconds and the one nearest to
    [0.88 * p] at 7 seconds; the score of an incorrect answer is 0 at every
    time. *)
Theorem CalculateScore_table (p : Z) :
  (0 < p <= points_limit)%Z ->
  (forall t : Z, (0 <= t <= 5)%Z -> CalculateScore p t true == inject_Z p)
  /\ CalculateScore p 10 true = F64.rnd ((7 # 10) * inject_Z p)
  /\ CalculateScore p 7 true = F64.rnd ((88 # 100) * inject_Z p)
  /\ (forall t : Z, CalculateScore p t false == 0).
Proof.
  intros [P0 P1]. assert (Hp : (0 <= p <= points_limit)%Z) by lia.
  split; [| split; [| split]].
  - intros t [_ H]. now apply CalculateScore_fast.
  - rewrite (@CalculateScore_medium p 10) by (trivial; lia).
    apply rnd_comp. unfold decay. change (inject_Z 10) with 10. field.
  - rewrite (@CalculateScore_medium p 7) by (trivial; lia).
    apply rnd_comp. unfold decay. change (inject_Z 7) with 7. field.
  - intros t. reflexivity.
Qed.

Lemma CalculateScore_table_witness :
  (0 < 15 <= points_limit)%Z
  /\ CalculateScore 15 10 true = F64.rnd ((7 # 10) * inject_Z 15)
  /\ CalculateScore 15 7 true = F64.rnd ((88 # 100) * inject_Z 15).
Proof.
  assert (P : (0 < 15 <= points_limit)%Z)
    by (split; [reflexivity | discriminate]).
  split; [exact P |].
  destruct (@CalculateScore_table 15 P) as (_ & H10 & H7 & _).
  split; [exact H10 | exact H7].
Defined.

(** [F64] and the binary64 numbers of the processor give the same scores for
    the base points of [grid_points] and response times 0 to 16, and the
    same sums, differences, products and quotients on the samples. *)
Lemma CalculateScore_binary64_grid : binary64_grid_agrees = true.
Proof. vm_compute. reflexivity. Qed.

Lemma F64_binary64_operations : binary64_operations_agree = true.
Proof. vm_compute. reflexivity. Qed.

(* ================================================================= *)
(** ** The storage layer *)

Section StorageFacts.
Context {A : Type}.
Implicit Types (f : A -> bool) (u : A -> A) (l : list A).

Lemma UpdateOne_split f u l a :
  find f l = Some a ->
  exists l1 l2,
    l = l1 ++ a :: l2 /\ Mongo.UpdateOne f u l = l1 ++ u a :: l2
    /\ f a = true.
Proof.
  induction l as [| x l IH]; cbn; [discriminate |].
  destruct (f x) eqn:E.
  - intros [= <-]. now exists [], l.
  - intros H. destruct (IH H) as (l1 & l2 & -> & -> & Ha).
    now exists (x :: l1), l2.
Qed.

Lemma UpdateOne_Forall (P : A -> Prop) f u l :
  Forall P l -> (forall a, In a l -> f a = true -> P (u a)) ->
  Forall P (Mongo.UpdateOne f u l).
Proof.
  induction 1 as [| x l Hx Hl IH]; cbn; intros H; [constructor |].
  destruct (f x) eqn:E.
  - constructor; trivial. apply H; [now left | trivial].
  - constructor; trivial. apply IH. intros a Ha. apply H. now right.
Qed.

Lemma UpdateOne_map {B : Type} (g : A -> B) f u l :
  (forall a, g (u a) = g a) ->
  map g (Mongo.UpdateOne f u l) = map g l.
Proof.
  intros H. induction l as [| x l IH]; cbn; trivial.
  destruct (f x); cbn; [now rewrite H | now rewrite IH].
Qed.

Lemma UpdateOne_filter_le (p : A -> bool) f u l :
  (forall a, p (u a) = true -> p a = true) ->
  (List.length (List.filter p (Mongo.UpdateOne f u l))
   <= List.length (List.filter p l))%nat.
Proof.
  intros H. induction l as [| x l IH]; cbn; [lia |].
  destruct (f x); cbn.
  - destruct (p (u x)) eqn:E.
    + rewrite (H _ E). cbn. lia.
    + destruct (p x); cbn; lia.
  - destruct (p x); cbn; lia.
Qed.

End StorageFacts.

(** With distinct identifiers, the attempt found by identifier and owner is
    the one an update by identifier touches. *)
Lemma find_by_id_owner (p : QuizAttempt -> bool) (i : ObjectID)
  (l : list QuizAttempt) (a : QuizAttempt) :
  NoDup (map att_ID l) ->
  find (fun x => N.eqb (att_ID x) i && p x) l = Some a ->
  find (fun x => N.eqb (att_ID x) i) l = Some a.
Proof.
  induction l as [| x l IH]; cbn; [discriminate |].
  intros ND H. inversion ND as [| ? ? Hni ND']; subst.
  destruct (N.eqb (att_ID x) i) eqn:E; cbn in H.
  - destruct (p x); [exact H |].
    exfalso. apply Hni.
    destruct (find_some _ _ H) as [Hin Hc].
    apply andb_true_iff in Hc. destruct Hc as [Hc _].
    apply N.eqb_eq in E, Hc. rewrite E, <- Hc. now apply in_map.
  - now apply IH.
Qed.

Lemma InsertOne_some (a : QuizAttempt) (l l' : list QuizAttempt) :
  Mongo.InsertOne a l = Some l' ->
  l' = l ++ [a] /\ ~ In (att_ID a) (map att_ID l).
Proof.
  unfold Mongo.InsertOne.
  destruct (existsb _ l) eqn:E; [discriminate |]. intros [= <-].
  split; trivial. intros Hin. apply in_map_iff in Hin.
  destruct Hin as (x & Hx & Hin).
  assert (C : existsb (fun x => N.eqb (att_ID x) (att_ID a)) l = true).
  { apply existsb_exists. exists x. split; trivial. now apply N.eqb_eq. }
  congruence.
Qed.

(* ================================================================= *)
(** ** What a call of a handler does to the collection *)

Local Ltac unchanged :=
  left; split; [do 2 eexists; reflexivity | reflexivity].

Local Ltac split_handler H :=
  repeat match type of H with
         | context [match ?x with _ => _ end] => destruct x eqn:?
         end.

(** [StartAttempt] either leaves the collection alone or appends one new
    in-progress attempt, and it appends only after finding the quiz approved,
    the course completed and no in-progress attempt of the student for the
    quiz. *)
Lemma StartAttempt_cases quizzes courseService req studentID newID now
  attempts :
  let out :=
    StartAttempt quizzes courseService req studentID newID now attempts in
  ((exists s m, fst out = Error s m) /\ snd out = attempts)
  \/ exists quizID quiz,
       ObjectIDFromHex (start_QuizID req) = Some quizID
       /\ Mongo.FindOne (fun q => N.eqb (quiz_ID q) quizID) quizzes = Some quiz
       /\ quiz_Status quiz = StatusApproved
       /\ courseService studentID (quiz_CourseID quiz) = CourseAnswer true
       /\ Mongo.FindOne (ongoing_attempt quizID studentID) attempts = None
       /\ ~ In newID (map att_ID attempts)
       /\ let attempt :=
            mkQuizAttempt newID quizID studentID [] 0
              (maxScore_of (quiz_Questions quiz)) now None 0 in
          out = (JSON StatusCreated (attempt, redact quiz),
                 attempts ++ [attempt]).
Proof.
  intros out. subst out. unfold StartAttempt.
  destruct (String.eqb (start_QuizID req) ""); [unchanged |].
  destruct (ObjectIDFromHex (start_QuizID req)) as [quizID |]; [| unchanged].
  destruct (Mongo.FindOne _ quizzes) as [quiz |] eqn:Hq; [| unchanged].
  destruct (String.eqb (quiz_Status quiz) StatusApproved) eqn:Hs;
    cbn [negb]; [| unchanged].
  destruct (courseService studentID (quiz_CourseID quiz)) as [[|] |] eqn:Hc;
    [| unchanged | unchanged].
  destruct (Mongo.FindOne (ongoing_attempt quizID studentID) attempts) eqn:Ho;
    [unchanged |].
  destruct (Mongo.InsertOne _ attempts) as [attempts' |] eqn:Hi;
    [| unchanged].
  right. exists quizID, quiz.
  apply InsertOne_some in Hi. destruct Hi as [-> Hni].
  apply String.eqb_eq in Hs. repeat split; trivial.
Qed.

(** A successful [SubmitAnswer], read backwards. *)
Lemma SubmitAnswer_success quizzes req studentID now attempts s r attempts' :
  SubmitAnswer quizzes req studentID now attempts = (JSON s r, attempts') ->
  exists attemptID questionID attempt quiz question,
    ObjectIDFromHex (sub_AttemptID req) = Some attemptID
    /\ ObjectIDFromHex (sub_QuestionID req) = Some questionID
    /\ Mongo.FindOne
         (fun a => N.eqb (att_ID a) attemptID
                   && N.eqb (att_StudentID a) studentID) attempts
       = Some attempt
    /\ att_CompletedAt attempt = None
    /\ Mongo.FindOne (fun q => N.eqb (quiz_ID q) (att_QuizID attempt)) quizzes
       = Some quiz
    /\ find (fun q => N.eqb (q_ID q) questionID) (quiz_Questions quiz)
       = Some question
    /\ existsb (fun ans => N.eqb (ans_QuestionID ans) questionID)
         (att_Answers attempt) = false
    /\ (sub_TimeToAnswer req <= q_TimeLimit question)%Z
    /\ sub_Answer req <> ""
    /\ s = StatusOK
    /\ let isCorrect :=
         String.eqb (sub_Answer req)
           (correctAnswerStr (q_CorrectAnswer question)) in
       let pointsEarned :=
         CalculateScore (q_Points question) (sub_TimeToAnswer req) isCorrect in
       r = mkSubmitAnswerResponse isCorrect pointsEarned
             "Answer submitted successfully"
       /\ attempts'
          = Mongo.UpdateOne (fun a => N.eqb (att_ID a) attemptID)
              (push_answer
                 (mkAnswer questionID (GoString (sub_Answer req)) isCorrect
                    (sub_TimeToAnswer req) pointsEarned now))
              attempts.
Proof.
  unfold SubmitAnswer. intros H.
  destruct (submit_missing_fields req) eqn:Hm; [| discriminate].
  destruct (ObjectIDFromHex (sub_AttemptID req)) as [attemptID |];
    [| discriminate].
  destruct (ObjectIDFromHex (sub_QuestionID req)) as [questionID |];
    [| discriminate].
  destruct (Mongo.FindOne _ attempts) as [attempt |] eqn:Ha; [| discriminate].
  destruct (att_CompletedAt attempt) eqn:Hc; [discriminate |].
  destruct (Mongo.FindOne _ quizzes) as [quiz |] eqn:Hq; [| discriminate].
  destruct (find _ (quiz_Questions quiz)) as [question |] eqn:Hn;
    [| discriminate].
  destruct (existsb _ (att_Answers attempt)) eqn:He; [discriminate |].
  destruct (q_TimeLimit question <? sub_TimeToAnswer req)%Z eqn:Ht;
    [discriminate |].
  injection H as <- <- <-.
  exists attemptID, questionID, attempt, quiz, question.
  apply Z.ltb_ge in Ht.
  assert (Hne : sub_Answer req <> "").
  { intros E. unfold submit_missing_fields in Hm. rewrite E in Hm.
    cbn in Hm.
    destruct (String.eqb (sub_AttemptID req) "");
      destruct (String.eqb (sub_QuestionID req) ""); discriminate. }
  repeat split; trivial.
Qed.

(** A failing [SubmitAnswer] writes nothing. *)
Lemma SubmitAnswer_error quizzes req studentID now attempts s m attempts' :
  SubmitAnswer quizzes req studentID now attempts = (Error s m, attempts') ->
  attempts' = attempts.
Proof.
  unfold SubmitAnswer. intros H. split_handler H;
    solve [ injection H as _ _ <-; reflexivity | discriminate H ].
Qed.

(** [CompleteAttempt] either fails and writes nothing, or stamps the found
    in-progress attempt. *)
Lemma CompleteAttempt_cases id studentID now attempts :
  let out := CompleteAttempt id studentID now attempts in
  ((exists s m, fst out = Error s m) /\ snd out = attempts)
  \/ exists objectID attempt,
       ObjectIDFromHex id = Some objectID
       /\ Mongo.FindOne
            (fun a => N.eqb (att_ID a) objectID
                      && N.eqb (att_StudentID a) studentID) attempts
          = Some attempt
       /\ att_CompletedAt attempt = None
       /\ snd out
          = Mongo.UpdateOne (fun a => N.eqb (att_ID a) objectID)
              (set_completed now
                 (GoMath.int_of_float64
                    (GoTime.Seconds
                       (GoTime.Sub now (att_StartedAt attempt)))))
              attempts.
Proof.
  intros out. subst out. unfold CompleteAttempt.
  destruct (ObjectIDFromHex id) as [objectID |]; [| unchanged].
  destruct (Mongo.FindOne _ attempts) as [attempt |] eqn:Ha; [| unchanged].
  destruct (att_CompletedAt attempt) eqn:Hc; [unchanged |].
  right. exists objectID, attempt. repeat split; trivial.
  destruct (Mongo.FindOne _ (Mongo.UpdateOne _ _ attempts)); reflexivity.
Qed.

(* ================================================================= *)
(** ** Sums *)

Lemma Qsum_app_one (l : list Q) (x : Q) : Qsum (l ++ [x]) = Qsum l + x.
Proof. unfold Qsum. now rewrite fold_left_app. Qed.

Lemma fold_left_Qplus_shift (l : list Q) (a : Q) :
  fold_left Qplus l a == a + Qsum l.
Proof.
  unfold Qsum. revert a.
  induction l as [| x l IH]; intros a; cbn.
  - ring.
  - rewrite (IH (a + x)), (IH (0 + x)). ring.
Qed.

Lemma Qsum_cons (x : Q) (l : list Q) : Qsum (x :: l) == x + Qsum l.
Proof.
  unfold Qsum at 1. cbn. rewrite fold_left_Qplus_shift. ring.
Qed.

Lemma Qsum_filter_split {A : Type} (g : A -> Q) (p : A -> bool) (l : list A) :
  Qsum (map g l)
  == Qsum (map g (List.filter p l))
     + Qsum (map g (List.filter (fun x => negb (p x)) l)).
Proof.
  induction l as [| x l IH]; cbn [map List.filter].
  - reflexivity.
  - rewrite Qsum_cons, IH.
    destruct (p x); cbn [negb map]; rewrite Qsum_cons; ring.
Qed.

Lemma F64_sum_app_one (l : list Q) (x : Q) :
  F64.sum (l ++ [x]) = F64.add (F64.sum l) x.
Proof. unfold F64.sum. now rewrite fold_left_app. Qed.

Lemma Zsum_nonneg (l : list Z) :
  Forall (fun b => (0 <= b)%Z) l -> (0 <= Zsum l)%Z.
Proof.
  induction 1 as [| b l Hb _ IH]; unfold Zsum in *; cbn [fold_right]; lia.
Qed.

Lemma Zsum_filter_split {A : Type} (g : A -> Z) (p : A -> bool) (l : list A) :
  Zsum (map g l)
  = (Zsum (map g (List.filter p l))
     + Zsum (map g (List.filter (fun x => negb (p x)) l)))%Z.
Proof.
  unfold Zsum.
  induction l as [| x l IH]; cbn [map List.filter]; [reflexivity |].
  destruct (p x); cbn [negb map fold_right] in *; lia.
Qed.

(** A binary64 sum of numbers between 0 and integer bounds stays between 0
    and the sum of the bounds, as long as that is at most [2^53]. *)
Lemma F64_fold_bounds (l : list Q) (bs : list Z) (acc : Q) (A : Z) :
  Forall2 (fun x b => 0 <= x /\ x <= inject_Z b) l bs ->
  0 <= acc -> acc <= inject_Z A -> (A + Zsum bs <= 2 ^ 53)%Z ->
  0 <= fold_left F64.add l acc
  /\ fold_left F64.add l acc <= inject_Z (A + Zsum bs).
Proof.
  intros F. revert acc A.
  induction F as [| x b l bs [X0 X1] F IH]; intros acc A A0 A1 B.
  - cbn. rewrite Z.add_0_r. now split.
  - cbn [fold_left].
    change (Zsum (b :: bs)) with (b + Zsum bs)%Z in *.
    assert (Hb : (0 <= b)%Z).
    { rewrite Zle_Qle. change (inject_Z 0) with 0. lra. }
    assert (Hbs : (0 <= Zsum bs)%Z).
    { apply Zsum_nonneg. clear -F.
      induction F as [| x b l bs [X0 X1] F IH]; constructor; trivial.
      rewrite Zle_Qle. change (inject_Z 0) with 0. lra. }
    assert (HA : (0 <= A)%Z).
    { rewrite Zle_Qle. change (inject_Z 0) with 0. lra. }
    replace (A + (b + Zsum bs))%Z with (A + b + Zsum bs)%Z by lia.
    apply IH; [| | lia].
    + apply rnd_nonneg. lra.
    + unfold F64.add.
      apply Qle_trans with (F64.rnd (inject_Z (A + b))).
      * apply rnd_mono. rewrite inject_Z_plus. lra.
      * rewrite rnd_Z by lia. apply Qle_refl.
Qed.

Lemma F64_sum_bounds (l : list Q) (bs : list Z) :
  Forall2 (fun x b => 0 <= x /\ x <= inject_Z b) l bs ->
  (Zsum bs <= 2 ^ 53)%Z ->
  0 <= F64.sum l /\ F64.sum l <= inject_Z (Zsum bs).
Proof.
  intros F B.
  apply (@F64_fold_bounds l bs 0 0%Z F); trivial; apply Qle_refl.
Qed.

(** A binary64 sum of non-negative integers is exact as long as it is at
    most [2^53]. *)
Lemma maxScore_fold_exact (qs : list Question) (acc : Q) (A : Z) :
  (forall q, In q qs -> (0 <= q_Points q)%Z) ->
  (0 <= A)%Z -> acc == inject_Z A -> (A + total_points qs <= 2 ^ 53)%Z ->
  fold_left (fun maxScore q => F64.add maxScore (F64.of_int (q_Points q)))
    qs acc
  == inject_Z (A + total_points qs).
Proof.
  unfold total_points. revert acc A.
  induction qs as [| q qs IH]; intros acc A Hpos A0 E B.
  - cbn. now rewrite Z.add_0_r.
  - cbn [fold_left map] in *.
    change (Zsum (q_Points q :: map q_Points qs))
      with (q_Points q + Zsum (map q_Points qs))%Z in *.
    assert (Hq : (0 <= q_Points q)%Z) by (apply Hpos; now left).
    assert (Hqs : (0 <= Zsum (map q_Points qs))%Z).
    { apply Zsum_nonneg, Forall_forall. intros b Hb.
      apply in_map_iff in Hb. destruct Hb as (q' & <- & Hq').
      apply Hpos. now right. }
    replace (A + (q_Points q + Zsum (map q_Points qs)))%Z
      with (A + q_Points q + Zsum (map q_Points qs))%Z by lia.
    apply IH; [intros q' Hq'; apply Hpos; now right | lia | | lia].
    unfold F64.add.
    rewrite (@rnd_comp _ (inject_Z (A + q_Points q))).
    + apply rnd_Z. lia.
    + rewrite E, inject_Z_plus, of_int_exact by lia. reflexivity.
Qed.

Lemma maxScore_of_exact (qs : list Question) :
  (forall q, In q qs -> (0 <= q_Points q)%Z) ->
  (total_points qs <= 2 ^ 53)%Z ->
  maxScore_of qs == inject_Z (total_points qs).
Proof.
  intros Hpos B. unfold maxScore_of.
  now rewrite (@maxScore_fold_exact qs 0 0%Z Hpos).
Qed.

(* ================================================================= *)
(** ** Lists with distinct keys *)

Lemma NoDup_map_eq {A B : Type} (g : A -> B) (l : list A) (a b : A) :
  NoDup (map g l) -> In a l -> In b l -> g a = g b -> a = b.
Proof.
  induction l as [| x l IH]; cbn; [contradiction |].
  intros ND Ha Hb E. inversion ND as [| ? ? Hni ND']; subst.
  destruct Ha as [<- | Ha], Hb as [<- | Hb]; trivial.
  - exfalso. apply Hni. rewrite E. now apply in_map.
  - exfalso. apply Hni. rewrite <- E. now apply in_map.
  - now apply IH.
Qed.

Lemma NoDup_map_filter {A B : Type} (g : A -> B) (p : A -> bool) (l : list A) :
  NoDup (map g l) -> NoDup (map g (List.filter p l)).
Proof.
  induction l as [| x l IH]; cbn; trivial.
  intros ND. inversion ND as [| ? ? Hni ND']; subst.
  destruct (p x); cbn; [| now apply IH].
  constructor; [| now apply IH].
  intros Hin. apply Hni. apply in_map_iff in Hin.
  destruct Hin as (y & Hy & Hin). apply filter_In in Hin.
  rewrite <- Hy. apply in_map. tauto.
Qed.

Lemma NoDup_map_same_key {A B : Type} (g : A -> B) (k : B) (l : list A) :
  NoDup (map g l) -> (forall x, In x l -> g x = k) ->
  l = [] \/ exists x, l = [x].
Proof.
  destruct l as [| x [| y l]]; [now left | right; now exists x |].
  intros ND H. exfalso.
  inversion ND as [| ? ? Hni _]; subst. apply Hni. cbn.
  left. rewrite (H x), (H y); cbn; tauto.
Qed.

Lemma NoDup_snoc {A : Type} (l : list A) (x : A) :
  NoDup l -> ~ In x l -> NoDup (l ++ [x]).
Proof.
  intros ND Hni.
  apply Permutation_NoDup with (l := x :: l).
  - apply Permutation_cons_append.
  - now constructor.
Qed.

Lemma find_none_filter {A : Type} (f : A -> bool) (l : list A) :
  find f l = None -> List.filter f l = [].
Proof.
  induction l as [| x l IH]; cbn; trivial.
  destruct (f x); [discriminate | exact IH].
Qed.

(* ================================================================= *)
(** ** Answered points never exceed the base points of the quiz *)

(** Answers for distinct questions of a quiz: their base points sum up to at
    most those of the quiz. *)
Lemma answered_points_le (qs : list Question) :
  (forall q, In q qs -> (0 <= q_Points q)%Z) ->
  forall answers : list Answer,
    NoDup (map ans_QuestionID answers) ->
    (Zsum (map (answer_points qs) answers) <= total_points qs)%Z.
Proof.
  unfold total_points.
  induction qs as [| q qs IH]; intros Hpos answers ND.
  - assert (Z0 : forall l : list Answer, Zsum (map (answer_points []) l) = 0%Z).
    { induction l as [| a l IHl]; [reflexivity |]. cbn [map].
      change (Zsum (answer_points [] a :: map (answer_points []) l))
        with (0 + Zsum (map (answer_points []) l))%Z. now rewrite IHl. }
    rewrite Z0. reflexivity.
  - set (here := fun a : Answer => N.eqb (q_ID q) (ans_QuestionID a)).
    rewrite (Zsum_filter_split (answer_points (q :: qs)) here answers).
    cbn [map].
    change (Zsum (q_Points q :: map q_Points qs))
      with (q_Points q + Zsum (map q_Points qs))%Z.
    assert (Hq : (0 <= q_Points q)%Z) by (apply Hpos; now left).
    assert (H1 : (Zsum (map (answer_points (q :: qs))
                          (List.filter here answers)) <= q_Points q)%Z).
    { destruct (@NoDup_map_same_key _ _ ans_QuestionID (q_ID q)
                  (List.filter here answers)) as [-> | (a & Ea)].
      - now apply NoDup_map_filter.
      - intros x Hx. apply filter_In in Hx. destruct Hx as [_ Hx].
        unfold here in Hx. apply N.eqb_eq in Hx. now symmetry.
      - cbn. exact Hq.
      - assert (Hin : In a (List.filter here answers))
          by (rewrite Ea; now left).
        apply filter_In in Hin. destruct Hin as [_ Hh].
        rewrite Ea. unfold Zsum. cbn [map fold_right].
        unfold answer_points. cbn [find]. unfold here in Hh. rewrite Hh. lia. }
    assert (H2 : (Zsum (map (answer_points (q :: qs))
                          (List.filter (fun x => negb (here x)) answers))
                  <= Zsum (map q_Points qs))%Z).
    { assert (E : map (answer_points (q :: qs))
                    (List.filter (fun x => negb (here x)) answers)
                  = map (answer_points qs)
                      (List.filter (fun x => negb (here x)) answers)).
      { apply map_ext_in. intros a Hin. apply filter_In in Hin.
        destruct Hin as [_ Hh]. apply negb_true_iff in Hh.
        unfold answer_points. cbn [find]. unfold here in Hh. now rewrite Hh. }
      rewrite E. apply IH.
      - intros q' Hq'. apply Hpos. now right.
      - now apply NoDup_map_filter. }
    lia.
Qed.

(** The recorded answers of an attempt, with the base points of their
    questions. *)
Lemma answers_within_points (qs : list Question) (answers : list Answer) :
  (forall q, In q qs -> (0 <= q_Points q)%Z) ->
  (total_points qs <= points_limit)%Z ->
  Forall
    (fun ans =>
       exists (q : Question) (b : bool),
         find (fun q => N.eqb (q_ID q) (ans_QuestionID ans)) qs = Some q
         /\ ans_PointsEarned ans
            = CalculateScore (q_Points q) (ans_TimeToAnswer ans) b)
    answers ->
  Forall2 (fun x b => 0 <= x /\ x <= inject_Z b)
    (map ans_PointsEarned answers) (map (answer_points qs) answers).
Proof.
  intros Hpos B HF.
  assert (Each : forall q, In q qs -> (0 <= q_Points q <= points_limit)%Z).
  { intros q Hq. split; [now apply Hpos |].
    clear -Hpos B Hq. unfold total_points in B.
    induction qs as [| q' qs IH]; [contradiction |].
    cbn [map] in B.
    change (Zsum (q_Points q' :: map q_Points qs))
      with (q_Points q' + Zsum (map q_Points qs))%Z in B.
    assert (Hq' : (0 <= q_Points q')%Z) by (apply Hpos; now left).
    assert (Hqs : (0 <= Zsum (map q_Points qs))%Z).
    { apply Zsum_nonneg, Forall_forall. intros b Hb.
      apply in_map_iff in Hb. destruct Hb as (q0 & <- & Hq0).
      apply Hpos. now right. }
    destruct Hq as [<- | Hq]; [lia |].
    apply IH; trivial; [intros q0 Hq0; apply Hpos; now right | lia]. }
  induction HF as [| a answers (q & b & Hfind & E) _ IH]; cbn [map];
    constructor; trivial.
  unfold answer_points. rewrite Hfind, E.
  apply CalculateScore_bounds, Each. now destruct (find_some _ _ Hfind).
Qed.

Lemma answered_le_max (qs : list Question) :
  (forall q, In q qs -> (0 <= q_Points q)%Z) ->
  (total_points qs <= points_limit)%Z ->
  forall answers : list Answer,
    NoDup (map ans_QuestionID answers) ->
    Forall
      (fun ans =>
         exists (q : Question) (b : bool),
           find (fun q => N.eqb (q_ID q) (ans_QuestionID ans)) qs = Some q
           /\ ans_PointsEarned ans
              = CalculateScore (q_Points q) (ans_TimeToAnswer ans) b)
      answers ->
    0 <= F64.sum (map ans_PointsEarned answers)
    /\ F64.sum (map ans_PointsEarned answers) <= maxScore_of qs.
Proof.
  intros Hpos B answers ND HF.
  pose proof (@answered_points_le qs Hpos answers ND) as A.
  pose proof points_limit_small as S.
  destruct (@F64_sum_bounds (map ans_PointsEarned answers)
              (map (answer_points qs) answers)) as [L U].
  - now apply answers_within_points.
  - lia.
  - split; [exact L |].
    rewrite maxScore_of_exact by (trivial; lia).
    apply Qle_trans with (1 := U). now rewrite <- Zle_Qle.
Qed.

(* ================================================================= *)
(** ** The invariants hold in every reachable collection *)

Local Ltac fields :=
  cbn [push_answer set_completed att_ID att_QuizID att_StudentID att_Answers
       att_TotalScore att_MaxScore att_StartedAt att_CompletedAt att_TimeTaken
       ans_QuestionID ans_PointsEarned ans_TimeToAnswer ans_IsCorrect].

Lemma attempt_ok_fields quizzes (a b : QuizAttempt) :
  att_QuizID b = att_QuizID a -> att_Answers b = att_Answers a ->
  att_TotalScore b = att_TotalScore a -> att_MaxScore b = att_MaxScore a ->
  attempt_ok quizzes a -> attempt_ok quizzes b.
Proof.
  unfold attempt_ok. intros -> -> -> ->. trivial.
Qed.

Lemma ongoing_count_snoc quizID studentID attempts a :
  ongoing_count quizID studentID (attempts ++ [a])
  = (ongoing_count quizID studentID attempts
     + if ongoing_attempt quizID studentID a then 1 else 0)%nat.
Proof.
  unfold ongoing_count. rewrite filter_app, length_app. cbn.
  now destruct (ongoing_attempt quizID studentID a).
Qed.

Lemma ongoing_attempt_ids quizID studentID a :
  ongoing_attempt quizID studentID a = true ->
  att_QuizID a = quizID /\ att_StudentID a = studentID
  /\ att_CompletedAt a = None.
Proof.
  unfold ongoing_attempt. intros H.
  apply andb_true_iff in H. destruct H as [H H3].
  apply andb_true_iff in H. destruct H as [H1 H2].
  apply N.eqb_eq in H1, H2. destruct (att_CompletedAt a); [discriminate |].
  now repeat split.
Qed.

Lemma store_ok_StartAttempt quizzes courseService req studentID newID now
  attempts :
  store_ok quizzes attempts ->
  store_ok quizzes
    (snd (StartAttempt quizzes courseService req studentID newID now attempts)).
Proof.
  intros (ND & OK & ONE).
  destruct (StartAttempt_cases quizzes courseService req studentID newID now
              attempts)
    as [[_ ->] | (quizID & quiz & _ & Hq & Hs & _ & Ho & Hni & ->)];
    [now repeat split |].
  cbn [snd]. repeat split.
  - rewrite map_app. now apply NoDup_snoc.
  - apply Forall_app. split; trivial. constructor; [| constructor].
    split; [reflexivity |]. exists quiz. cbn.
    repeat split; trivial; constructor.
  - intros q s. rewrite ongoing_count_snoc.
    destruct (ongoing_attempt q s _) eqn:E; [| specialize (ONE q s); lia].
    apply ongoing_attempt_ids in E. cbn in E. destruct E as (<- & <- & _).
    unfold ongoing_count. now rewrite (find_none_filter _ _ Ho).
Qed.

Lemma store_ok_SubmitAnswer quizzes req studentID now attempts :
  store_ok quizzes attempts ->
  store_ok quizzes (snd (SubmitAnswer quizzes req studentID now attempts)).
Proof.
  intros (ND & OK & ONE).
  destruct (SubmitAnswer quizzes req studentID now attempts)
    as [[s r | s m] attempts'] eqn:E; cbn [snd].
  2: { apply SubmitAnswer_error in E. subst. now repeat split. }
  apply SubmitAnswer_success in E.
  destruct E as (attemptID & questionID & attempt & quiz & question
                 & _ & _ & Ha & _ & Hq & Hn & He & _ & _ & _ & _ & ->).
  repeat split.
  - now rewrite UpdateOne_map.
  - apply UpdateOne_Forall; trivial.
    intros a Hin Hid.
    assert (a = attempt) as ->.
    { apply find_by_id_owner in Ha; trivial.
      destruct (find_some _ _ Ha) as [Hin' Hid'].
      apply N.eqb_eq in Hid, Hid'.
      apply (NoDup_map_eq att_ID attempts); trivial. congruence. }
    rewrite Forall_forall in OK.
    destruct (OK attempt Hin) as (Ht & quiz' & Hq' & Hs & Hm & NDa & HF).
    assert (quiz' = quiz) as -> by congruence.
    split; [| exists quiz; repeat split; trivial]; fields.
    + rewrite map_app. cbn [map]. fields. now rewrite F64_sum_app_one, Ht.
    + rewrite map_app. cbn [map]. fields. apply NoDup_snoc; trivial.
      intros C. apply in_map_iff in C. destruct C as (x & Hx & Hin').
      assert (T : existsb (fun ans => N.eqb (ans_QuestionID ans) questionID)
                    (att_Answers attempt) = true).
      { apply existsb_exists. exists x. split; trivial. now apply N.eqb_eq. }
      congruence.
    + apply Forall_app. split; trivial. constructor; [| constructor].
      cbn. eauto.
  - intros q st. specialize (ONE q st). unfold ongoing_count in *.
    eapply Nat.le_trans; [| exact ONE].
    apply UpdateOne_filter_le. intros a. now cbn.
Qed.

Lemma store_ok_CompleteAttempt quizzes id studentID now attempts :
  store_ok quizzes attempts ->
  store_ok quizzes (snd (CompleteAttempt id studentID now attempts)).
Proof.
  intros (ND & OK & ONE).
  destruct (CompleteAttempt_cases id studentID now attempts)
    as [[_ ->] | (objectID & attempt & _ & _ & _ & ->)];
    [now repeat split |].
  repeat split.
  - now rewrite UpdateOne_map.
  - apply UpdateOne_Forall; trivial.
    intros a Hin _. rewrite Forall_forall in OK.
    now apply (@attempt_ok_fields quizzes a); [.. | apply OK].
  - intros q s. specialize (ONE q s). unfold ongoing_count in *.
    eapply Nat.le_trans; [| exact ONE].
    apply UpdateOne_filter_le. intros a. unfold ongoing_attempt. fields.
    rewrite andb_false_r. discriminate.
Qed.

Lemma store_ok_run quizzes c attempts :
  store_ok quizzes attempts -> store_ok quizzes (run quizzes c attempts).
Proof.
  destruct c; cbn [run].
  - apply store_ok_StartAttempt.
  - apply store_ok_SubmitAnswer.
  - apply store_ok_CompleteAttempt.
Qed.

Lemma reachable_store_ok quizzes attempts :
  reachable quizzes attempts -> store_ok quizzes attempts.
Proof.
  induction 1 as [| c attempts _ IH].
  - repeat split; [constructor | constructor | intros; cbn; lia].
  - now apply store_ok_run.
Qed.

(** The scenario checks the hypothesis on base points. *)
Lemma Scenario_points_nonneg : points_nonneg Scenario.quizzes.
Proof.
  intros quiz q [<- | []] [<- | [<- | [<- | []]]]; discriminate.
Qed.

Lemma Scenario_points_bounded : points_bounded Scenario.quizzes.
Proof. intros quiz [<- | []]. discriminate. Qed.

Lemma Scenario_alice_run_reachable :
  reachable Scenario.quizzes Scenario.alice_run.
Proof.
  unfold Scenario.alice_run, Scenario.answered, Scenario.started.
  repeat constructor.
Qed.

Lemma Scenario_tie_run_reachable :
  reachable Scenario.quizzes Scenario.tie_run.
Proof.
  unfold Scenario.tie_run. cbn [fold_left]. repeat constructor.
Qed.

(* ================================================================= *)
(** ** C6: the total score and the maximum score *)

(** C6 as stated fails.  Nothing keeps base points positive: with one
    question of -10 points answered correctly after 12 seconds, the total
    score is -5 and the maximum score -10.  And binary64 sums depend on the
    order: with questions of [2^53], 1 and 1 points answered correctly within
    5 seconds, the first one last, the total score is [2^53 + 2] and the
    maximum score [2^53].  The first quiz is one that [CreateQuiz] accepts:
    the calls of [SystemScenario.debt_calls] end in the same attempt. *)
Lemma total_score_counterexample :
  (exists a,
     In a (run_all Scenario.debt_quizzes Scenario.debt_calls [])
     /\ reachable Scenario.debt_quizzes
          (run_all Scenario.debt_quizzes Scenario.debt_calls [])
     /\ att_TotalScore a == - (5) /\ att_MaxScore a == - (10)
     /\ ~ att_TotalScore a <= att_MaxScore a)
  /\ (exists a,
        In a (run_all Scenario.huge_quizzes Scenario.huge_calls [])
        /\ reachable Scenario.huge_quizzes
             (run_all Scenario.huge_quizzes Scenario.huge_calls [])
        /\ points_nonneg Scenario.huge_quizzes
        /\ att_TotalScore a == inject_Z (2 ^ 53 + 2)
        /\ att_MaxScore a == inject_Z (2 ^ 53)
        /\ ~ att_TotalScore a <= att_MaxScore a)
  /\ snd SystemScenario.debt_final
     = run_all Scenario.debt_quizzes Scenario.debt_calls [].
Proof.
  split; [| split; [| vm_compute; reflexivity]].
  - exists (nth 0 (run_all Scenario.debt_quizzes Scenario.debt_calls [])
              Scenario.no_attempt).
    split; [left; reflexivity |].
    split; [unfold run_all, Scenario.debt_calls; cbn [fold_left];
            repeat constructor |].
    split; [vm_compute; reflexivity |].
    split; [vm_compute; reflexivity |].
    intros C. vm_compute in C. apply C. reflexivity.
  - exists (nth 0 (run_all Scenario.huge_quizzes Scenario.huge_calls [])
              Scenario.no_attempt).
    split; [left; reflexivity |].
    split; [unfold run_all, Scenario.huge_calls; cbn [fold_left];
            repeat constructor |].
    split.
    { intros quiz q [<- | []] [<- | [<- | [<- | []]]]; discriminate. }
    split; [vm_compute; reflexivity |].
    split; [vm_compute; reflexivity |].
    intros C. vm_compute in C. apply C. reflexivity.
Qed.

(** C6, amended.  Let no question have negative base points and let the base
    points of every quiz sum up to at most [points_limit] (10^12).  Then in
    every collection reachable by calls of [StartAttempt], [SubmitAnswer] and
    [CompleteAttempt], every attempt has a maximum score equal to the sum of
    the base points of its quiz and a total score between 0 and the maximum
    score. *)
Theorem total_score_le_max_score (quizzes : list Quiz)
  (attempts : list QuizAttempt) (a : QuizAttempt) :
  points_nonneg quizzes ->
  points_bounded quizzes ->
  reachable quizzes attempts ->
  In a attempts ->
  (exists quiz,
     Mongo.FindOne (fun q => N.eqb (quiz_ID q) (att_QuizID a)) quizzes
     = Some quiz
     /\ att_MaxScore a = maxScore_of (quiz_Questions quiz)
     /\ att_MaxScore a == inject_Z (total_points (quiz_Questions quiz)))
  /\ 0 <= att_TotalScore a
  /\ att_TotalScore a <= att_MaxScore a.
Proof.
  intros Hpos Hbound R Hin.
  destruct (reachable_store_ok R) as (_ & OK & _).
  rewrite Forall_forall in OK.
  destruct (OK a Hin) as (Ht & quiz & Hq & _ & Hm & ND & HF).
  destruct (find_some _ _ Hq) as [Hquiz _].
  assert (P : forall q, In q (quiz_Questions quiz) -> (0 <= q_Points q)%Z)
    by (intros q Hq'; now apply (Hpos quiz)).
  pose proof (Hbound quiz Hquiz) as B.
  split.
  - exists quiz. split; [exact Hq | split; [exact Hm |]].
    rewrite Hm. apply maxScore_of_exact; trivial.
    pose proof points_limit_small. lia.
  - rewrite Ht, Hm. now apply answered_le_max.
Qed.

Lemma total_score_le_max_score_witness :
  In Scenario.alice_attempt Scenario.alice_run
  /\ 0 <= att_TotalScore Scenario.alice_attempt
  /\ att_TotalScore Scenario.alice_attempt
     <= att_MaxScore Scenario.alice_attempt.
Proof.
  assert (Hin : In Scenario.alice_attempt Scenario.alice_run)
    by (left; reflexivity).
  split; [exact Hin |].
  apply (@total_score_le_max_score Scenario.quizzes Scenario.alice_run
           Scenario.alice_attempt
           Scenario_points_nonneg Scenario_points_bounded
           Scenario_alice_run_reachable Hin).
Defined.

(* ================================================================= *)
(** ** C7: one in-progress attempt per student and quiz *)





(* ================================================================= *)
(** ** C8: [SubmitAnswer] writes all or nothing *)

(** C8.  In a reachable collection, a failing [SubmitAnswer] leaves the
    collection as it was.  A successful one required the caller's attempt to
    exist, to be in progress, the question to belong to its quiz, no earlier
    answer for the question and a response time within the limit; it changes
    that one attempt only, appending the answer and adding the points earned
    to the total score, as binary64 numbers. *)
Theorem SubmitAnswer_atomic (quizzes : list Quiz) (req : SubmitAnswerRequest)
  (studentID : ObjectID) (now : Time) (attempts : list QuizAttempt) :
  reachable quizzes attempts ->
  let out := SubmitAnswer quizzes req studentID now attempts in
  match fst out with
  | Error _ _ => snd out = attempts
  | JSON _ r =>
      exists before attempt after quiz question answer,
        attempts = before ++ attempt :: after
        /\ ObjectIDFromHex (sub_AttemptID req) = Some (att_ID attempt)
        /\ att_StudentID attempt = studentID
        /\ att_CompletedAt attempt = None
        /\ Mongo.FindOne (fun q => N.eqb (quiz_ID q) (att_QuizID attempt))
             quizzes = Some quiz
        /\ In question (quiz_Questions quiz)
        /\ ObjectIDFromHex (sub_QuestionID req) = Some (q_ID question)
        /\ ~ In (q_ID question) (map ans_QuestionID (att_Answers attempt))
        /\ (sub_TimeToAnswer req <= q_TimeLimit question)%Z
        /\ ans_QuestionID answer = q_ID question
        /\ ans_IsCorrect answer = is_correct r
        /\ ans_PointsEarned answer = points_earned r
        /\ snd out
           = before
             ++ mkQuizAttempt (att_ID attempt) (att_QuizID attempt)
                  (att_StudentID attempt) (att_Answers attempt ++ [answer])
                  (F64.add (att_TotalScore attempt) (points_earned r))
                  (att_MaxScore attempt) (att_StartedAt attempt)
                  (att_CompletedAt attempt) (att_TimeTaken attempt)
                :: after
  end.
Proof.
  intros R out. subst out.
  pose proof (reachable_store_ok R) as (ND & _ & _).
  destruct (SubmitAnswer quizzes req studentID now attempts)
    as [[s r | s m] attempts'] eqn:E; cbn [fst snd].
  2: { now apply SubmitAnswer_error in E. }
  apply SubmitAnswer_success in E.
  destruct E as (attemptID & questionID & attempt & quiz & question
                 & Hhex & Hqhex & Ha & Hc & Hq & Hn & He & Ht & _ & _
                 & -> & ->).
  pose proof (find_by_id_owner _ _ _ ND Ha) as Hid.
  set (isCorrect := String.eqb (sub_Answer req)
                      (correctAnswerStr (q_CorrectAnswer question))) in *.
  set (answer := mkAnswer questionID (GoString (sub_Answer req)) isCorrect
                   (sub_TimeToAnswer req)
                   (CalculateScore (q_Points question) (sub_TimeToAnswer req)
                      isCorrect) now) in *.
  destruct (UpdateOne_split _ (push_answer answer) _ Hid)
    as (before & after & Hsplit & Hupd & Hida).
  destruct (find_some _ _ Ha) as [_ Hown].
  apply andb_true_iff in Hown. destruct Hown as [_ Hown].
  apply N.eqb_eq in Hida, Hown.
  destruct (find_some _ _ Hn) as [Hqin Hqid]. apply N.eqb_eq in Hqid.
  exists before, attempt, after, quiz, question, answer.
  repeat split; try assumption; try congruence; try reflexivity.
  - intros C. apply in_map_iff in C. destruct C as (x & Hx & Hin).
    assert (T : existsb (fun ans => N.eqb (ans_QuestionID ans) questionID)
                  (att_Answers attempt) = true).
    { apply existsb_exists. exists x. split; trivial.
      apply N.eqb_eq. congruence. }
    congruence.
  - cbn. congruence.
Qed.

Lemma SubmitAnswer_atomic_witness :
  snd (SubmitAnswer Scenario.quizzes
         (mkSubmitAnswerRequest Scenario.attempt1_hex Scenario.question1_hex
            "true" 7)
         Scenario.alice (Scenario.ms 21000) Scenario.alice_run)
  = Scenario.alice_run
  /\ exists r answer,
       Scenario.submit_out
       = (JSON StatusOK r,
          [mkQuizAttempt 1%N 161%N Scenario.alice [answer]
             (F64.add 0 (points_earned r)) 30 (Scenario.ms 0) None 0%Z])
       /\ ans_PointsEarned answer = points_earned r
       /\ ans_IsCorrect answer = is_correct r.
Proof.
  split.
  - exact (@SubmitAnswer_atomic Scenario.quizzes
             (mkSubmitAnswerRequest Scenario.attempt1_hex
                Scenario.question1_hex "true" 7)
             Scenario.alice (Scenario.ms 21000) Scenario.alice_run
             Scenario_alice_run_reachable).
  - assert (R : reachable Scenario.quizzes Scenario.started)
      by (unfold Scenario.started; repeat constructor).
    pose proof (@SubmitAnswer_atomic Scenario.quizzes
                  (mkSubmitAnswerRequest Scenario.attempt1_hex
                     Scenario.question1_hex "true" 7)
                  Scenario.alice (Scenario.ms 9000) Scenario.started R) as H.
    cbv zeta in H. fold Scenario.submit_out in H.
    destruct Scenario.submit_out as [[s r | s m] db] eqn:E;
      [| vm_compute in E; discriminate E].
    cbn [fst snd] in H.
    destruct H as (before & attempt & after & quiz & question & answer
                   & Hs & _ & _ & _ & _ & _ & _ & _ & _ & _ & Hc & Hp & Hdb).
    assert (Es : s = StatusOK).
    { vm_compute in E. injection E as E1 _ _. now rewrite <- E1. }
    destruct before as [| x [| y before]];
      [| discriminate Hs | discriminate Hs].
    injection Hs as <- <-.
    exists r, answer. subst s db. repeat split; assumption.
Defined.

(* ================================================================= *)
(** ** C9: completing an attempt *)

Lemma inject_Z_Second_pos : 0 < inject_Z GoTime.Second.
Proof. reflexivity. Qed.

Lemma of_int_opp (n : Z) : F64.of_int (- n) == - F64.of_int n.
Proof.
  unfold F64.of_int. rewrite (@rnd_comp _ (- inject_Z n)).
  - apply rnd_opp.
  - rewrite inject_Z_opp. reflexivity.
Qed.

(** [Seconds] is an odd function. *)
Lemma Seconds_opp (d : Duration) :
  GoTime.Seconds (- d)%Z == - GoTime.Seconds d.
Proof.
  unfold GoTime.Seconds. cbv zeta.
  rewrite Z.quot_opp_l, Z.rem_opp_l by discriminate.
  unfold F64.add, F64.div.
  set (sec := Z.quot d GoTime.Second). set (nsec := Z.rem d GoTime.Second).
  assert (B : F64.rnd (F64.of_int (- nsec) / inject_Z GoTime.Second)
              == - F64.rnd (F64.of_int nsec / inject_Z GoTime.Second)).
  { rewrite (@rnd_comp _ (- (F64.of_int nsec / inject_Z GoTime.Second))).
    - apply rnd_opp.
    - rewrite of_int_opp. field. discriminate. }
  rewrite (@rnd_comp _
             (- (F64.of_int sec
                 + F64.rnd (F64.of_int nsec / inject_Z GoTime.Second)))).
  - apply rnd_opp.
  - rewrite B, of_int_opp. ring.
Qed.

(** Below [seconds_limit] seconds, [d.Seconds()] lies between the whole
    seconds of [d] and the next whole second. *)
Lemma Seconds_between (d : Duration) :
  (0 <= d < seconds_limit * GoTime.Second)%Z ->
  inject_Z (Z.quot d GoTime.Second) <= GoTime.Seconds d
  /\ GoTime.Seconds d < inject_Z (Z.quot d GoTime.Second) + 1.
Proof.
  intros [D0 D1]. unfold GoTime.Seconds. cbv zeta.
  assert (S0 : (0 <= Z.quot d GoTime.Second)%Z)
    by (apply Z.quot_pos; [exact D0 | reflexivity]).
  assert (S1 : (Z.quot d GoTime.Second < seconds_limit)%Z).
  { apply Z.quot_lt_upper_bound; [exact D0 | reflexivity | lia]. }
  pose proof (Z.rem_bound_pos d GoTime.Second D0 eq_refl) as [N0 N1].
  set (sec := Z.quot d GoTime.Second) in *.
  set (nsec := Z.rem d GoTime.Second) in *.
  unfold seconds_limit in S1. change GoTime.Second with 1000000000%Z in N1.
  assert (Es : F64.of_int sec == inject_Z sec) by (apply of_int_exact; lia).
  assert (En : F64.of_int nsec == inject_Z nsec) by (apply of_int_exact; lia).
  set (f := F64.div (F64.of_int nsec) (inject_Z GoTime.Second)).
  assert (F0 : 0 <= f).
  { apply rnd_nonneg. rewrite En.
    apply Qle_shift_div_l; [reflexivity |]. rewrite Qmult_0_l.
    now apply inject_Z_nonneg. }
  assert (F1 : f <= F64.rnd (999999999 # 1000000000)).
  { apply rnd_mono. rewrite En.
    apply Qle_shift_div_r; [reflexivity |].
    assert (E : (999999999 # 1000000000) * inject_Z GoTime.Second
                == inject_Z 999999999) by reflexivity.
    rewrite E, <- Zle_Qle. lia. }
  assert (F2 : F64.rnd (999999999 # 1000000000) < 1 - (1 # 1073741824))
    by (vm_compute; reflexivity).
  assert (Q0 : 0 <= inject_Z sec) by now apply inject_Z_nonneg.
  assert (Q1 : inject_Z sec <= inject_Z (2 ^ 24 - 1))
    by (rewrite <- Zle_Qle; lia).
  change (inject_Z (2 ^ 24 - 1)) with 16777215 in Q1.
  unfold F64.add. split.
  - apply Qle_trans with (F64.rnd (inject_Z sec)).
    + rewrite rnd_Z by lia. apply Qle_refl.
    + apply rnd_mono. lra.
  - pose proof (@rnd_error (F64.of_int sec + f) (-29)) as E.
    change (F64.pow2 (53 + -29)) with 16777216 in E.
    change (F64.pow2 (-29 - 1)) with (1 # 1073741824) in E.
    assert (E' : Qabs (F64.rnd (F64.of_int sec + f) - (F64.of_int sec + f))
                 <= 1 # 1073741824).
    { apply E; [discriminate |]. apply Qabs_Qlt_condition. lra. }
    apply Qabs_Qle_condition in E'. lra.
Qed.

(** [GoTime.Seconds] and [Duration.Seconds] on the binary64 numbers of the
    processor agree on the sample durations. *)
Lemma Seconds_binary64 : binary64_seconds_agree = true.
Proof. vm_compute. reflexivity. Qed.

(** Truncating [d.Seconds()] gives the whole seconds of [d], for durations
    below [seconds_limit] seconds either way. *)
Lemma Trunc_Seconds (d : Duration) :
  (Z.abs d < seconds_limit * GoTime.Second)%Z ->
  GoMath.Trunc (GoTime.Seconds d) = Z.quot d GoTime.Second.
Proof.
  intros H. destruct (Z_le_gt_dec 0 d) as [P | N].
  - destruct (@Seconds_between d) as [L U]; [lia |].
    apply Trunc_between; trivial.
    apply Z.quot_pos; [exact P | reflexivity].
  - destruct (@Seconds_between (- d)%Z) as [L U]; [lia |].
    assert (E : GoTime.Seconds d == - GoTime.Seconds (- d)%Z).
    { rewrite Seconds_opp. ring. }
    rewrite (Trunc_comp E), Trunc_opp.
    rewrite (@Trunc_between _ (Z.quot (- d) GoTime.Second)); trivial.
    + rewrite Z.quot_opp_l by discriminate. lia.
    + apply Z.quot_pos; [lia | reflexivity].
Qed.

Lemma Sub_range (t u : Time) :
  (GoTime.minDuration <= GoTime.Sub t u <= GoTime.maxDuration)%Z.
Proof.
  unfold GoTime.Sub.
  destruct (Z.ltb_spec (t - u) GoTime.minDuration);
    [unfold GoTime.minDuration, GoTime.maxDuration; lia |].
  destruct (Z.ltb_spec GoTime.maxDuration (t - u));
    [unfold GoTime.minDuration, GoTime.maxDuration; lia | lia].
Qed.

Lemma Sub_exact (t u : Time) :
  (GoTime.minDuration <= t - u <= GoTime.maxDuration)%Z ->
  GoTime.Sub t u = (t - u)%Z.
Proof.
  intros [H1 H2]. unfold GoTime.Sub.
  destruct (Z.ltb_spec (t - u) GoTime.minDuration); [lia |].
  destruct (Z.ltb_spec GoTime.maxDuration (t - u)); [lia | reflexivity].
Qed.

Lemma int64_small (z : Z) :
  (- 2 ^ 63 <= z < 2 ^ 63)%Z -> GoMath.int64 z = z.
Proof.
  intros H. unfold GoMath.int64.
  rewrite Z.mod_small; lia.
Qed.

(** [int(now.Sub(startedAt).Seconds())] is the duration in whole seconds,
    rounded toward zero, for durations below [seconds_limit] seconds. *)
Lemma timeTaken_whole_seconds (now started : Time) :
  (Z.abs (now - started) < seconds_limit * GoTime.Second)%Z ->
  GoTime.Sub now started = (now - started)%Z
  /\ GoMath.int_of_float64 (GoTime.Seconds (GoTime.Sub now started))
     = Z.quot (now - started) GoTime.Second.
Proof.
  intros H.
  assert (E : GoTime.Sub now started = (now - started)%Z).
  { apply Sub_exact. unfold GoTime.minDuration, GoTime.maxDuration.
    unfold seconds_limit in H. change GoTime.Second with 1000000000%Z in H.
    lia. }
  split; [exact E |]. rewrite E.
  unfold GoMath.int_of_float64. rewrite (@Trunc_Seconds _ H).
  apply int64_small.
  assert (A : (Z.abs (Z.quot (now - started) GoTime.Second) < 2 ^ 24)%Z).
  { rewrite <- Z.quot_abs by discriminate.
    apply Z.quot_lt_upper_bound; [lia | reflexivity |].
    change (Z.abs GoTime.Second) with GoTime.Second.
    unfold seconds_limit in H. lia. }
  lia.
Qed.

(** C9 as stated fails for long attempts: an attempt completed
    16777216.999999999 seconds after it started gets 16777217 as its time
    taken, one more than the whole seconds of the difference. *)
Lemma CompleteAttempt_seconds_counterexample :
  reachable Scenario.quizzes Scenario.started
  /\ exists a,
       CompleteAttempt Scenario.attempt1_hex Scenario.alice
         16777216999999999%Z Scenario.started
       = (JSON StatusOK a, [a])
       /\ att_StartedAt a = 0%Z
       /\ att_CompletedAt a = Some 16777216999999999%Z
       /\ att_TimeTaken a = 16777217%Z
       /\ Z.quot (16777216999999999 - 0) GoTime.Second = 16777216%Z.
Proof.
  split; [unfold Scenario.started; repeat constructor |].
  eexists. split; [vm_compute; reflexivity |].
  repeat split.
Qed.

(** C9, amended.  For the caller's attempt found in a reachable collection:
    if it is in progress, [CompleteAttempt] succeeds, whatever questions are
    answered, and changes that attempt only: the completion timestamp becomes
    [now], the time taken becomes [int(now.Sub(StartedAt).Seconds())], which
    is the whole seconds (rounded toward zero) of [now - StartedAt] when
    that difference is below [seconds_limit] (2^24) seconds either way; the
    answers, the total score (the binary64 sum of the points of the recorded
    answers) and the maximum score stay as they were.  If it is already
    completed, the call is rejected and the collection is left as it was. *)
Theorem CompleteAttempt_effect (quizzes : list Quiz) (id : string)
  (studentID : ObjectID) (now : Time) (attempts : list QuizAttempt)
  (objectID : ObjectID) (attempt : QuizAttempt) :
  reachable quizzes attempts ->
  ObjectIDFromHex id = Some objectID ->
  Mongo.FindOne
    (fun a => N.eqb (att_ID a) objectID && N.eqb (att_StudentID a) studentID)
    attempts = Some attempt ->
  let out := CompleteAttempt id studentID now attempts in
  match att_CompletedAt attempt with
  | None =>
      exists before after,
        attempts = before ++ attempt :: after
        /\ let timeTaken :=
             GoMath.int_of_float64
               (GoTime.Seconds (GoTime.Sub now (att_StartedAt attempt))) in
           let done :=
             mkQuizAttempt (att_ID attempt) (att_QuizID attempt)
               (att_StudentID attempt) (att_Answers attempt)
               (att_TotalScore attempt) (att_MaxScore attempt)
               (att_StartedAt attempt) (Some now) timeTaken in
           out = (JSON StatusOK done, before ++ done :: after)
           /\ ((Z.abs (now - att_StartedAt attempt)
                < seconds_limit * GoTime.Second)%Z ->
               timeTaken
               = Z.quot (now - att_StartedAt attempt) GoTime.Second)
           /\ att_TotalScore done
              = F64.sum (map ans_PointsEarned (att_Answers done))
  | Some _ =>
      out = (Error StatusBadRequest "Attempt already completed", attempts)
  end.
Proof.
  intros R Hhex Ha out. subst out. unfold CompleteAttempt.
  rewrite Hhex, Ha.
  destruct (att_CompletedAt attempt) eqn:Hc; [reflexivity |].
  pose proof (reachable_store_ok R) as (ND & OK & _).
  pose proof (find_by_id_owner _ _ _ ND Ha) as Hid.
  set (tt := GoMath.int_of_float64
               (GoTime.Seconds (GoTime.Sub now (att_StartedAt attempt)))).
  destruct (UpdateOne_split _ (set_completed now tt) _ Hid)
    as (before & after & Hsplit & Hupd & Hida).
  exists before, after. split; [exact Hsplit |].
  rewrite Hupd. cbv zeta.
  assert (Hfind : Mongo.FindOne (fun a => N.eqb (att_ID a) objectID)
                    (before ++ set_completed now tt attempt :: after)
                  = Some (set_completed now tt attempt)).
  { rewrite <- Hupd. unfold Mongo.FindOne.
    destruct (find _ (Mongo.UpdateOne _ _ attempts)) as [x |] eqn:Hx.
    - destruct (find_some _ _ Hx) as [Hin Hxid].
      assert (NDu : NoDup (map att_ID
                             (Mongo.UpdateOne
                                (fun a => N.eqb (att_ID a) objectID)
                                (set_completed now tt) attempts)))
        by now rewrite UpdateOne_map.
      f_equal. apply (NoDup_map_eq att_ID _ _ _ NDu Hin).
      + rewrite Hupd. apply in_elt.
      + apply N.eqb_eq in Hxid, Hida. cbn. congruence.
    - exfalso.
      assert (C := find_none _ _ Hx (set_completed now tt attempt)).
      rewrite Hupd in C. specialize (C (in_elt _ _ _)).
      cbn [set_completed att_ID] in C. congruence. }
  rewrite Hfind. split; [reflexivity |].
  split; [intros Hr; subst tt; now apply timeTaken_whole_seconds |].
  cbn [att_TotalScore att_Answers].
  destruct (find_some _ _ Hid) as [Hin _].
  rewrite Forall_forall in OK. now destruct (OK attempt Hin) as [Ht _].
Qed.

Lemma CompleteAttempt_effect_witness :
  exists before after,
    Scenario.answered = before ++ Scenario.alice_open_attempt :: after
    /\ CompleteAttempt Scenario.attempt1_hex Scenario.alice
         (Scenario.ms 20500) Scenario.answered
       = (JSON StatusOK Scenario.alice_attempt,
          before ++ Scenario.alice_attempt :: after)
    /\ att_TimeTaken Scenario.alice_attempt = 20%Z
    /\ att_TotalScore Scenario.alice_attempt
       = F64.sum (map ans_PointsEarned (att_Answers Scenario.alice_attempt)).
Proof.
  assert (R : reachable Scenario.quizzes Scenario.answered)
    by (unfold Scenario.answered, Scenario.started; repeat constructor).
  destruct (@CompleteAttempt_effect Scenario.quizzes Scenario.attempt1_hex
           Scenario.alice (Scenario.ms 20500) Scenario.answered
              1%N Scenario.alice_open_attempt R eq_refl eq_refl)
    as (before & after & Hs & Ho & Hq & Ht).
  exists before, after.
  split; [exact Hs |]. split; [exact Ho |]. split; [| exact Ht].
  reflexivity.
Defined.

(* ================================================================= *)
(** ** Sorting *)

Section SortFacts.
Context {A : Type} (before : A -> A -> bool).

(** [before] is the strict part of a total preorder. *)
Hypothesis before_asym :
  forall x y, before x y = true -> before y x = false.
Hypothesis not_before_trans :
  forall x y z, before y x = false -> before z y = false ->
                before z x = false.

Lemma insert_sorted_perm (x : A) (l : list A) :
  Permutation (Mongo.insert_sorted before x l) (x :: l).
Proof.
  induction l as [| y l IH]; cbn; [reflexivity |].
  destruct (before y x); [| reflexivity].
  rewrite IH. apply perm_swap.
Qed.

Lemma sort_perm (l : list A) : Permutation (Mongo.sort before l) l.
Proof.
  induction l as [| x l IH]; cbn; [reflexivity |].
  rewrite insert_sorted_perm. now apply perm_skip.
Qed.

Lemma insert_sorted_sorted (x : A) (l : list A) :
  StronglySorted (fun a b => before b a = false) l ->
  StronglySorted (fun a b => before b a = false)
    (Mongo.insert_sorted before x l).
Proof.
  induction 1 as [| y l SS IH Hy]; cbn.
  - repeat constructor.
  - destruct (before y x) eqn:E.
    + constructor; trivial.
      apply Forall_forall. intros z Hz.
      apply (Permutation_in _ (insert_sorted_perm x l)) in Hz.
      destruct Hz as [<- | Hz]; [now apply before_asym |].
      rewrite Forall_forall in Hy. now apply Hy.
    + constructor; [now constructor |].
      constructor; trivial.
      apply Forall_forall. intros z Hz.
      rewrite Forall_forall in Hy. specialize (Hy z Hz).
      now apply not_before_trans with (y := y).
Qed.

Lemma sort_sorted (l : list A) :
  StronglySorted (fun a b => before b a = false) (Mongo.sort before l).
Proof.
  induction l as [| x l IH]; cbn; [constructor |].
  now apply insert_sorted_sorted.
Qed.

End SortFacts.

Lemma Permutation_filter_compat {A : Type} (f : A -> bool) (l l' : list A) :
  Permutation l l' -> Permutation (List.filter f l) (List.filter f l').
Proof.
  induction 1 as [| x l l' _ IH | x y l | l l' l'' _ IH1 _ IH2]; cbn.
  - constructor.
  - destruct (f x); [now constructor | trivial].
  - destruct (f x), (f y); try reflexivity. apply perm_swap.
  - now transitivity (List.filter f l').
Qed.

Lemma filter_andb {A : Type} (f g : A -> bool) (l : list A) :
  List.filter g (List.filter f l) = List.filter (fun x => f x && g x) l.
Proof.
  induction l as [| x l IH]; cbn; trivial.
  destruct (f x); cbn; [destruct (g x) |]; now rewrite IH.
Qed.

Lemma StronglySorted_filter {A : Type} (R : A -> A -> Prop) (f : A -> bool)
  (l : list A) :
  StronglySorted R l -> StronglySorted R (List.filter f l).
Proof.
  induction 1 as [| x l SS IH Hx]; cbn; [constructor |].
  destruct (f x); trivial. constructor; trivial.
  apply Forall_forall. intros y Hy. apply filter_In in Hy.
  rewrite Forall_forall in Hx. now apply Hx.
Qed.

Lemma StronglySorted_Forall2 {A B : Type} (R : A -> A -> Prop)
  (S : B -> B -> Prop) (M : A -> B -> Prop) (l : list A) (l' : list B) :
  (forall a b e f, M a e -> M b f -> R a b -> S e f) ->
  Forall2 M l l' -> StronglySorted R l -> StronglySorted S l'.
Proof.
  intros H F. induction F as [| a e l l' Hae F IH]; intros SS.
  - constructor.
  - inversion SS as [| ? ? SS' Ha]; subst. constructor; [now apply IH |].
    clear IH SS SS'. induction F as [| b f l l' Hbf F IH]; constructor.
    + inversion Ha; subst. now apply (H a b e f).
    + inversion Ha; subst. now apply IH.
Qed.

(* ================================================================= *)
(** ** The leaderboard order *)

Lemma outranks_true (a b : QuizAttempt) :
  outranks a b = true <->
  att_TotalScore b < att_TotalScore a
  \/ (att_TotalScore a == att_TotalScore b
      /\ (att_TimeTaken a < att_TimeTaken b)%Z).
Proof.
  unfold outranks.
  rewrite orb_true_iff, andb_true_iff, Qlt_bool_iff, Qeq_bool_iff, Z.ltb_lt.
  reflexivity.
Qed.

(** [b] does not come strictly before [a] exactly when [a] precedes [b] in
    the order of the query. *)
Lemma outranks_false (a b : QuizAttempt) :
  outranks b a = false <-> attempt_precedes a b.
Proof.
  unfold attempt_precedes. split.
  - intros H.
    destruct (Qlt_le_dec (att_TotalScore b) (att_TotalScore a)) as [L | L];
      [now left |].
    right.
    assert (N : ~ att_TotalScore a < att_TotalScore b).
    { intros C. rewrite <- not_true_iff_false in H. apply H.
      apply outranks_true. now left. }
    assert (E : att_TotalScore a == att_TotalScore b) by lra.
    split; trivial.
    destruct (Z_le_gt_dec (att_TimeTaken a) (att_TimeTaken b)); trivial.
    exfalso. rewrite <- not_true_iff_false in H. apply H.
    apply outranks_true. right. split; [now symmetry | lia].
  - intros H. apply not_true_iff_false. intros C.
    apply outranks_true in C.
    destruct H as [H | [H1 H2]], C as [C | [C1 C2]]; try lra; lia.
Qed.

Lemma outranks_asym (a b : QuizAttempt) :
  outranks a b = true -> outranks b a = false.
Proof.
  intros H. apply outranks_true in H. apply outranks_false.
  unfold attempt_precedes. destruct H as [H | [H1 H2]]; [now left |].
  right. split; [trivial | lia].
Qed.

Lemma attempt_precedes_trans (a b c : QuizAttempt) :
  attempt_precedes a b -> attempt_precedes b c -> attempt_precedes a c.
Proof.
  unfold attempt_precedes.
  intros [H | [H1 H2]] [K | [K1 K2]].
  - left. lra.
  - left. lra.
  - left. lra.
  - right. split; [lra | lia].
Qed.

Lemma not_outranks_trans (x y z : QuizAttempt) :
  outranks y x = false -> outranks z y = false -> outranks z x = false.
Proof.
  rewrite !outranks_false. apply attempt_precedes_trans.
Qed.

Lemma ranked_attempts_perm objectID attempts :
  Permutation (ranked_attempts objectID attempts)
    (Mongo.Find (completed_for objectID) attempts).
Proof. apply sort_perm. Qed.

Lemma ranked_attempts_sorted objectID attempts :
  StronglySorted attempt_precedes (ranked_attempts objectID attempts).
Proof.
  unfold ranked_attempts.
  pose proof (sort_sorted outranks outranks_asym not_outranks_trans
                (Mongo.Find (completed_for objectID) attempts)) as SS.
  induction SS as [| x l SS IH Hx]; constructor; trivial.
  apply Forall_forall. intros y Hy. rewrite Forall_forall in Hx.
  apply outranks_false. now apply Hx.
Qed.

Lemma ranked_attempts_completed objectID attempts a :
  In a (ranked_attempts objectID attempts) ->
  In a attempts /\ att_QuizID a = objectID
  /\ exists t, att_CompletedAt a = Some t.
Proof.
  intros H. apply (Permutation_in _ (ranked_attempts_perm _ _)) in H.
  apply filter_In in H. destruct H as [Hin Hc].
  unfold completed_for in Hc. apply andb_true_iff in Hc.
  destruct Hc as [Hq Hc]. apply N.eqb_eq in Hq.
  destruct (att_CompletedAt a) as [t |]; [| discriminate].
  repeat split; trivial. now exists t.
Qed.

(* ================================================================= *)
(** ** The loop of [GetQuizLeaderboard] *)

Lemma leaderboard_loop_entries users (l : list QuizAttempt) (rank : Z) :
  (forall a, In a l -> exists t, att_CompletedAt a = Some t) ->
  Forall2 entry_of_attempt (List.filter (known_user users) l)
    (leaderboard_loop users l rank).
Proof.
  revert rank. induction l as [| a l IH]; intros rank H; cbn.
  - constructor.
  - unfold known_user.
    destruct (Mongo.FindOne _ users) as [user |].
    + constructor; [| apply IH; intros; apply H; now right].
      destruct (H a (or_introl eq_refl)) as (t & Ht).
      unfold entry_of_attempt, deref_CompletedAt. cbn. rewrite Ht.
      now repeat split.
    + apply IH. intros; apply H; now right.
Qed.

Lemma leaderboard_loop_rank users (l : list QuizAttempt) (rank : Z)
  (i : nat) (e : LeaderboardEntry) :
  nth_error (leaderboard_loop users l rank) i = Some e ->
  le_Rank e = (rank + Z.of_nat i)%Z.
Proof.
  revert rank i. induction l as [| a l IH]; intros rank i; cbn.
  - destruct i; discriminate.
  - destruct (Mongo.FindOne _ users) as [user |]; [| apply IH].
    destruct i as [| i]; cbn.
    + intros [= <-]. cbn. lia.
    + intros H. rewrite (IH _ _ H). lia.
Qed.

Lemma leaderboard_loop_percentage users (l : list QuizAttempt) (rank : Z)
  (e : LeaderboardEntry) :
  In e (leaderboard_loop users l rank) ->
  exists a, In a l /\ le_MaxScore e = att_MaxScore a
            /\ le_Percentage e = percentage_of a.
Proof.
  revert rank. induction l as [| a l IH]; intros rank; cbn; [contradiction |].
  destruct (Mongo.FindOne _ users) as [user |].
  - intros [<- | H].
    + exists a. cbn. tauto.
    + destruct (IH _ H) as (b & Hb & E). exists b. tauto.
  - intros H. destruct (IH _ H) as (b & Hb & E). exists b. tauto.
Qed.

(* ================================================================= *)
(** ** C4: the quiz leaderboard *)

(** C4 as stated fails on ties: Alice and Bob have the same score and the
    same time taken, Bob completed 0.3 seconds before Alice, and Alice is
    ranked first. *)
Lemma leaderboard_tie_counterexample :
  reachable Scenario.quizzes Scenario.tie_run
  /\ exists lb e1 e2,
       GetQuizLeaderboard Scenario.users Scenario.quiz1_hex Scenario.tie_run
       = JSON StatusOK lb
       /\ lb_leaderboard lb = [e1; e2]
       /\ le_Rank e1 = 1%Z /\ le_Rank e2 = 2%Z
       /\ le_Score e1 == le_Score e2
       /\ le_TimeTaken e1 = le_TimeTaken e2
       /\ (le_CompletedAt e2 < le_CompletedAt e1)%Z
       /\ ~ spec_precedes e1 e2.
Proof.
  split; [exact Scenario_tie_run_reachable |].
  eexists _, _, _.
  split; [vm_compute; reflexivity |].
  split; [reflexivity |].
  repeat split.
  intros [C | [[_ C] | (_ & _ & C)]]; vm_compute in C;
    solve [discriminate C | now apply C].
Qed.

(** C4, amended.  [GetQuizLeaderboard] returns one entry for each completed
    attempt of the quiz whose student has a user record, sorted by total score
    descending and, on equal scores, by time taken ascending; the rank of each
    entry is its 1-based position in the list, so no two entries share a
    rank.  The completion timestamp plays no part in the order. *)
Theorem GetQuizLeaderboard_order (users : list User) (quizID : string)
  (objectID : ObjectID) (attempts : list QuizAttempt) :
  ObjectIDFromHex quizID = Some objectID ->
  exists lb,
    GetQuizLeaderboard users quizID attempts = JSON StatusOK lb
    /\ (exists ranked,
          Permutation ranked
            (List.filter
               (fun a => completed_for objectID a && known_user users a)
               attempts)
          /\ Forall2 entry_of_attempt ranked (lb_leaderboard lb))
    /\ StronglySorted entry_precedes (lb_leaderboard lb)
    /\ (forall i e,
           nth_error (lb_leaderboard lb) i = Some e ->
           le_Rank e = (Z.of_nat i + 1)%Z)
    /\ lb_total_count lb = Z.of_nat (List.length (lb_leaderboard lb)).
Proof.
  intros Hhex. unfold GetQuizLeaderboard. rewrite Hhex.
  eexists. split; [reflexivity |]. cbn [lb_leaderboard lb_total_count].
  assert (F : Forall2 entry_of_attempt
                (List.filter (known_user users)
                   (ranked_attempts objectID attempts))
                (leaderboard_loop users (ranked_attempts objectID attempts) 1)).
  { apply leaderboard_loop_entries. intros a Ha.
    now destruct (ranked_attempts_completed _ _ _ Ha) as (_ & _ & Ht). }
  repeat split.
  - exists (List.filter (known_user users) (ranked_attempts objectID attempts)).
    split; trivial.
    rewrite <- filter_andb. apply Permutation_filter_compat.
    apply ranked_attempts_perm.
  - eapply StronglySorted_Forall2;
      [| exact F | apply StronglySorted_filter, ranked_attempts_sorted].
    intros a b e f (_ & Ea & _ & _ & Ta & _) (_ & Eb & _ & _ & Tb & _).
    unfold attempt_precedes, entry_precedes.
    rewrite Ea, Eb, Ta, Tb. trivial.
  - intros i e H. rewrite (leaderboard_loop_rank _ _ _ _ H). lia.
Qed.

Lemma GetQuizLeaderboard_order_witness :
  exists lb,
    GetQuizLeaderboard Scenario.users Scenario.quiz1_hex Scenario.tie_run
    = JSON StatusOK lb
    /\ StronglySorted entry_precedes (lb_leaderboard lb).
Proof.
  destruct (@GetQuizLeaderboard_order Scenario.users Scenario.quiz1_hex
              161%N Scenario.tie_run eq_refl) as (lb & E & _ & SS & _).
  exists lb. split; [exact E | exact SS].
Defined.

(* ================================================================= *)
(** ** C5: the rank of a student *)

Lemma tied_with_refl (b : QuizAttempt) : tied_with b b = true.
Proof.
  unfold tied_with. rewrite Z.eqb_refl, andb_true_r.
  apply Qeq_bool_iff. reflexivity.
Qed.

Lemma tied_with_true (b a : QuizAttempt) :
  tied_with b a = true <->
  att_TotalScore a == att_TotalScore b /\ att_TimeTaken a = att_TimeTaken b.
Proof.
  unfold tied_with. now rewrite andb_true_iff, Qeq_bool_iff, Z.eqb_eq.
Qed.

(** In a sorted list, the first attempt tied with [b] stands right after the
    attempts that outrank [b]. *)
Lemma position_first_tie (l : list QuizAttempt) (b : QuizAttempt) :
  StronglySorted attempt_precedes l -> In b l ->
  position (tied_with b) l
  = Some (1 + Z.of_nat
                (List.length (List.filter (fun a => outranks a b) l)))%Z.
Proof.
  induction 1 as [| x l SS IH Hx]; intros Hin; [contradiction |].
  cbn [position List.filter]. rewrite Forall_forall in Hx.
  destruct (tied_with b x) eqn:T.
  - apply tied_with_true in T. destruct T as [Ts Tt].
    assert (Ox : outranks x b = false).
    { apply outranks_false. right. split; [now symmetry | lia]. }
    rewrite Ox.
    assert (E : List.filter (fun a => outranks a b) l = []).
    { apply find_none_filter. destruct (find _ l) as [y |] eqn:F; trivial.
      exfalso. destruct (find_some _ _ F) as [Hy Oy].
      apply outranks_true in Oy. specialize (Hx y Hy).
      destruct Hx as [H | [H1 H2]], Oy as [O | [O1 O2]]; try lra; lia. }
    now rewrite E.
  - assert (Hin' : In b l).
    { destruct Hin as [-> | Hin]; trivial.
      rewrite tied_with_refl in T. discriminate T. }
    assert (Ox : outranks x b = true).
    { apply outranks_true. specialize (Hx b Hin').
      destruct Hx as [H | [H1 H2]]; [now left |].
      right. split; trivial.
      destruct (Z.eq_dec (att_TimeTaken x) (att_TimeTaken b)) as [E |];
        [| lia].
      exfalso. rewrite <- not_true_iff_false in T. apply T.
      now apply tied_with_true. }
    rewrite Ox, (IH Hin'). cbn [List.length]. f_equal. lia.
Qed.

Lemma hd_error_In {A : Type} (l : list A) (x : A) :
  hd_error l = Some x -> In x l.
Proof. destruct l; cbn; [discriminate | intros [= ->]; now left]. Qed.

(** The best attempt is a completed attempt of the student for the quiz, and
    none of the student's completed attempts for the quiz outranks it. *)
Lemma best_attempt_spec objectID studentID attempts best :
  best_attempt objectID studentID attempts = Some best ->
  In best attempts /\ completed_for objectID best = true
  /\ att_StudentID best = studentID
  /\ forall a, In a attempts -> completed_for objectID a = true ->
               att_StudentID a = studentID -> outranks a best = false.
Proof.
  unfold best_attempt. intros H.
  set (mine := fun a => completed_for objectID a
                        && N.eqb (att_StudentID a) studentID) in *.
  pose proof (sort_perm outranks (Mongo.Find mine attempts)) as P.
  pose proof (sort_sorted outranks outranks_asym not_outranks_trans
                (Mongo.Find mine attempts)) as SS.
  assert (Hb : In best (Mongo.Find mine attempts))
    by (apply (Permutation_in _ P), hd_error_In, H).
  apply filter_In in Hb. destruct Hb as [Hin Hm]. unfold mine in Hm.
  apply andb_true_iff in Hm. destruct Hm as [Hc Hs]. apply N.eqb_eq in Hs.
  repeat split; trivial.
  intros a Ha Hca Hsa.
  assert (Ia : In a (Mongo.sort outranks (Mongo.Find mine attempts))).
  { apply (Permutation_in _ (Permutation_sym P)). apply filter_In.
    split; trivial. unfold mine. rewrite Hca. cbn. now apply N.eqb_eq. }
  destruct (Mongo.sort outranks (Mongo.Find mine attempts)) as [| x l];
    [discriminate |].
  injection H as ->. inversion SS as [| ? ? _ Hx]; subst.
  destruct Ia as [E | Ia].
  - subst a. destruct (outranks best best) eqn:E; trivial.
    now rewrite (outranks_asym _ _ E) in E.
  - rewrite Forall_forall in Hx. now apply Hx.
Qed.

(** C5 as stated fails on ties: Bob's only attempt stands second in the
    leaderboard, with rank 2, and [GetMyRank] gives him rank 1, as it does to
    Alice, whose attempt stands first. *)
Lemma GetMyRank_tie_counterexample :
  exists r r' lb e,
    GetMyRank Scenario.quiz1_hex Scenario.bob Scenario.tie_run
    = JSON StatusOK r
    /\ GetMyRank Scenario.quiz1_hex Scenario.alice Scenario.tie_run
       = JSON StatusOK r'
    /\ mr_rank r' = 1%Z
    /\ GetQuizLeaderboard Scenario.users Scenario.quiz1_hex Scenario.tie_run
       = JSON StatusOK lb
    /\ nth_error (lb_leaderboard lb) 1 = Some e
    /\ le_StudentID e = Scenario.bob
    /\ le_Rank e = 2%Z
    /\ position (fun a => N.eqb (att_StudentID a) Scenario.bob)
         (ranked_attempts 161%N Scenario.tie_run) = Some 2%Z
    /\ mr_rank r = 1%Z.
Proof.
  eexists _, _, _, _.
  split; [vm_compute; reflexivity |].
  split; [vm_compute; reflexivity |].
  split; [reflexivity |].
  split; [vm_compute; reflexivity |].
  split; [reflexivity |].
  repeat split.
Qed.

(** C5, amended.  For a student with a completed attempt for the quiz,
    [GetMyRank] returns one plus the number of completed attempts for the
    quiz that come strictly before the student's best attempt in the order
    [GetQuizLeaderboard] sorts by (higher score, or equal score and less time
    taken).  This is the position, among all completed attempts of the quiz
    in leaderboard order, of the first attempt that has the score and the
    time taken of the best attempt. *)
Theorem GetMyRank_rank (quizID : string) (objectID studentID : ObjectID)
  (attempts : list QuizAttempt) (mine : QuizAttempt) :
  ObjectIDFromHex quizID = Some objectID ->
  In mine attempts ->
  completed_for objectID mine = true ->
  att_StudentID mine = studentID ->
  exists best r,
    best_attempt objectID studentID attempts = Some best
    /\ outranks mine best = false
    /\ GetMyRank quizID studentID attempts = JSON StatusOK r
    /\ mr_rank r
       = (1 + Z.of_nat
                (List.length
                   (List.filter
                      (fun a => completed_for objectID a && outranks a best)
                      attempts)))%Z
    /\ position (tied_with best) (ranked_attempts objectID attempts)
       = Some (mr_rank r).
Proof.
  intros Hhex Hin Hc Hs.
  destruct (best_attempt objectID studentID attempts) as [best |] eqn:Hb.
  2: { exfalso. unfold best_attempt in Hb.
       set (f := fun a => completed_for objectID a
                          && N.eqb (att_StudentID a) studentID) in *.
       assert (I : In mine (Mongo.sort outranks (Mongo.Find f attempts))).
       { apply (Permutation_in _ (Permutation_sym (sort_perm outranks _))).
         apply filter_In. split; trivial. unfold f. rewrite Hc. cbn.
         now apply N.eqb_eq. }
       destruct (Mongo.sort outranks (Mongo.Find f attempts));
         [contradiction | discriminate]. }
  destruct (best_attempt_spec _ _ _ Hb) as (Bin & Bc & Bs & Bbest).
  unfold GetMyRank. rewrite Hhex, Hb.
  eexists best, _. split; [reflexivity |].
  split; [now apply Bbest |].
  split; [reflexivity |]. cbn [mr_rank].
  assert (Count : Mongo.CountDocuments (betterScoreFilter objectID best)
                    attempts
                  = Z.of_nat
                      (List.length
                         (List.filter
                            (fun a => completed_for objectID a
                                      && outranks a best) attempts)))
    by reflexivity.
  rewrite Count. split; [lia |].
  rewrite (@position_first_tie (ranked_attempts objectID attempts) best).
  - f_equal. rewrite Z.add_comm. f_equal. f_equal.
    rewrite <- filter_andb.
    apply Permutation_length, Permutation_filter_compat,
      ranked_attempts_perm.
  - apply ranked_attempts_sorted.
  - apply (Permutation_in _ (Permutation_sym (ranked_attempts_perm _ _))).
    now apply filter_In.
Qed.

Lemma GetMyRank_rank_witness :
  exists best r,
    best_attempt 161%N Scenario.alice Scenario.alice_run = Some best
    /\ GetMyRank Scenario.quiz1_hex Scenario.alice Scenario.alice_run
       = JSON StatusOK r
    /\ position (tied_with best) (ranked_attempts 161%N Scenario.alice_run)
       = Some (mr_rank r).
Proof.
  destruct (@GetMyRank_rank Scenario.quiz1_hex 161%N Scenario.alice
              Scenario.alice_run Scenario.alice_attempt eq_refl
              (or_introl eq_refl) eq_refl eq_refl)
    as (best & r & Hb & _ & Hr & _ & Hp).
  exists best, r. repeat split; assumption.
Defined.

(* ================================================================= *)
(** ** C3: how the correctness flag is computed *)

(** C3 as stated fails: the submitted value is a text, and the flag is set by
    comparing it with a text made from the correct answer.  The text ["1"]
    is recorded as correct for the option index 1, which no exact-typed
    equality of a text and a number grants; and on the option index 10 the
    text ["10"] is recorded as incorrect while [":"] is recorded as
    correct. *)
Lemma SubmitAnswer_text_counterexample :
  reachable Scenario.quizzes Scenario.started
  /\ q_CorrectAnswer Scenario.question2 = GoFloat64 1
  /\ (exists r db,
        SubmitAnswer Scenario.quizzes
          (mkSubmitAnswerRequest Scenario.attempt1_hex Scenario.question2_hex
             "1" 3)
          Scenario.alice (Scenario.ms 5000) Scenario.started
        = (JSON StatusOK r, db)
        /\ is_correct r = true)
  /\ exact_typed_equal (GoString "1") (q_CorrectAnswer Scenario.question2)
     = false
  /\ q_CorrectAnswer Scenario.question3 = GoFloat64 10
  /\ (exists r db,
        SubmitAnswer Scenario.quizzes
          (mkSubmitAnswerRequest Scenario.attempt1_hex Scenario.question3_hex
             "10" 3)
          Scenario.alice (Scenario.ms 5000) Scenario.started
        = (JSON StatusOK r, db)
        /\ is_correct r = false)
  /\ (exists r db,
        SubmitAnswer Scenario.quizzes
          (mkSubmitAnswerRequest Scenario.attempt1_hex Scenario.question3_hex
             ":" 3)
          Scenario.alice (Scenario.ms 5000) Scenario.started
        = (JSON StatusOK r, db)
        /\ is_correct r = true).
Proof.
  split; [unfold Scenario.started; repeat constructor |].
  split; [reflexivity |].
  split; [do 2 eexists; split; [vm_compute; reflexivity | reflexivity] |].
  split; [reflexivity |].
  split; [reflexivity |].
  split; do 2 eexists; (split; [vm_compute; reflexivity | reflexivity]).
Qed.

Lemma correctAnswerStr_int_digit (v : Z) :
  (0 <= v <= 9)%Z -> correctAnswerStr (GoInt v) = decimal_digit v.
Proof.
  intros H.
  assert (C : (v = 0 \/ v = 1 \/ v = 2 \/ v = 3 \/ v = 4 \/ v = 5 \/ v = 6
               \/ v = 7 \/ v = 8 \/ v = 9)%Z) by lia.
  repeat (destruct C as [-> | C]; [reflexivity |]). now subst.
Qed.

Lemma int_of_float64_small (v : Q) :
  0 <= v -> v < 10 ->
  GoMath.int_of_float64 v = Qfloor v /\ (0 <= Qfloor v <= 9)%Z.
Proof.
  intros H0 H10.
  assert (L : (0 <= Qfloor v)%Z).
  { rewrite <- (Qfloor_Z 0). now apply Qfloor_resp_le. }
  assert (U : (Qfloor v < 10)%Z).
  { rewrite Zlt_Qlt. apply Qle_lt_trans with (y := v); trivial.
    apply Qfloor_le. }
  split; [| lia].
  unfold GoMath.int_of_float64, GoMath.Trunc.
  apply Qle_bool_iff in H0. rewrite H0.
  apply int64_small. lia.
Qed.

Lemma correctAnswerStr_float_digit (v : Q) :
  0 <= v -> v < 10 ->
  correctAnswerStr (GoFloat64 v) = decimal_digit (Qfloor v).
Proof.
  intros H0 H10.
  destruct (int_of_float64_small H0 H10) as [E B].
  rewrite <- (correctAnswerStr_int_digit B).
  unfold correctAnswerStr. now rewrite E.
Qed.

(** C3, amended.  For a successful [SubmitAnswer] in a reachable collection,
    the flag recorded with the answer is the equality of two texts: the
    submitted answer and the text made from the correct answer of the
    question, which is the string itself for a string, ["true"] or ["false"]
    for a boolean, and the decimal digit for an option index from 0 to 9 (an
    [int], or the integer part of a [float64]); for a correct answer of any
    other type the flag is [false]. *)
Theorem SubmitAnswer_flag_is_text_equality (quizzes : list Quiz)
  (req : SubmitAnswerRequest) (studentID : ObjectID) (now : Time)
  (attempts attempts' : list QuizAttempt) (s : Z) (r : SubmitAnswerResponse) :
  reachable quizzes attempts ->
  SubmitAnswer quizzes req studentID now attempts = (JSON s r, attempts') ->
  exists attempt quiz questionID question answer before after,
    attempts = before ++ attempt :: after
    /\ att_CompletedAt attempt = None
    /\ Mongo.FindOne (fun q => N.eqb (quiz_ID q) (att_QuizID attempt)) quizzes
       = Some quiz
    /\ ObjectIDFromHex (sub_QuestionID req) = Some questionID
    /\ find (fun q => N.eqb (q_ID q) questionID) (quiz_Questions quiz)
       = Some question
    /\ attempts' = before ++ push_answer answer attempt :: after
    /\ ans_QuestionID answer = questionID
    /\ ans_StudentAnswer answer = GoString (sub_Answer req)
    /\ ans_IsCorrect answer = is_correct r
    /\ match q_CorrectAnswer question with
       | GoString c => is_correct r = String.eqb (sub_Answer req) c
       | GoBool c =>
           is_correct r
           = String.eqb (sub_Answer req) (if c then "true" else "false")
       | GoInt c =>
           (0 <= c <= 9)%Z ->
           is_correct r = String.eqb (sub_Answer req) (decimal_digit c)
       | GoFloat64 c =>
           0 <= c -> c < 10 ->
           is_correct r
           = String.eqb (sub_Answer req) (decimal_digit (Qfloor c))
       | GoOther => is_correct r = false
       end.
Proof.
  intros R E.
  pose proof (reachable_store_ok R) as (ND & _ & _).
  apply SubmitAnswer_success in E.
  destruct E as (attemptID & questionID & attempt & quiz & question
                 & _ & Hqhex & Ha & Hc & Hq & Hn & _ & _ & Hne & _
                 & -> & ->).
  pose proof (find_by_id_owner _ _ _ ND Ha) as Hid.
  set (isCorrect := String.eqb (sub_Answer req)
                      (correctAnswerStr (q_CorrectAnswer question))) in *.
  set (answer := mkAnswer questionID (GoString (sub_Answer req)) isCorrect
                   (sub_TimeToAnswer req)
                   (CalculateScore (q_Points question) (sub_TimeToAnswer req)
                      isCorrect) now) in *.
  destruct (UpdateOne_split _ (push_answer answer) _ Hid)
    as (before & after & Hsplit & Hupd & _).
  exists attempt, quiz, questionID, question, answer, before, after.
  repeat split; try assumption; try reflexivity.
  cbn [is_correct]. subst isCorrect.
  destruct (q_CorrectAnswer question) as [c | c | c | c |].
  - reflexivity.
  - reflexivity.
  - intros B. now rewrite correctAnswerStr_int_digit.
  - intros B0 B10. now rewrite correctAnswerStr_float_digit.
  - cbn [correctAnswerStr].
    destruct (String.eqb_spec (sub_Answer req) ""); [contradiction | trivial].
Qed.

Lemma SubmitAnswer_flag_is_text_equality_witness :
  exists answer,
    Scenario.answered = [push_answer answer (nth 0 Scenario.started
                                               Scenario.no_attempt)]
    /\ ans_StudentAnswer answer = GoString "true"
    /\ ans_IsCorrect answer = String.eqb "true" "true".
Proof.
  assert (R : reachable Scenario.quizzes Scenario.started)
    by (unfold Scenario.started; repeat constructor).
  destruct (@SubmitAnswer_flag_is_text_equality Scenario.quizzes
              (mkSubmitAnswerRequest Scenario.attempt1_hex
                 Scenario.question1_hex "true" 7)
              Scenario.alice (Scenario.ms 9000) Scenario.started
              Scenario.answered StatusOK
              (mkSubmitAnswerResponse true (CalculateScore 10 7 true)
                 "Answer submitted successfully")
              R)
    as (attempt & quiz & questionID & question & answer & before & after
        & Hs & _ & _ & Hhex & Hfind & Hdb & _ & Ha & Hf & _).
  - vm_compute. reflexivity.
  - destruct before as [| x [| y before]];
      [| discriminate Hs | discriminate Hs].
    injection Hs as <- <-.
    exists answer. repeat split; trivial.
Defined.

(* ================================================================= *)
(** ** C10: a maximum score of zero *)

Lemma all_some_none {A : Type} (l : list (option A)) :
  In None l -> all_some l = None.
Proof.
  induction l as [| [x |] l IH]; cbn; [contradiction | | trivial].
  intros [C | H]; [discriminate C |]. now rewrite IH.
Qed.

Lemma group_keys_In (docs : list QuizAttempt) (a : QuizAttempt) :
  In a docs -> In (att_StudentID a) (group_keys docs).
Proof.
  induction docs as [| x docs IH]; cbn; [contradiction |].
  intros [-> | H]; [now left |].
  destruct (N.eq_dec (att_StudentID a) (att_StudentID x)) as [E | NE];
    [left; congruence | right].
  apply filter_In. split; [now apply IH |].
  apply negb_true_iff. now apply N.eqb_neq.
Qed.

Lemma percentage_expr_zero (a : QuizAttempt) :
  att_MaxScore a == 0 -> percentage_expr a = None.
Proof.
  intros E. unfold percentage_expr, Mongo.divide.
  apply Qeq_bool_iff in E. now rewrite E.
Qed.

(** C10.  A completed attempt whose maximum score is 0 makes the [$divide] of
    the global pipeline divide by zero: the expression has no value for it,
    the aggregation fails and [GetGlobalLeaderboard] answers 500; any other
    maximum score gives [(total_score / max_score) * 100].
    [GetQuizLeaderboard] takes the percentage of such an attempt to be 0. *)
Theorem GetGlobalLeaderboard_zero_max (users : list User)
  (attempts : list QuizAttempt) (a : QuizAttempt) :
  In a attempts -> is_completed a = true -> att_MaxScore a == 0 ->
  (forall b : QuizAttempt,
      ~ att_MaxScore b == 0 ->
      percentage_expr b = Some ((att_TotalScore b / att_MaxScore b) * 100))
  /\ percentage_expr a = None
  /\ global_pipeline attempts = None
  /\ GetGlobalLeaderboard users attempts
     = Error StatusInternalServerError "Failed to generate leaderboard"
  /\ percentage_of a = 0
  /\ forall quizID lb e,
       GetQuizLeaderboard users quizID attempts = JSON StatusOK lb ->
       In e (lb_leaderboard lb) -> le_MaxScore e == 0 -> le_Percentage e = 0.
Proof.
  intros Hin Hc Hz.
  assert (P : global_pipeline attempts = None).
  { unfold global_pipeline.
    set (docs := Mongo.Find is_completed attempts).
    assert (Hd : In a docs) by (apply filter_In; now split).
    rewrite all_some_none; trivial.
    apply in_map_iff. exists (att_StudentID a).
    split; [| now apply group_keys_In].
    unfold group_of. rewrite all_some_none; trivial.
    apply in_map_iff. exists a. split; [now apply percentage_expr_zero |].
    apply filter_In. split; trivial. apply N.eqb_refl. }
  assert (Z0 : forall m : Q, m == 0 -> Qlt_bool 0 m = false).
  { intros m E. apply Qlt_bool_false. lra. }
  repeat split.
  - intros b Hb. unfold percentage_expr, Mongo.divide.
    destruct (Qeq_bool (att_MaxScore b) 0) eqn:E; trivial.
    apply Qeq_bool_iff in E. contradiction.
  - now apply percentage_expr_zero.
  - exact P.
  - unfold GetGlobalLeaderboard. now rewrite P.
  - unfold percentage_of. now rewrite Z0.
  - intros quizID lb e Hlb He Hm. unfold GetQuizLeaderboard in Hlb.
    destruct (ObjectIDFromHex quizID) as [objectID |]; [| discriminate].
    injection Hlb as <-. cbn [lb_leaderboard] in He.
    destruct (leaderboard_loop_percentage _ _ _ _ He) as (b & _ & Em & Ep).
    rewrite Ep. unfold percentage_of. rewrite Z0; trivial. now rewrite <- Em.
Qed.

Lemma GetGlobalLeaderboard_zero_max_witness :
  In Scenario.zero_max_attempt Scenario.zero_max_run
  /\ is_completed Scenario.zero_max_attempt = true
  /\ att_MaxScore Scenario.zero_max_attempt == 0
  /\ GetGlobalLeaderboard Scenario.users Scenario.zero_max_run
     = Error StatusInternalServerError "Failed to generate leaderboard"
  /\ percentage_of Scenario.zero_max_attempt = 0.
Proof.
  assert (Hin : In Scenario.zero_max_attempt Scenario.zero_max_run)
    by (right; left; reflexivity).
  assert (Hc : is_completed Scenario.zero_max_attempt = true) by reflexivity.
  assert (Hz : att_MaxScore Scenario.zero_max_attempt == 0) by reflexivity.
  destruct (@GetGlobalLeaderboard_zero_max Scenario.users
              Scenario.zero_max_run Scenario.zero_max_attempt Hin Hc Hz)
    as (_ & _ & _ & Hg & Hp & _).
  repeat split; assumption.
Defined.

(* ================================================================= *)
(** * More properties *)
(* ================================================================= *)
(** ** The scoring service *)

Lemma Qmult_le_nonneg_l (p a b : Q) : 0 <= p -> a <= b -> p * a <= p * b.
Proof.
  intros Hp H. rewrite (Qmult_comm p a), (Qmult_comm p b).
  now apply Qmult_le_compat_r.
Qed.

(** Rounding to two decimals as both functions do it,
    [math.Round(x*100) / 100], is monotone, *)
Lemma round2_mono (x y : Q) :
  x <= y ->
  F64.div (GoMath.Round (F64.mul x 100)) 100
  <= F64.div (GoMath.Round (F64.mul y 100)) 100.
Proof.
  intros H. unfold F64.div, F64.mul. apply rnd_mono.
  apply Qmult_le_compat_r; [| discriminate].
  apply Round_mono, rnd_mono.
  apply Qmult_le_compat_r; [exact H | discriminate].
Qed.

(** and leaves alone the integers and halves of integers up to
    [points_limit]. *)
Lemma round2_half_integer (n : Z) :
  (Z.abs n <= 2 * points_limit)%Z ->
  F64.div (GoMath.Round (F64.mul (inject_Z n / 2) 100)) 100
  == inject_Z n / 2.
Proof.
  intros H. unfold points_limit in H. unfold F64.div, F64.mul.
  assert (E1 : inject_Z n / 2 * 100 == inject_Z (n * 50)).
  { rewrite inject_Z_mult. field. }
  assert (R1 : F64.rnd (inject_Z n / 2 * 100) == inject_Z (n * 50)).
  { rewrite (rnd_comp E1). apply rnd_Z. lia. }
  assert (R2 : GoMath.Round (F64.rnd (inject_Z n / 2 * 100)) / 100
               == inject_Z n * F64.pow2 (-1)).
  { rewrite (Round_comp R1), Round_inject_Z, inject_Z_mult.
    change (F64.pow2 (-1)) with (/ 2). field. }
  rewrite (rnd_comp R2), rnd_exact.
  - change (F64.pow2 (-1)) with (/ 2). reflexivity.
  - exists n, (-1)%Z. split; [lia | split; [discriminate | reflexivity]].
Qed.

Lemma round2_integer (n : Z) :
  (Z.abs n <= points_limit)%Z ->
  F64.div (GoMath.Round (F64.mul (inject_Z n) 100)) 100 == inject_Z n.
Proof.
  intros H.
  assert (E : inject_Z n == inject_Z (2 * n) / 2).
  { rewrite inject_Z_mult. field. }
  unfold F64.mul. rewrite (@rnd_comp _ (inject_Z (2 * n) / 2 * 100))
    by now rewrite <- E.
  fold (F64.mul (inject_Z (2 * n) / 2) 100).
  rewrite round2_half_integer by lia. now symmetry.
Qed.

(** X1.  A slower answer never earns more: for non-negative base points,
    however large, the score does not increase with the response time.  Up
    to [points_limit] base points a correct answer earns at least half the
    base points.  An incorrect answer earns nothing. *)
Theorem CalculateScore_monotone (p t1 t2 : Z) (c : bool) :
  (0 <= p)%Z -> (t1 <= t2)%Z ->
  CalculateScore p t2 c <= CalculateScore p t1 c
  /\ ((p <= points_limit)%Z -> c = true ->
      inject_Z p * (1 # 2) <= CalculateScore p t2 c)
  /\ (c = false -> CalculateScore p t2 c == 0).
Proof.
  intros Hp Ht.
  destruct c;
    [| rewrite !CalculateScore_incorrect;
       split; [apply Qle_refl | split; [discriminate | reflexivity]]].
  split; [| split; [intros Hl _ | discriminate]].
  - rewrite !CalculateScore_correct. apply round2_mono.
    unfold F64.mul. apply rnd_mono. apply Qmult_le_nonneg_l.
    + apply rnd_nonneg. now apply inject_Z_nonneg.
    + now apply multiplier_antitone.
  - rewrite (@CalculateScore_exact p t2) by lia.
    apply Qle_trans with (F64.rnd (inject_Z p * (1 # 2))).
    + rewrite rnd_exact; [apply Qle_refl |].
      exists p, (-1)%Z. pose proof points_limit_small.
      split; [lia | split; [discriminate | reflexivity]].
    + apply rnd_mono. apply Qmult_le_nonneg_l; [now apply inject_Z_nonneg |].
      destruct (policy_hundredths t2) as (k & Hk & -> & _).
      apply Qle_shift_div_l; [reflexivity |].
      assert (E : (1 # 2) * 100 == inject_Z 50) by reflexivity.
      rewrite E, <- Zle_Qle. lia.
Qed.

Lemma CalculateScore_monotone_witness :
  (0 <= 10)%Z /\ (7 <= 12)%Z
  /\ CalculateScore 10 12 true <= CalculateScore 10 7 true
  /\ inject_Z 10 * (1 # 2) <= CalculateScore 10 12 true.
Proof.
  assert (P : (0 <= 10)%Z) by discriminate.
  assert (T : (7 <= 12)%Z) by discriminate.
  split; [exact P | split; [exact T |]].
  destruct (@CalculateScore_monotone 10 7 12 true P T) as (M & H & _).
  split; [exact M |]. apply H; [discriminate | reflexivity].
Defined.

Lemma total_loop_sum (answers : list ScoredAnswer) (acc : Q) :
  fold_left
    (fun totalScore answer =>
       F64.add totalScore
         (CalculateScore (sa_BasePoints answer) (sa_TimeToAnswer answer)
            (sa_IsCorrect answer)))
    answers acc
  = fold_left F64.add (map score_of answers) acc.
Proof.
  revert acc. induction answers as [| a l IH]; intros acc; cbn [fold_left map].
  - reflexivity.
  - now rewrite IH.
Qed.

Lemma CalculateTotalScore_rounds_sum (answers : list ScoredAnswer) :
  CalculateTotalScore answers
  = F64.div
      (GoMath.Round (F64.mul (F64.sum (map score_of answers)) 100)) 100.
Proof.
  unfold CalculateTotalScore, F64.sum. cbv zeta. now rewrite total_loop_sum.
Qed.

Lemma Zsum_member_le (l : list Z) (b : Z) :
  Forall (fun b => (0 <= b)%Z) l -> In b l -> (b <= Zsum l)%Z.
Proof.
  induction 1 as [| x l Hx Hl IH]; [contradiction |].
  change (Zsum (x :: l)) with (x + Zsum l)%Z.
  pose proof (Zsum_nonneg Hl). intros [<- | Hin]; [lia |].
  specialize (IH Hin). lia.
Qed.

(** X2.  [CalculateTotalScore] returns the binary64 sum of the scores of the
    answers, added in their order, rounded to two decimals.  With
    non-negative base points that sum up to at most [points_limit], the
    total lies between 0 and the sum of the base points. *)
Theorem CalculateTotalScore_sum (answers : list ScoredAnswer) :
  CalculateTotalScore answers
  = F64.div
      (GoMath.Round (F64.mul (F64.sum (map score_of answers)) 100)) 100
  /\ (Forall (fun a => (0 <= sa_BasePoints a)%Z) answers ->
      (Zsum (map sa_BasePoints answers) <= points_limit)%Z ->
      0 <= CalculateTotalScore answers
      /\ CalculateTotalScore answers
         <= inject_Z (Zsum (map sa_BasePoints answers))).
Proof.
  pose proof (CalculateTotalScore_rounds_sum answers) as S.
  split; [exact S |].
  intros Hpos Hlim. rewrite S.
  assert (Hnn : Forall (fun b => (0 <= b)%Z) (map sa_BasePoints answers)).
  { apply Forall_forall. intros b Hb. apply in_map_iff in Hb.
    destruct Hb as (a & <- & Ha). rewrite Forall_forall in Hpos.
    now apply Hpos. }
  destruct (@F64_sum_bounds (map score_of answers)
              (map sa_BasePoints answers)) as [L U].
  - clear S. induction answers as [| a l IH]; cbn [map]; constructor.
    + apply CalculateScore_bounds.
      inversion Hpos; subst. split; trivial.
      apply Z.le_trans with (2 := Hlim).
      apply Zsum_member_le; trivial. now left.
    + inversion Hpos; subst. inversion Hnn; subst. apply IH; trivial.
      cbn [map] in Hlim.
      change (Zsum (sa_BasePoints a :: map sa_BasePoints l))
        with (sa_BasePoints a + Zsum (map sa_BasePoints l))%Z in Hlim.
      lia.
  - pose proof points_limit_small. lia.
  - pose proof (Zsum_nonneg Hnn) as Hs. split.
    + apply Qle_trans
        with (F64.div (GoMath.Round (F64.mul (inject_Z 0) 100)) 100).
      * rewrite round2_integer by discriminate. apply Qle_refl.
      * now apply round2_mono.
    + apply Qle_trans
        with (F64.div
                (GoMath.Round
                   (F64.mul
                      (inject_Z (Zsum (map sa_BasePoints answers))) 100))
                100).
      * now apply round2_mono.
      * rewrite round2_integer by lia. apply Qle_refl.
Qed.

Lemma CalculateTotalScore_sum_witness :
  Forall (fun a => (0 <= sa_BasePoints a)%Z)
    [mkScoredAnswer 10 3 true; mkScoredAnswer 15 7 true;
     mkScoredAnswer 5 2 false]
  /\ (Zsum (map sa_BasePoints
              [mkScoredAnswer 10 3 true; mkScoredAnswer 15 7 true;
               mkScoredAnswer 5 2 false]) <= points_limit)%Z
  /\ CalculateTotalScore
       [mkScoredAnswer 10 3 true; mkScoredAnswer 15 7 true;
        mkScoredAnswer 5 2 false]
     <= inject_Z
          (Zsum (map sa_BasePoints
                   [mkScoredAnswer 10 3 true; mkScoredAnswer 15 7 true;
                    mkScoredAnswer 5 2 false])).
Proof.
  assert (H : Forall (fun a => (0 <= sa_BasePoints a)%Z)
                [mkScoredAnswer 10 3 true; mkScoredAnswer 15 7 true;
                 mkScoredAnswer 5 2 false])
    by (repeat constructor; discriminate).
  assert (L : (Zsum (map sa_BasePoints
                       [mkScoredAnswer 10 3 true; mkScoredAnswer 15 7 true;
                        mkScoredAnswer 5 2 false]) <= points_limit)%Z)
    by discriminate.
  split; [exact H | split; [exact L |]].
  now destruct (CalculateTotalScore_sum
                  [mkScoredAnswer 10 3 true; mkScoredAnswer 15 7 true;
                   mkScoredAnswer 5 2 false]) as [_ B]; destruct (B H L).
Defined.

(* ================================================================= *)
(** ** What a call changes *)

Lemma SubmitAnswer_success_time quizzes req studentID now attempts s r
  attempts' :
  SubmitAnswer quizzes req studentID now attempts = (JSON s r, attempts') ->
  sub_TimeToAnswer req <> 0%Z.
Proof.
  unfold SubmitAnswer. intros H E.
  assert (M : submit_missing_fields req <> []).
  { unfold submit_missing_fields. rewrite E. cbn.
    destruct (String.eqb (sub_AttemptID req) "");
      destruct (String.eqb (sub_QuestionID req) "");
      destruct (String.eqb (sub_Answer req) ""); discriminate. }
  destruct (submit_missing_fields req); [contradiction | discriminate].
Qed.

(** A call leaves the collection alone, or appends an attempt of the caller
    that is in progress, or changes one attempt, which belongs to the caller
    and was in progress: it gets one more answer with its points, or its
    completion stamp. *)
Lemma run_cases quizzes (c : Call) (attempts : list QuizAttempt) :
  reachable quizzes attempts ->
  run quizzes c attempts = attempts
  \/ (exists a,
        run quizzes c attempts = attempts ++ [a]
        /\ ~ In (att_ID a) (map att_ID attempts)
        /\ att_StudentID a = caller c /\ att_CompletedAt a = None
        /\ att_Answers a = [] /\ att_TotalScore a = 0
        /\ att_StartedAt a = call_time c /\ att_TimeTaken a = 0%Z)
  \/ (exists before a after a',
        attempts = before ++ a :: after
        /\ run quizzes c attempts = before ++ a' :: after
        /\ att_StudentID a = caller c /\ att_CompletedAt a = None
        /\ att_ID a' = att_ID a /\ att_QuizID a' = att_QuizID a
        /\ att_StudentID a' = att_StudentID a
        /\ att_MaxScore a' = att_MaxScore a
        /\ att_StartedAt a' = att_StartedAt a
        /\ ((exists answer,
               a' = push_answer answer a
               /\ ans_AnsweredAt answer = call_time c)
            \/ a' = set_completed (call_time c)
                      (GoMath.int_of_float64
                         (GoTime.Seconds
                            (GoTime.Sub (call_time c) (att_StartedAt a)))) a)).
Proof.
  intros R. pose proof (reachable_store_ok R) as (ND & _ & _).
  destruct c as [courseService req studentID newID now
                | req studentID now | id studentID now]; cbn [run caller call_time].
  - destruct (StartAttempt_cases quizzes courseService req studentID newID
                now attempts)
      as [[_ E] | (quizID & quiz & _ & _ & _ & _ & _ & Hni & E)];
      [now left |].
    right. left. rewrite E. cbn [snd]. eexists. split; [reflexivity |].
    now repeat split.
  - destruct (SubmitAnswer quizzes req studentID now attempts)
      as [[s r | s m] attempts'] eqn:E; cbn [snd].
    2: { left. now apply SubmitAnswer_error in E. }
    apply SubmitAnswer_success in E.
    destruct E as (attemptID & questionID & attempt & quiz & question
                   & _ & _ & Ha & Hc & _ & _ & _ & _ & _ & _ & _ & ->).
    pose proof (find_by_id_owner _ _ _ ND Ha) as Hid.
    match goal with
    | |- context [Mongo.UpdateOne _ (push_answer ?ans) _] =>
        destruct (UpdateOne_split _ (push_answer ans) _ Hid)
          as (before & after & Hs & Hu & _);
        set (answer := ans) in *
    end.
    destruct (find_some _ _ Ha) as [_ Hown].
    apply andb_true_iff in Hown. destruct Hown as [_ Hown].
    apply N.eqb_eq in Hown.
    right. right. exists before, attempt, after, (push_answer answer attempt).
    repeat split; trivial. left. now exists answer.
  - destruct (CompleteAttempt_cases id studentID now attempts)
      as [[_ E] | (objectID & attempt & _ & Ha & Hc & E)]; [now left |].
    pose proof (find_by_id_owner _ _ _ ND Ha) as Hid.
    match type of E with
    | _ = Mongo.UpdateOne _ (set_completed _ ?tt) _ =>
        destruct (UpdateOne_split _ (set_completed now tt) _ Hid)
          as (before & after & Hs & Hu & _);
        set (timeTaken := tt) in *
    end.
    destruct (find_some _ _ Ha) as [_ Hown].
    apply andb_true_iff in Hown. destruct Hown as [_ Hown].
    apply N.eqb_eq in Hown.
    right. right.
    exists before, attempt, after, (set_completed now timeTaken attempt).
    rewrite E. repeat split; trivial. now right.
Qed.

Lemma run_all_reachable quizzes cs attempts :
  reachable quizzes attempts -> reachable quizzes (run_all quizzes cs attempts).
Proof.
  revert attempts. induction cs as [| c cs IH]; intros attempts R; cbn.
  - exact R.
  - apply IH. now constructor.
Qed.

(** X3.  A completed attempt is never changed again: whatever calls follow,
    it is still in the collection, field for field. *)
Theorem completed_attempt_frozen (quizzes : list Quiz)
  (attempts : list QuizAttempt) (a : QuizAttempt) (t : Time)
  (cs : list Call) :
  reachable quizzes attempts ->
  In a attempts -> att_CompletedAt a = Some t ->
  In a (run_all quizzes cs attempts).
Proof.
  revert attempts. induction cs as [| c cs IH]; intros attempts R Hin Hc;
    cbn; [exact Hin |].
  apply IH; [now constructor | | exact Hc].
  destruct (run_cases c R)
    as [-> | [(n & -> & _) | (before & x & after & x' & Hs & -> & _ & Hx & _)]];
    trivial.
  - apply in_or_app. now left.
  - rewrite Hs in Hin. apply in_app_or in Hin.
    apply in_or_app. destruct Hin as [Hin | [<- | Hin]]; [now left | | ].
    + congruence.
    + right. now right.
Qed.

Lemma completed_attempt_frozen_witness :
  In Scenario.alice_attempt Scenario.alice_run
  /\ att_CompletedAt Scenario.alice_attempt = Some (Scenario.ms 20500)
  /\ In Scenario.alice_attempt
       (run_all Scenario.quizzes
          [CallSubmit
             (mkSubmitAnswerRequest Scenario.attempt1_hex
                Scenario.question2_hex "1" 4) Scenario.alice
             (Scenario.ms 30000);
           CallComplete Scenario.attempt1_hex Scenario.alice
             (Scenario.ms 40000)]
          Scenario.alice_run).
Proof.
  assert (Hin : In Scenario.alice_attempt Scenario.alice_run)
    by (left; reflexivity).
  assert (Hc : att_CompletedAt Scenario.alice_attempt
               = Some (Scenario.ms 20500)) by reflexivity.
  split; [exact Hin | split; [exact Hc |]].
  apply (@completed_attempt_frozen Scenario.quizzes Scenario.alice_run
           Scenario.alice_attempt (Scenario.ms 20500) _
           Scenario_alice_run_reachable Hin Hc).
Defined.

(** X4.  Calls of other students never touch an attempt: after any calls none
    of which is made by its owner, the attempt is still in the collection as
    it was. *)
Theorem other_callers_change_nothing (quizzes : list Quiz)
  (attempts : list QuizAttempt) (a : QuizAttempt) (cs : list Call) :
  reachable quizzes attempts ->
  In a attempts ->
  Forall (fun c => caller c <> att_StudentID a) cs ->
  In a (run_all quizzes cs attempts).
Proof.
  revert attempts. induction cs as [| c cs IH]; intros attempts R Hin Hcs;
    cbn; [exact Hin |].
  inversion Hcs as [| ? ? Hc Hcs']; subst.
  apply IH; [now constructor | | exact Hcs'].
  destruct (run_cases c R)
    as [-> | [(n & -> & _) | (before & x & after & x' & Hs & -> & Hx & _)]];
    trivial.
  - apply in_or_app. now left.
  - rewrite Hs in Hin. apply in_app_or in Hin.
    apply in_or_app. destruct Hin as [Hin | [<- | Hin]]; [now left | | ].
    + congruence.
    + right. now right.
Qed.

Lemma other_callers_change_nothing_witness :
  In Scenario.alice_open_attempt Scenario.answered
  /\ In Scenario.alice_open_attempt
       (run_all Scenario.quizzes
          [CallSubmit
             (mkSubmitAnswerRequest Scenario.attempt1_hex
                Scenario.question2_hex "1" 4) Scenario.bob
             (Scenario.ms 12000);
           CallComplete Scenario.attempt1_hex Scenario.bob
             (Scenario.ms 13000)]
          Scenario.answered).
Proof.
  assert (R : reachable Scenario.quizzes Scenario.answered)
    by (unfold Scenario.answered, Scenario.started; repeat constructor).
  assert (Hin : In Scenario.alice_open_attempt Scenario.answered)
    by (left; reflexivity).
  split; [exact Hin |].
  apply (@other_callers_change_nothing Scenario.quizzes Scenario.answered
           Scenario.alice_open_attempt _ R Hin).
  repeat constructor; discriminate.
Defined.

(** X5.  The identity of an attempt is fixed at creation, and attempts are
    never removed or reordered: after any calls the attempts first in the
    collection are the old ones, in the old order, each with the identifier,
    quiz, student, maximum score and start time it had. *)
Theorem attempts_append_only (quizzes : list Quiz)
  (attempts : list QuizAttempt) (cs : list Call) :
  reachable quizzes attempts ->
  exists newer,
    map identity (run_all quizzes cs attempts)
    = map identity attempts ++ newer.
Proof.
  revert attempts. induction cs as [| c cs IH]; intros attempts R; cbn.
  - exists []. now rewrite app_nil_r.
  - destruct (IH (run quizzes c attempts)) as (newer & E);
      [now constructor |].
    fold (run_all quizzes cs (run quizzes c attempts)). rewrite E.
    destruct (run_cases c R)
      as [-> | [(n & -> & _)
               | (before & x & after & x' & -> & -> & _ & _ & I1 & I2 & I3
                  & I4 & I5 & _)]].
    + now exists newer.
    + exists (identity n :: newer). rewrite map_app, <- app_assoc.
      reflexivity.
    + exists newer. f_equal. rewrite !map_app. cbn [map]. unfold identity.
      now rewrite I1, I2, I3, I4, I5.
Qed.

Lemma attempts_append_only_witness :
  exists newer,
    map identity
      (run_all Scenario.quizzes
         [CallComplete Scenario.attempt1_hex Scenario.alice
            (Scenario.ms 20500)]
         Scenario.answered)
    = map identity Scenario.answered ++ newer.
Proof.
  assert (R : reachable Scenario.quizzes Scenario.answered)
    by (unfold Scenario.answered, Scenario.started; repeat constructor).
  exact (@attempts_append_only Scenario.quizzes Scenario.answered _ R).
Defined.

(* ================================================================= *)
(** ** The recorded answers *)

Lemma answers_ok_fields quizzes (a b : QuizAttempt) :
  att_QuizID b = att_QuizID a -> att_Answers b = att_Answers a ->
  (att_CompletedAt b = None -> att_TimeTaken b = 0%Z) ->
  answers_ok quizzes a -> answers_ok quizzes b.
Proof.
  unfold answers_ok. intros -> -> H (quiz & Hq & ND & HF & _).
  exists quiz. now repeat split.
Qed.

Lemma answers_ok_run quizzes (c : Call) (attempts : list QuizAttempt) :
  reachable quizzes attempts ->
  Forall (answers_ok quizzes) attempts ->
  Forall (answers_ok quizzes) (run quizzes c attempts).
Proof.
  intros R OK. pose proof (reachable_store_ok R) as (ND & _ & _).
  destruct c as [courseService req studentID newID now
                | req studentID now | id studentID now]; cbn [run].
  - destruct (StartAttempt_cases quizzes courseService req studentID newID
                now attempts)
      as [[_ ->] | (quizID & quiz & _ & Hq & _ & _ & _ & _ & ->)]; trivial.
    cbn [snd]. apply Forall_app. split; trivial.
    constructor; [| constructor]. exists quiz. cbn.
    repeat split; trivial; constructor.
  - destruct (SubmitAnswer quizzes req studentID now attempts)
      as [[s r | s m] attempts'] eqn:E; cbn [snd].
    2: { apply SubmitAnswer_error in E. now subst. }
    pose proof (SubmitAnswer_success_time _ _ _ _ _ E) as Hnz.
    apply SubmitAnswer_success in E.
    destruct E as (attemptID & questionID & attempt & quiz & question
                   & _ & _ & Ha & Hc & Hq & Hn & He & Ht & Hne & _ & _ & ->).
    apply UpdateOne_Forall; trivial.
    intros a Hin Hid.
    assert (a = attempt) as ->.
    { apply find_by_id_owner in Ha; trivial.
      destruct (find_some _ _ Ha) as [Hin' Hid'].
      apply N.eqb_eq in Hid, Hid'.
      apply (NoDup_map_eq att_ID attempts); trivial. congruence. }
    rewrite Forall_forall in OK.
    destruct (OK attempt Hin) as (quiz' & Hq' & NDa & HF & Htt).
    assert (quiz' = quiz) as -> by congruence.
    exists quiz. cbn [push_answer att_QuizID att_Answers att_CompletedAt
                      att_TimeTaken].
    repeat split; trivial.
    + rewrite map_app. cbn [map ans_QuestionID]. apply NoDup_snoc; trivial.
      intros C. apply in_map_iff in C. destruct C as (x & Hx & Hin').
      assert (T : existsb (fun ans => N.eqb (ans_QuestionID ans) questionID)
                    (att_Answers attempt) = true).
      { apply existsb_exists. exists x. split; trivial. now apply N.eqb_eq. }
      congruence.
    + apply Forall_app. split; trivial. constructor; [| constructor].
      exists question. cbn [ans_QuestionID]. split; trivial.
      destruct (find_some _ _ Hn) as [_ Hqid]. apply N.eqb_eq in Hqid.
      unfold answer_ok. cbn. repeat split; trivial.
      exists (sub_Answer req). now repeat split.
  - destruct (CompleteAttempt_cases id studentID now attempts)
      as [[_ ->] | (objectID & attempt & _ & _ & _ & ->)]; trivial.
    apply UpdateOne_Forall; trivial.
    intros a Hin _. rewrite Forall_forall in OK.
    apply (@answers_ok_fields quizzes a); try reflexivity; [| now apply OK].
    cbn. discriminate.
Qed.

Lemma reachable_answers_ok quizzes attempts :
  reachable quizzes attempts -> Forall (answers_ok quizzes) attempts.
Proof.
  induction 1 as [| c attempts R IH]; [constructor |].
  now apply answers_ok_run.
Qed.

(** X6.  One answer per question. In a reachable collection the answers of an
    attempt are for distinct questions of its quiz, so there are never more
    answers than questions; each answer has a response time that is not zero
    and not above the time limit of its question, a non-empty text, the flag
    of the text comparison and the points [CalculateScore] gives for the
    question's base points, that time and that flag. *)
Theorem answers_one_per_question (quizzes : list Quiz)
  (attempts : list QuizAttempt) (a : QuizAttempt) :
  reachable quizzes attempts -> In a attempts ->
  exists quiz,
    Mongo.FindOne (fun q => N.eqb (quiz_ID q) (att_QuizID a)) quizzes
    = Some quiz
    /\ NoDup (map ans_QuestionID (att_Answers a))
    /\ (List.length (att_Answers a) <= List.length (quiz_Questions quiz))%nat
    /\ forall ans, In ans (att_Answers a) ->
         exists q, In q (quiz_Questions quiz) /\ answer_ok q ans.
Proof.
  intros R Hin. pose proof (reachable_answers_ok R) as OK.
  rewrite Forall_forall in OK.
  destruct (OK a Hin) as (quiz & Hq & ND & HF & _).
  exists quiz. rewrite Forall_forall in HF. repeat split; trivial.
  - rewrite <- (length_map ans_QuestionID),
      <- (length_map q_ID (quiz_Questions quiz)).
    apply NoDup_incl_length; trivial.
    intros i Hi. apply in_map_iff in Hi. destruct Hi as (ans & <- & Hans).
    destruct (HF ans Hans) as (q & Hfind & _).
    destruct (find_some _ _ Hfind) as [Hqin Hqid]. apply N.eqb_eq in Hqid.
    rewrite <- Hqid. now apply in_map.
  - intros ans Hans. destruct (HF ans Hans) as (q & Hfind & Hok).
    exists q. split; trivial. now destruct (find_some _ _ Hfind).
Qed.

Lemma answers_one_per_question_witness :
  exists quiz,
    Mongo.FindOne
      (fun q => N.eqb (quiz_ID q) (att_QuizID Scenario.alice_attempt))
      Scenario.quizzes = Some quiz
    /\ (List.length (att_Answers Scenario.alice_attempt)
        <= List.length (quiz_Questions quiz))%nat.
Proof.
  destruct (@answers_one_per_question Scenario.quizzes Scenario.alice_run
              Scenario.alice_attempt Scenario_alice_run_reachable
              (or_introl eq_refl)) as (quiz & Hq & _ & Hl & _).
  exists quiz. now split.
Defined.

(** X7.  The running total kept by [$inc] is the binary64 sum, in the order
    of recording, of the scores [CalculateScore] gives for the recorded
    answers and the base points of their questions; [CalculateTotalScore] on
    those answers returns that total rounded to two decimals. *)
Theorem CalculateTotalScore_of_recorded_answers (quizzes : list Quiz)
  (attempts : list QuizAttempt) (a : QuizAttempt) :
  reachable quizzes attempts -> In a attempts ->
  exists quiz,
    Mongo.FindOne (fun q => N.eqb (quiz_ID q) (att_QuizID a)) quizzes
    = Some quiz
    /\ att_TotalScore a
       = F64.sum (map score_of (map (scored quiz) (att_Answers a)))
    /\ CalculateTotalScore (map (scored quiz) (att_Answers a))
       = F64.div (GoMath.Round (F64.mul (att_TotalScore a) 100)) 100.
Proof.
  intros R Hin. pose proof (reachable_answers_ok R) as OK.
  pose proof (reachable_store_ok R) as (_ & SOK & _).
  rewrite Forall_forall in OK, SOK.
  destruct (OK a Hin) as (quiz & Hq & _ & HF & _).
  destruct (SOK a Hin) as (Ht & _).
  exists quiz. split; trivial.
  assert (E : att_TotalScore a
              = F64.sum (map score_of (map (scored quiz) (att_Answers a)))).
  { rewrite Ht, map_map. f_equal. apply map_ext_in.
    intros ans Hans. rewrite Forall_forall in HF.
    destruct (HF ans Hans) as (q & Hfind & (_ & _ & _ & _ & E)).
    unfold score_of, scored.
    cbn [sa_BasePoints sa_TimeToAnswer sa_IsCorrect]. now rewrite Hfind. }
  split; [exact E |].
  now rewrite CalculateTotalScore_rounds_sum, <- E.
Qed.

Lemma CalculateTotalScore_of_recorded_answers_witness :
  exists quiz,
    Mongo.FindOne
      (fun q => N.eqb (quiz_ID q) (att_QuizID Scenario.alice_attempt))
      Scenario.quizzes = Some quiz
    /\ att_TotalScore Scenario.alice_attempt
       = F64.sum
           (map score_of
              (map (scored quiz) (att_Answers Scenario.alice_attempt)))
    /\ CalculateTotalScore
         (map (scored quiz) (att_Answers Scenario.alice_attempt))
       = F64.div
           (GoMath.Round (F64.mul (att_TotalScore Scenario.alice_attempt) 100))
           100.
Proof.
  exact (@CalculateTotalScore_of_recorded_answers Scenario.quizzes
           Scenario.alice_run Scenario.alice_attempt
           Scenario_alice_run_reachable (or_introl eq_refl)).
Defined.

(* ================================================================= *)
(** ** Starting, reading and completing attempts *)

(** X8.  [StartAttempt] answers 201 only with a new attempt of the caller, in
    progress, without answers, with total score 0 and the sum of the quiz's
    base points, as [maxScore_of] adds them, as maximum score, appended to the
    collection; the quiz it
    shows has the questions of the stored quiz with every correct answer
    removed. Any other response leaves the collection as it was. *)
Theorem StartAttempt_effect (quizzes : list Quiz)
  (courseService : ObjectID -> string -> CourseCheck)
  (req : StartAttemptRequest) (studentID newID : ObjectID) (now : Time)
  (attempts : list QuizAttempt) :
  match StartAttempt quizzes courseService req studentID newID now attempts
  with
  | (Error _ _, attempts') => attempts' = attempts
  | (JSON s (attempt, shown), attempts') =>
      s = StatusCreated
      /\ attempts' = attempts ++ [attempt]
      /\ ~ In (att_ID attempt) (map att_ID attempts)
      /\ att_ID attempt = newID /\ att_StudentID attempt = studentID
      /\ att_Answers attempt = [] /\ att_TotalScore attempt = 0
      /\ att_StartedAt attempt = now /\ att_CompletedAt attempt = None
      /\ exists quiz,
           Mongo.FindOne
             (fun q => N.eqb (quiz_ID q) (att_QuizID attempt)) quizzes
           = Some quiz
           /\ quiz_Status quiz = StatusApproved
           /\ courseService studentID (quiz_CourseID quiz) = CourseAnswer true
           /\ att_MaxScore attempt = maxScore_of (quiz_Questions quiz)
           /\ quiz_ID shown = quiz_ID quiz
           /\ Forall2
                (fun q q' =>
                   q_CorrectAnswer q' = GoOther
                   /\ (q_ID q', q_Type q', q_Options q', q_TimeLimit q',
                       q_Points q', q_Order q')
                      = (q_ID q, q_Type q, q_Options q, q_TimeLimit q,
                         q_Points q, q_Order q))
                (quiz_Questions quiz) (quiz_Questions shown)
  end.
Proof.
  destruct (StartAttempt_cases quizzes courseService req studentID newID now
              attempts)
    as [[(s & m & He) Hs] | (quizID & quiz & _ & Hq & Ha & Hc & _ & Hni & E)].
  - destruct (StartAttempt _ _ _ _ _ _ _) as [[s' b | s' m'] attempts'];
      cbn in *; [discriminate He | exact Hs].
  - rewrite E. cbn [att_ID att_StudentID att_Answers att_TotalScore
                    att_StartedAt att_CompletedAt att_QuizID att_MaxScore].
    do 9 (split; [trivial |]).
    exists quiz. do 5 (split; [trivial |]).
    unfold redact. cbn [quiz_Questions].
    clear. generalize (quiz_Questions quiz) as l.
    induction l as [| q l IH]; cbn [map]; constructor; trivial.
    now split.
Qed.

Lemma unique_id_find (attempts : list QuizAttempt) (a : QuizAttempt)
  (p : QuizAttempt -> bool) :
  NoDup (map att_ID attempts) -> In a attempts ->
  find (fun x => N.eqb (att_ID x) (att_ID a) && p x) attempts
  = if p a then Some a else None.
Proof.
  intros ND Hin.
  destruct (find _ attempts) as [x |] eqn:F.
  - destruct (find_some _ _ F) as [Hx Hc].
    apply andb_true_iff in Hc. destruct Hc as [Hid Hp].
    apply N.eqb_eq in Hid.
    assert (x = a) as -> by now apply (NoDup_map_eq att_ID attempts).
    now rewrite Hp.
  - pose proof (find_none _ _ F a Hin) as C. cbn in C.
    rewrite N.eqb_refl in C. cbn in C. now rewrite C.
Qed.

(** X9.  [GetAttemptByID] shows an attempt to its owner only: for the
    identifier of a stored attempt it answers 200 with that attempt when the
    caller is its student, and 404 otherwise. *)
Theorem GetAttemptByID_owner (quizzes : list Quiz)
  (attempts : list QuizAttempt) (a : QuizAttempt) (id : string)
  (studentID : ObjectID) :
  reachable quizzes attempts -> In a attempts ->
  ObjectIDFromHex id = Some (att_ID a) ->
  GetAttemptByID id studentID attempts
  = if N.eqb (att_StudentID a) studentID then JSON StatusOK a
    else Error StatusNotFound "Attempt not found".
Proof.
  intros R Hin Hhex. pose proof (reachable_store_ok R) as (ND & _ & _).
  unfold GetAttemptByID, Mongo.FindOne. rewrite Hhex.
  rewrite (@unique_id_find attempts a
             (fun x => N.eqb (att_StudentID x) studentID) ND Hin).
  now destruct (N.eqb (att_StudentID a) studentID).
Qed.

Lemma GetAttemptByID_owner_witness :
  In Scenario.alice_open_attempt Scenario.answered
  /\ GetAttemptByID Scenario.attempt1_hex Scenario.alice Scenario.answered
     = JSON StatusOK Scenario.alice_open_attempt
  /\ GetAttemptByID Scenario.attempt1_hex Scenario.bob Scenario.answered
     = Error StatusNotFound "Attempt not found".
Proof.
  assert (R : reachable Scenario.quizzes Scenario.answered)
    by (unfold Scenario.answered, Scenario.started; repeat constructor).
  assert (Hin : In Scenario.alice_open_attempt Scenario.answered)
    by (left; reflexivity).
  split; [exact Hin |]. split.
  - exact (@GetAttemptByID_owner Scenario.quizzes Scenario.answered
             Scenario.alice_open_attempt Scenario.attempt1_hex Scenario.alice
             R Hin eq_refl).
  - exact (@GetAttemptByID_owner Scenario.quizzes Scenario.answered
             Scenario.alice_open_attempt Scenario.attempt1_hex Scenario.bob
             R Hin eq_refl).
Defined.

Lemma started_later_asym (a b : QuizAttempt) :
  started_later a b = true -> started_later b a = false.
Proof. unfold started_later. rewrite Z.ltb_lt, Z.ltb_ge. lia. Qed.

Lemma not_started_later_trans (x y z : QuizAttempt) :
  started_later y x = false -> started_later z y = false ->
  started_later z x = false.
Proof. unfold started_later. rewrite !Z.ltb_ge. lia. Qed.

(** X10.  [GetMyAttempts] returns exactly the attempts of the caller, each
    once, the most recently started first. *)
Theorem GetMyAttempts_sorted (studentID : ObjectID)
  (attempts : list QuizAttempt) :
  exists mine,
    GetMyAttempts studentID attempts = JSON StatusOK mine
    /\ Permutation mine
         (List.filter (fun a => N.eqb (att_StudentID a) studentID) attempts)
    /\ (forall a, In a mine <-> In a attempts /\ att_StudentID a = studentID)
    /\ StronglySorted
         (fun a b => (att_StartedAt b <= att_StartedAt a)%Z) mine.
Proof.
  eexists. split; [reflexivity |].
  pose proof (sort_perm started_later
                (Mongo.Find (fun a => N.eqb (att_StudentID a) studentID)
                   attempts)) as P.
  split; [exact P | split].
  - intros a. split.
    + intros H. apply (Permutation_in _ P) in H. apply filter_In in H.
      now rewrite N.eqb_eq in H.
    + intros [H E]. apply (Permutation_in _ (Permutation_sym P)).
      apply filter_In. now rewrite N.eqb_eq.
  - clear P.
    pose proof (sort_sorted started_later started_later_asym
                  not_started_later_trans
                  (Mongo.Find (fun a => N.eqb (att_StudentID a) studentID)
                     attempts)) as SS.
    revert SS. generalize (Mongo.sort started_later
                 (Mongo.Find (fun a => N.eqb (att_StudentID a) studentID)
                    attempts)) as l.
    intros l SS. induction SS as [| x l SS IH Hx]; constructor; trivial.
    eapply Forall_impl; [| exact Hx]. intros y Hy. cbv beta in Hy.
    unfold started_later in Hy. now apply Z.ltb_ge in Hy.
Qed.

(** The whole seconds of a non-negative duration. *)
Lemma whole_seconds_bounds (d : Duration) :
  (0 <= d)%Z ->
  (0 <= Z.quot d GoTime.Second
   /\ Z.quot d GoTime.Second * GoTime.Second <= d
      < (Z.quot d GoTime.Second + 1) * GoTime.Second)%Z.
Proof.
  intros H. rewrite Z.quot_div_nonneg by (trivial; reflexivity).
  pose proof (Z.div_mod d GoTime.Second) as E.
  pose proof (Z.mod_pos_bound d GoTime.Second) as B.
  assert (S : (0 < GoTime.Second)%Z) by reflexivity.
  specialize (B S). assert (NZ : GoTime.Second <> 0%Z) by discriminate.
  specialize (E NZ). pose proof (Z.div_pos d GoTime.Second H S). nia.
Qed.

(** X11.  The time taken is the elapsed whole seconds.  In a reachable
    collection an attempt in progress has time taken 0, and a completed
    attempt has [int(d.Seconds())] for the difference [d] of its completion
    and start stamps, as [Time.Sub] gives it; when the completion is not
    before the start and less than [seconds_limit] (2^24) seconds after it,
    this is the whole seconds of the difference: a non-negative number [n]
    with [n] seconds at most, and less than [n + 1] seconds, between the two
    stamps. *)
Theorem time_taken_is_elapsed_seconds (quizzes : list Quiz)
  (attempts : list QuizAttempt) (a : QuizAttempt) :
  reachable quizzes attempts -> In a attempts ->
  match att_CompletedAt a with
  | None => att_TimeTaken a = 0%Z
  | Some t =>
      att_TimeTaken a
      = GoMath.int_of_float64
          (GoTime.Seconds (GoTime.Sub t (att_StartedAt a)))
      /\ ((0 <= t - att_StartedAt a < seconds_limit * GoTime.Second)%Z ->
          (att_TimeTaken a = Z.quot (t - att_StartedAt a) GoTime.Second
           /\ 0 <= att_TimeTaken a
           /\ att_TimeTaken a * GoTime.Second <= t - att_StartedAt a
              < (att_TimeTaken a + 1) * GoTime.Second)%Z)
  end.
Proof.
  intros R. revert a.
  induction R as [| c attempts R IH]; intros a Hin; [destruct Hin |].
  assert (Keep : forall x, In x attempts ->
            match att_CompletedAt x with
            | None => att_TimeTaken x = 0%Z
            | Some t =>
                att_TimeTaken x
                = GoMath.int_of_float64
                    (GoTime.Seconds (GoTime.Sub t (att_StartedAt x)))
            end).
  { intros x Hx. specialize (IH x Hx).
    destruct (att_CompletedAt x); [now destruct IH | exact IH]. }
  assert (Main : match att_CompletedAt a with
                 | None => att_TimeTaken a = 0%Z
                 | Some t =>
                     att_TimeTaken a
                     = GoMath.int_of_float64
                         (GoTime.Seconds (GoTime.Sub t (att_StartedAt a)))
                 end).
  { destruct (run_cases c R)
      as [E | [(n & E & _ & _ & Hc & _ & _ & _ & Ht)
              | (before & x & after & x' & Hs & E & _ & Hx & _ & _ & _ & _
                 & _ & Hx')]];
      rewrite E in Hin.
    - now apply Keep.
    - apply in_app_or in Hin. destruct Hin as [Hin | [<- | []]];
        [now apply Keep |].
      now rewrite Hc.
    - assert (Kx : att_TimeTaken x = 0%Z).
      { specialize (Keep x). rewrite Hx in Keep. apply Keep.
        rewrite Hs. apply in_or_app. right. now left. }
      apply in_app_or in Hin. destruct Hin as [Hin | [<- | Hin]].
      + apply Keep. rewrite Hs. apply in_or_app. now left.
      + destruct Hx' as [(answer & -> & _) | ->].
        * unfold push_answer. cbn [att_CompletedAt att_TimeTaken].
          now rewrite Hx.
        * reflexivity.
      + apply Keep. rewrite Hs. apply in_or_app. right. now right. }
  destruct (att_CompletedAt a) as [t |]; [| exact Main].
  split; [exact Main |]. intros [H0 H1].
  destruct (@timeTaken_whole_seconds t (att_StartedAt a)) as [_ E]; [lia |].
  rewrite Main, E. split; [reflexivity |].
  now apply whole_seconds_bounds.
Qed.

Lemma time_taken_is_elapsed_seconds_witness :
  In Scenario.alice_attempt Scenario.alice_run
  /\ att_CompletedAt Scenario.alice_attempt = Some (Scenario.ms 20500)
  /\ att_TimeTaken Scenario.alice_attempt
     = Z.quot (Scenario.ms 20500 - att_StartedAt Scenario.alice_attempt)
         GoTime.Second
  /\ (0 <= att_TimeTaken Scenario.alice_attempt)%Z.
Proof.
  assert (Hin : In Scenario.alice_attempt Scenario.alice_run)
    by (left; reflexivity).
  pose proof (@time_taken_is_elapsed_seconds Scenario.quizzes
                Scenario.alice_run Scenario.alice_attempt
                Scenario_alice_run_reachable Hin) as [E B].
  split; [exact Hin |]. split; [reflexivity |].
  destruct B as (B1 & B2 & _);
    [vm_compute; split; [discriminate | reflexivity] |].
  split; [exact B1 | exact B2].
Defined.

(* ================================================================= *)
(** ** Ranks and percentages *)

Lemma filter_length_lt {A : Type} (f g : A -> bool) (l : list A) (a : A) :
  (forall x, g x = true -> f x = true) ->
  In a l -> f a = true -> g a = false ->
  (List.length (List.filter g l) < List.length (List.filter f l))%nat.
Proof.
  intros Hgf Hin Hf Hg.
  assert (Le : forall l', (List.length (List.filter g l')
                           <= List.length (List.filter f l'))%nat).
  { induction l' as [| x l' IH]; cbn; [lia |].
    destruct (g x) eqn:G.
    - rewrite (Hgf x G). cbn. lia.
    - destruct (f x); cbn; lia. }
  induction l as [| x l IH]; [destruct Hin |].
  cbn. destruct Hin as [-> | Hin].
  - rewrite Hf, Hg. cbn. specialize (Le l). lia.
  - specialize (IH Hin). destruct (g x) eqn:G.
    + rewrite (Hgf x G). cbn. lia.
    + destruct (f x); cbn; lia.
Qed.

Lemma betterScoreFilter_irrefl (objectID : ObjectID) (a : QuizAttempt) :
  betterScoreFilter objectID a a = false.
Proof.
  unfold betterScoreFilter.
  assert (E : Qlt_bool (att_TotalScore a) (att_TotalScore a) = false)
    by (apply Qlt_bool_false; lra).
  rewrite E, Z.ltb_irrefl, andb_false_r. apply andb_false_r.
Qed.

(** X12.  [GetMyRank], for a well-formed quiz identifier, answers 404 exactly
    when the caller has no completed attempt for the quiz; otherwise it
    answers 200 with the score, maximum score, percentage and time taken of
    one of the caller's completed attempts for the quiz, and a rank from 1 to
    the number of participants it reports. *)
Theorem GetMyRank_bounds (quizID : string) (objectID studentID : ObjectID)
  (attempts : list QuizAttempt) :
  ObjectIDFromHex quizID = Some objectID ->
  match GetMyRank quizID studentID attempts with
  | JSON s r =>
      s = StatusOK
      /\ (1 <= mr_rank r <= mr_total_participants r)%Z
      /\ exists a,
           In a attempts /\ completed_for objectID a = true
           /\ att_StudentID a = studentID
           /\ mr_score r = att_TotalScore a
           /\ mr_max_score r = att_MaxScore a
           /\ mr_percentage r = percentage_of a
           /\ mr_time_taken r = att_TimeTaken a
  | Error s m =>
      s = StatusNotFound
      /\ forall a, In a attempts -> att_StudentID a = studentID ->
                   completed_for objectID a = false
  end.
Proof.
  intros Hhex. unfold GetMyRank. rewrite Hhex.
  destruct (best_attempt objectID studentID attempts) as [best |] eqn:Hb.
  - destruct (best_attempt_spec _ _ _ Hb) as (Bin & Bc & Bs & _).
    split; [reflexivity |]. cbn [mr_rank mr_total_participants].
    split.
    + unfold Mongo.CountDocuments.
      pose proof (@filter_length_lt _ (completed_for objectID)
                    (betterScoreFilter objectID best) attempts best) as L.
      assert (Hgf : forall x, betterScoreFilter objectID best x = true ->
                              completed_for objectID x = true).
      { intros x Hx. unfold betterScoreFilter in Hx.
        now apply andb_true_iff in Hx. }
      specialize (L Hgf Bin Bc (betterScoreFilter_irrefl objectID best)).
      lia.
    + exists best. now repeat split.
  - split; [reflexivity |]. intros a Hin Hs.
    destruct (completed_for objectID a) eqn:Hc; trivial. exfalso.
    unfold best_attempt in Hb.
    set (f := fun a => completed_for objectID a
                       && N.eqb (att_StudentID a) studentID) in *.
    assert (I : In a (Mongo.sort outranks (Mongo.Find f attempts))).
    { apply (Permutation_in _ (Permutation_sym (sort_perm outranks _))).
      apply filter_In. split; trivial. unfold f. rewrite Hc. cbn.
      now apply N.eqb_eq. }
    destruct (Mongo.sort outranks (Mongo.Find f attempts));
      [contradiction | discriminate].
Qed.

Lemma GetMyRank_bounds_witness :
  exists r,
    GetMyRank Scenario.quiz1_hex Scenario.bob Scenario.tie_run
    = JSON StatusOK r
    /\ (1 <= mr_rank r <= mr_total_participants r)%Z.
Proof.
  pose proof (@GetMyRank_bounds Scenario.quiz1_hex 161%N Scenario.bob
                Scenario.tie_run eq_refl) as H.
  destruct (GetMyRank Scenario.quiz1_hex Scenario.bob Scenario.tie_run)
    as [s r | s m] eqn:E.
  - exists r. destruct H as (-> & B & _). split; [reflexivity | exact B].
  - exfalso. vm_compute in E. discriminate E.
Defined.

(** In a well-formed collection over quizzes without negative base points,
    whose base points sum up to at most [points_limit], the total score of an
    attempt lies between 0 and its maximum score. *)
Lemma store_score_range quizzes attempts a :
  points_nonneg quizzes -> points_bounded quizzes ->
  store_ok quizzes attempts -> In a attempts ->
  0 <= att_TotalScore a /\ att_TotalScore a <= att_MaxScore a.
Proof.
  intros Hp Hb (_ & OK & _) Hin.
  rewrite Forall_forall in OK.
  destruct (OK a Hin) as (Et & quiz & Hq & _ & Em & ND & HF).
  destruct (find_some _ _ Hq) as [Hquiz _].
  rewrite Et, Em. apply answered_le_max; trivial.
  - intros q Hq'. now apply (Hp quiz).
  - now apply Hb.
Qed.

Lemma reachable_score_range quizzes attempts a :
  points_nonneg quizzes -> points_bounded quizzes ->
  reachable quizzes attempts -> In a attempts ->
  0 <= att_TotalScore a /\ att_TotalScore a <= att_MaxScore a.
Proof.
  intros Hp Hb R. apply (@store_score_range quizzes); trivial.
  now apply reachable_store_ok.
Qed.

Lemma percentage_of_range (a : QuizAttempt) :
  0 <= att_TotalScore a -> att_TotalScore a <= att_MaxScore a ->
  0 <= percentage_of a /\ percentage_of a <= 100.
Proof.
  intros H0 H1. unfold percentage_of.
  destruct (Qlt_bool 0 (att_MaxScore a)) eqn:E;
    [| split; [apply Qle_refl | discriminate]].
  apply Qlt_bool_iff in E.
  set (t := att_TotalScore a) in *. set (m := att_MaxScore a) in *.
  assert (D0 : 0 <= t / m).
  { unfold Qdiv. apply Qmult_le_0_compat; trivial.
    apply Qlt_le_weak, Qinv_lt_0_compat, E. }
  assert (D1 : t / m <= 1).
  { apply Qle_shift_div_r; trivial. lra. }
  unfold F64.mul, F64.div.
  assert (R0 : 0 <= F64.rnd (t / m)) by now apply rnd_nonneg.
  assert (R1 : F64.rnd (t / m) <= 1).
  { apply Qle_trans with (F64.rnd (inject_Z 1)); [now apply rnd_mono |].
    rewrite rnd_Z by discriminate. apply Qle_refl. }
  split.
  - apply rnd_nonneg. lra.
  - apply Qle_trans with (F64.rnd (inject_Z 100)).
    + apply rnd_mono. change (inject_Z 100) with 100. lra.
    + rewrite rnd_Z by discriminate. apply Qle_refl.
Qed.

Lemma Forall2_In_r {A B : Type} (M : A -> B -> Prop) (l : list A)
  (l' : list B) (e : B) :
  Forall2 M l l' -> In e l' -> exists a, In a l /\ M a e.
Proof.
  induction 1 as [| a e' l l' Hae F IH]; [intros [] |].
  intros [<- | Hin].
  - exists a. split; [now left | trivial].
  - destruct (IH Hin) as (a' & Ha' & He). exists a'.
    split; [now right | trivial].
Qed.

(** X13.  The percentages the quiz leaderboard and the rank of a student show
    lie between 0 and 100, and the scores between 0 and the maximum score,
    when the attempts are reachable, no question has negative base points
    and the base points of every quiz sum up to at most [points_limit]. *)
Theorem percentages_in_range (quizzes : list Quiz) (users : list User)
  (quizID : string) (studentID : ObjectID) (attempts : list QuizAttempt) :
  points_nonneg quizzes -> points_bounded quizzes ->
  reachable quizzes attempts ->
  (forall lb e,
      GetQuizLeaderboard users quizID attempts = JSON StatusOK lb ->
      In e (lb_leaderboard lb) ->
      0 <= le_Score e /\ le_Score e <= le_MaxScore e
      /\ 0 <= le_Percentage e /\ le_Percentage e <= 100)
  /\ (forall r,
        GetMyRank quizID studentID attempts = JSON StatusOK r ->
        0 <= mr_score r /\ mr_score r <= mr_max_score r
        /\ 0 <= mr_percentage r /\ mr_percentage r <= 100).
Proof.
  intros Hp Hbd R. split.
  - intros lb e. unfold GetQuizLeaderboard.
    destruct (ObjectIDFromHex quizID) as [objectID |]; [| discriminate].
    intros [= <-]. cbn [lb_leaderboard]. intros Hin.
    assert (Hc : forall a, In a (ranked_attempts objectID attempts) ->
                           exists t, att_CompletedAt a = Some t).
    { intros a Ha. now destruct (ranked_attempts_completed _ _ _ Ha). }
    pose proof (leaderboard_loop_entries users _ 1 Hc) as F.
    destruct (@Forall2_In_r _ _ _ _ _ _ F Hin) as (a & Ha & _ & Es & Em & Ep & _).
    apply filter_In in Ha. destruct Ha as [Ha _].
    destruct (ranked_attempts_completed _ _ _ Ha) as [Ha' _].
    destruct (@reachable_score_range _ _ a Hp Hbd R Ha') as [H0 H1].
    destruct (@percentage_of_range a H0 H1) as [P0 P1].
    rewrite Es, Em, Ep. tauto.
  - intros r. unfold GetMyRank.
    destruct (ObjectIDFromHex quizID) as [objectID |]; [| discriminate].
    destruct (best_attempt objectID studentID attempts) as [best |] eqn:Hb;
      [| discriminate].
    intros [= <-]. cbn [mr_score mr_max_score mr_percentage].
    destruct (best_attempt_spec _ _ _ Hb) as (Bin & _).
    destruct (@reachable_score_range _ _ best Hp Hbd R Bin) as [H0 H1].
    destruct (@percentage_of_range best H0 H1) as [P0 P1]. tauto.
Qed.

Lemma percentages_in_range_witness :
  exists lb e r,
    GetQuizLeaderboard Scenario.users Scenario.quiz1_hex Scenario.alice_run
    = JSON StatusOK lb
    /\ In e (lb_leaderboard lb)
    /\ 0 <= le_Percentage e /\ le_Percentage e <= 100
    /\ GetMyRank Scenario.quiz1_hex Scenario.alice Scenario.alice_run
       = JSON StatusOK r
    /\ 0 <= mr_percentage r /\ mr_percentage r <= 100.
Proof.
  destruct (@percentages_in_range Scenario.quizzes Scenario.users
              Scenario.quiz1_hex Scenario.alice Scenario.alice_run
              Scenario_points_nonneg Scenario_points_bounded
              Scenario_alice_run_reachable)
    as [L M].
  destruct (GetQuizLeaderboard Scenario.users Scenario.quiz1_hex
              Scenario.alice_run) as [s lb | s m] eqn:E;
    [| exfalso; vm_compute in E; discriminate E].
  assert (Es : s = StatusOK)
    by (pose proof E as E2; vm_compute in E2; injection E2 as E2 _;
        symmetry; exact E2).
  subst s.
  destruct (lb_leaderboard lb) as [| e es] eqn:El.
  { exfalso. vm_compute in E. injection E as <-. discriminate El. }
  destruct (GetMyRank Scenario.quiz1_hex Scenario.alice Scenario.alice_run)
    as [s r | s m] eqn:E';
    [| exfalso; vm_compute in E'; discriminate E'].
  assert (Es : s = StatusOK)
    by (pose proof E' as E2; vm_compute in E2; injection E2 as E2 _;
        symmetry; exact E2).
  subst s.
  exists lb, e, r.
  assert (Hin : In e (lb_leaderboard lb)) by (rewrite El; now left).
  destruct (L lb e eq_refl Hin) as (_ & _ & P0 & P1).
  destruct (M r eq_refl) as (_ & _ & Q0 & Q1).
  repeat split; trivial.
Defined.

(* ================================================================= *)
(** ** The global leaderboard *)




Lemma Forall2_map_eq {A B C : Type} (f : A -> C) (g : B -> C)
  (M : A -> B -> Prop) (l : list A) (l' : list B) :
  (forall a b, M a b -> g b = f a) ->
  Forall2 M l l' -> map g l' = map f l.
Proof.
  intros H. induction 1 as [| a b l l' Hab F IH]; cbn; trivial.
  now rewrite IH, (H a b Hab).
Qed.




Lemma StronglySorted_impl {A : Type} (R S : A -> A -> Prop) (l : list A) :
  (forall a b, R a b -> S a b) -> StronglySorted R l -> StronglySorted S l.
Proof.
  intros H. induction 1 as [| x l SS IH Hx]; constructor; trivial.
  eapply Forall_impl; [| exact Hx]. intros y. apply H.
Qed.

















(* ================================================================= *)
(** ** The quiz handlers *)

Lemma create_questions_spec (newObjectID : nat -> ObjectID) (i : nat)
  (qs : list CreateQuestionRequest) (questions : list QuestionDocument) :
  create_questions newObjectID i qs = inr questions ->
  Forall2
    (fun r q =>
       qd_QuestionText q = cq_QuestionText r /\ qd_Type q = cq_Type r
       /\ qd_Options q = cq_Options r
       /\ qd_CorrectAnswer q = GoString (cq_CorrectAnswer r)
       /\ qd_Points q = cq_Points r)
    qs questions
  /\ forall j q, nth_error questions j = Some q ->
       qd_ID q = newObjectID (i + j)%nat /\ question_ok (i + j) q.
Proof.
  revert i questions.
  induction qs as [| r qs IH]; intros i questions; cbn [create_questions].
  - intros [= <-]. split; [constructor |]. intros [| j] q; discriminate.
  - destruct (negb (String.eqb (cq_Type r) QuestionTypeTrueFalse)
              && negb (String.eqb (cq_Type r) QuestionTypeMultipleChoice))
      eqn:T; [discriminate |].
    destruct (String.eqb (cq_Type r) QuestionTypeMultipleChoice
              && (List.length (cq_Options r) <? 2)%nat) eqn:O;
      [discriminate |].
    destruct (create_questions newObjectID (S i) qs) as [msg | l] eqn:E;
      [discriminate |].
    intros [= <-]. destruct (IH _ _ E) as [F N]. split.
    + constructor; [now repeat split | exact F].
    + intros [| j] q; cbn [nth_error].
      * intros [= <-]. rewrite Nat.add_0_r. split; [reflexivity |].
        unfold question_ok.
        cbn [qd_Order qd_TimeLimit qd_Type qd_Options qd_CorrectAnswer].
        split; [reflexivity |]. split; [reflexivity |].
        split; [| now eexists].
        destruct (String.eqb (cq_Type r) QuestionTypeTrueFalse) eqn:TF.
        -- left. now apply String.eqb_eq.
        -- right.
           destruct (String.eqb (cq_Type r) QuestionTypeMultipleChoice)
             eqn:MC; [| discriminate T].
           split; [now apply String.eqb_eq |].
           cbn [andb] in O. now apply Nat.ltb_ge in O.
      * intros H. rewrite Nat.add_succ_r. apply (N j q H).
Qed.

Lemma QuizCollection_InsertOne_some (d : QuizDocument)
  (c c' : list QuizDocument) :
  QuizCollection.InsertOne d c = Some c' ->
  c' = c ++ [d] /\ ~ In (qz_ID d) (map qz_ID c).
Proof.
  unfold QuizCollection.InsertOne.
  destruct (existsb _ c) eqn:E; [discriminate |].
  intros [= <-]. split; trivial. intros Hin.
  apply in_map_iff in Hin. destruct Hin as (x & Hx & Hin).
  assert (C : existsb (fun x => N.eqb (qz_ID x) (qz_ID d)) c = true).
  { apply existsb_exists. exists x. split; trivial. now apply N.eqb_eq. }
  congruence.
Qed.

Lemma create_quiz_failures_nil (req : CreateQuizRequest) :
  create_quiz_failures req = [] ->
  cr_Title req <> "" /\ cr_Category req <> ""
  /\ cr_DifficultyLevel req <> "" /\ cr_CourseID req <> ""
  /\ exists r rs, cr_Questions req = Some (r :: rs).
Proof.
  unfold create_quiz_failures.
  destruct (String.eqb (cr_Title req) "") eqn:E1; [discriminate |].
  destruct (String.eqb (cr_Category req) "") eqn:E2; [discriminate |].
  destruct (String.eqb (cr_DifficultyLevel req) "") eqn:E3; [discriminate |].
  destruct (String.eqb (cr_CourseID req) "") eqn:E4; [discriminate |].
  destruct (cr_Questions req) as [[| r rs] |]; try discriminate.
  intros _. apply String.eqb_neq in E1, E2, E3, E4.
  repeat split; trivial. now exists r, rs.
Qed.

(** X16.  [CreateQuiz] answers 201 only with a new quiz appended to the
    collection under an identifier not in use: its creator is the caller, its
    status is pending when the caller's role is student and approved for every
    other role, it has not been reviewed, and it has one question per question
    of the request, in the same order, numbered from 1, each with time limit
    15, a valid type, at least two options when it is multiple choice, and the
    correct answer of the request stored as a string. Any other response
    leaves the collection as it was. *)
Theorem CreateQuiz_effect (req : CreateQuizRequest) (userID : ObjectID)
  (role : string) (newObjectID : nat -> ObjectID) (createdAt updatedAt : Time)
  (quizzes : list QuizDocument) :
  match CreateQuiz req userID role newObjectID createdAt updatedAt quizzes
  with
  | (Error _ _, quizzes') => quizzes' = quizzes
  | (JSON s quiz, quizzes') =>
      s = StatusCreated
      /\ quizzes' = quizzes ++ [quiz]
      /\ ~ In (qz_ID quiz) (map qz_ID quizzes)
      /\ qz_CreatorID quiz = userID /\ qz_CreatorRole quiz = role
      /\ qz_Status quiz
         = (if String.eqb role RoleStudent then StatusPending
            else StatusApproved)
      /\ qz_ApprovedAt quiz = None
      /\ qz_CourseID quiz = cr_CourseID req
      /\ quiz_ok quiz
      /\ exists reqQuestions,
           cr_Questions req = Some reqQuestions
           /\ qz_ID quiz = newObjectID (List.length reqQuestions)
           /\ Forall2
                (fun r q =>
                   qd_QuestionText q = cq_QuestionText r
                   /\ qd_Type q = cq_Type r
                   /\ qd_Options q = cq_Options r
                   /\ qd_CorrectAnswer q = GoString (cq_CorrectAnswer r)
                   /\ qd_Points q = cq_Points r)
                reqQuestions (qz_Questions quiz)
           /\ forall j q, nth_error (qz_Questions quiz) j = Some q ->
                          qd_ID q = newObjectID j
  end.
Proof.
  unfold CreateQuiz.
  destruct (create_quiz_failures req) eqn:V; [| reflexivity].
  apply create_quiz_failures_nil in V.
  destruct V as (V1 & V2 & V3 & V4 & r & rs & Hq). rewrite Hq. cbv zeta.
  destruct (create_questions newObjectID 0 (r :: rs)) as [msg | questions]
    eqn:E; [reflexivity |].
  destruct (QuizCollection.InsertOne _ quizzes) as [quizzes' |] eqn:I;
    [| reflexivity].
  apply QuizCollection_InsertOne_some in I. destruct I as [-> Hni].
  destruct (create_questions_spec _ _ _ E) as [F N].
  cbn [qz_ID] in Hni.
  cbn [qz_ID qz_CreatorID qz_CreatorRole qz_Status qz_ApprovedAt qz_CourseID
       qz_Questions].
  do 8 (split; [trivial |]). split.
  - unfold quiz_ok.
    cbn [qz_Questions qz_ApprovedAt qz_Status qz_CreatorRole qz_ApprovedBy
         qz_Title qz_Category qz_DifficultyLevel qz_CourseID].
    split; [inversion F; discriminate |].
    split; [intros i q H; now destruct (N i q H) |].
    now repeat split.
  - exists (r :: rs). do 3 (split; [trivial |]).
    intros j q H. now destruct (N j q H).
Qed.

Lemma find_split {A : Type} (f : A -> bool) (l : list A) (a : A) :
  find f l = Some a ->
  exists l1 l2,
    l = l1 ++ a :: l2 /\ f a = true /\ Forall (fun x => f x = false) l1.
Proof.
  induction l as [| x l IH]; cbn; [discriminate |].
  destruct (f x) eqn:E.
  - intros [= <-]. exists [], l. now repeat split.
  - intros H. destruct (IH H) as (l1 & l2 & -> & Ha & F).
    exists (x :: l1), l2. repeat split; trivial. now constructor.
Qed.

Lemma UpdateOne_at {A : Type} (f : A -> bool) (u : A -> A)
  (l1 l2 : list A) (a : A) :
  Forall (fun x => f x = false) l1 -> f a = true ->
  Mongo.UpdateOne f u (l1 ++ a :: l2) = l1 ++ u a :: l2.
Proof.
  intros F Ha. induction F as [| x l1 Hx F IH]; cbn.
  - now rewrite Ha.
  - now rewrite Hx, IH.
Qed.

Lemma DeleteOne_at (f : QuizDocument -> bool) (l1 l2 : list QuizDocument)
  (a : QuizDocument) :
  Forall (fun x => f x = false) l1 -> f a = true ->
  QuizCollection.DeleteOne f (l1 ++ a :: l2) = l1 ++ l2.
Proof.
  intros F Ha. induction F as [| x l1 Hx F IH]; cbn.
  - now rewrite Ha.
  - now rewrite Hx, IH.
Qed.

Lemma find_by_quiz_id (objectID : ObjectID) (quizzes : list QuizDocument)
  (d : QuizDocument) :
  Mongo.FindOne (fun x => N.eqb (qz_ID x) objectID) quizzes = Some d ->
  exists before after,
    quizzes = before ++ d :: after /\ qz_ID d = objectID
    /\ Forall (fun x => qz_ID x <> qz_ID d) before
    /\ Forall (fun x => N.eqb (qz_ID x) objectID = false) before.
Proof.
  intros H. destruct (find_split _ _ H) as (l1 & l2 & -> & Ha & F).
  apply N.eqb_eq in Ha. exists l1, l2. repeat split; trivial.
  eapply Forall_impl; [| exact F]. intros x Hx. cbv beta in Hx.
  apply N.eqb_neq in Hx. congruence.
Qed.

(** X17.  [ApproveQuiz] answers 200 only for a status that is approved or
    rejected and changes the first quiz with the identifier, whatever its
    status was: its status becomes the requested one, its approver the caller,
    its approval and update stamps [now]; every other field, and every other
    quiz, stays as it was. Any other response leaves the collection as it was. *)
Theorem ApproveQuiz_effect (id : string) (req : ApproveQuizRequest)
  (approverID : ObjectID) (now : Time) (quizzes : list QuizDocument) :
  match ApproveQuiz id req approverID now quizzes with
  | (Error _ _, quizzes') => quizzes' = quizzes
  | (JSON s _, quizzes') =>
      s = StatusOK
      /\ (ap_Status req = StatusApproved \/ ap_Status req = StatusRejected)
      /\ exists before d d' after,
           quizzes = before ++ d :: after
           /\ quizzes' = before ++ d' :: after
           /\ ObjectIDFromHex id = Some (qz_ID d)
           /\ Forall (fun x => qz_ID x <> qz_ID d) before
           /\ qz_Status d' = ap_Status req
           /\ qz_ApprovedBy d' = approverID
           /\ qz_ApprovedAt d' = Some now
           /\ qz_UpdatedAt d' = now
           /\ (qz_ID d', qz_Title d', qz_Description d', qz_Category d',
               qz_DifficultyLevel d', qz_CourseID d', qz_CreatorID d',
               qz_CreatorRole d', qz_Questions d', qz_CreatedAt d')
              = (qz_ID d, qz_Title d, qz_Description d, qz_Category d,
                 qz_DifficultyLevel d, qz_CourseID d, qz_CreatorID d,
                 qz_CreatorRole d, qz_Questions d, qz_CreatedAt d)
  end.
Proof.
  unfold ApproveQuiz.
  destruct (ObjectIDFromHex id) as [objectID |]; [| reflexivity].
  destruct (String.eqb (ap_Status req) ""); [reflexivity |].
  destruct (String.eqb (ap_Status req) StatusApproved) eqn:A;
    destruct (String.eqb (ap_Status req) StatusRejected) eqn:R;
    cbn [negb andb]; try reflexivity.
  all: destruct (Mongo.FindOne _ quizzes) as [d |] eqn:F; [| reflexivity].
  all: destruct (find_by_quiz_id _ _ F) as (before & after & -> & Hid & NE & FF).
  all: split; [reflexivity |].
  all: split; [first [left; now apply String.eqb_eq
                     | right; now apply String.eqb_eq] |].
  all: exists before, d, (set_status (ap_Status req) approverID now d), after.
  all: rewrite UpdateOne_at by (trivial; now apply N.eqb_eq).
  all: subst objectID; now repeat split.
Qed.

(** X18.  [DeleteQuiz] answers 200 only to a professor or to the creator of
    the quiz, and removes the first quiz with the identifier, nothing else; it
    answers 403 to every other caller of an existing quiz. Any response other
    than 200 leaves the collection as it was. *)
Theorem DeleteQuiz_effect (id : string) (userID : ObjectID) (role : string)
  (quizzes : list QuizDocument) :
  match DeleteQuiz id userID role quizzes with
  | (Error s _, quizzes') =>
      quizzes' = quizzes
      /\ (s = StatusBadRequest /\ ObjectIDFromHex id = None
          \/ s = StatusNotFound
             /\ (exists objectID,
                   ObjectIDFromHex id = Some objectID
                   /\ ~ In objectID (map qz_ID quizzes))
          \/ s = StatusForbidden
             /\ role <> RoleProfessor
             /\ exists objectID d,
                  ObjectIDFromHex id = Some objectID
                  /\ Mongo.FindOne (fun x => N.eqb (qz_ID x) objectID) quizzes
                     = Some d
                  /\ qz_CreatorID d <> userID)
  | (JSON s _, quizzes') =>
      s = StatusOK
      /\ exists before d after,
           quizzes = before ++ d :: after
           /\ quizzes' = before ++ after
           /\ ObjectIDFromHex id = Some (qz_ID d)
           /\ Forall (fun x => qz_ID x <> qz_ID d) before
           /\ (role = RoleProfessor \/ qz_CreatorID d = userID)
  end.
Proof.
  unfold DeleteQuiz.
  destruct (ObjectIDFromHex id) as [objectID |];
    [| split; [reflexivity | left; now split]].
  destruct (Mongo.FindOne _ quizzes) as [d |] eqn:F.
  2: { split; [reflexivity |]. right. left. split; [reflexivity |].
       exists objectID. split; [reflexivity |]. intros Hin.
       apply in_map_iff in Hin. destruct Hin as (x & Hx & Hin).
       pose proof (find_none _ _ F x Hin) as C. cbv beta in C.
       apply N.eqb_neq in C. contradiction. }
  destruct (String.eqb role RoleProfessor) eqn:P;
    destruct (N.eqb (qz_CreatorID d) userID) eqn:C; cbn [negb andb].
  4: { split; [reflexivity |]. right. right. split; [reflexivity |].
       split; [now apply String.eqb_neq |]. exists objectID, d.
       repeat split; trivial. now apply N.eqb_neq. }
  all: destruct (find_by_quiz_id _ _ F) as (before & after & -> & Hid & NE & FF).
  all: split; [reflexivity |]; exists before, d, after.
  all: rewrite DeleteOne_at by (trivial; now apply N.eqb_eq).
  all: subst objectID; repeat split; trivial.
  - left. now apply String.eqb_eq.
  - left. now apply String.eqb_eq.
  - right. now apply N.eqb_eq.
Qed.

Lemma ApproveQuiz_cases (id : string) (req : ApproveQuizRequest)
  (approverID : ObjectID) (now : Time) (quizzes : list QuizDocument) :
  snd (ApproveQuiz id req approverID now quizzes) = quizzes
  \/ exists before d after,
       quizzes = before ++ d :: after
       /\ snd (ApproveQuiz id req approverID now quizzes)
          = before ++ set_status (ap_Status req) approverID now d :: after
       /\ (ap_Status req = StatusApproved \/ ap_Status req = StatusRejected).
Proof.
  unfold ApproveQuiz.
  destruct (ObjectIDFromHex id) as [objectID |]; [| now left].
  destruct (String.eqb (ap_Status req) ""); [now left |].
  destruct (negb (String.eqb (ap_Status req) StatusApproved)
            && negb (String.eqb (ap_Status req) StatusRejected)) eqn:V;
    [now left |].
  destruct (Mongo.FindOne _ quizzes) as [d |] eqn:F; [| now left].
  destruct (find_by_quiz_id _ _ F)
    as (before & after & -> & Hid & NE & FF).
  right. exists before, d, after. cbn [snd].
  rewrite UpdateOne_at by (trivial; now apply N.eqb_eq).
  repeat split.
  destruct (String.eqb (ap_Status req) StatusApproved) eqn:A;
    [left; now apply String.eqb_eq |].
  destruct (String.eqb (ap_Status req) StatusRejected) eqn:R;
    [right; now apply String.eqb_eq | discriminate V].
Qed.

Lemma DeleteQuiz_cases (id : string) (userID : ObjectID) (role : string)
  (quizzes : list QuizDocument) :
  snd (DeleteQuiz id userID role quizzes) = quizzes
  \/ exists before d after,
       quizzes = before ++ d :: after
       /\ snd (DeleteQuiz id userID role quizzes) = before ++ after.
Proof.
  unfold DeleteQuiz.
  destruct (ObjectIDFromHex id) as [objectID |]; [| now left].
  destruct (Mongo.FindOne _ quizzes) as [d |] eqn:F; [| now left].
  destruct (negb (String.eqb role RoleProfessor)
            && negb (N.eqb (qz_CreatorID d) userID)); [now left |].
  destruct (find_by_quiz_id _ _ F)
    as (before & after & -> & Hid & NE & FF).
  right. exists before, d, after. cbn [snd].
  rewrite DeleteOne_at by (trivial; now apply N.eqb_eq). now split.
Qed.

Lemma quiz_run_cases (c : QuizCall) (quizzes : list QuizDocument) :
  quiz_run c quizzes = quizzes
  \/ (exists d,
        quiz_run c quizzes = quizzes ++ [d]
        /\ ~ In (qz_ID d) (map qz_ID quizzes) /\ quiz_ok d
        /\ qz_ApprovedAt d = None)
  \/ (exists before d after status approverID now,
        quizzes = before ++ d :: after
        /\ quiz_run c quizzes
           = before ++ set_status status approverID now d :: after
        /\ (status = StatusApproved \/ status = StatusRejected))
  \/ (exists before d after,
        quizzes = before ++ d :: after
        /\ quiz_run c quizzes = before ++ after).
Proof.
  destruct c as [req userID role newObjectID createdAt updatedAt
                | id req approverID now | id userID role]; cbn [quiz_run].
  - unfold CreateQuiz.
    destruct (create_quiz_failures req) eqn:V; [| now left].
    apply create_quiz_failures_nil in V.
    destruct V as (V1 & V2 & V3 & V4 & r & rs & Hq). rewrite Hq. cbv zeta.
    destruct (create_questions newObjectID 0 (r :: rs)) as [msg | questions]
      eqn:E; [now left |].
    destruct (QuizCollection.InsertOne _ quizzes) as [quizzes' |] eqn:I;
      [| now left].
    apply QuizCollection_InsertOne_some in I. destruct I as [-> Hni].
    destruct (create_questions_spec _ _ _ E) as [F N].
    right. left. eexists. cbn [snd]. split; [reflexivity |].
    split; [exact Hni |]. split; [| reflexivity].
    unfold quiz_ok.
    cbn [qz_Questions qz_ApprovedAt qz_Status qz_CreatorRole qz_ApprovedBy
         qz_Title qz_Category qz_DifficultyLevel qz_CourseID].
    split; [inversion F; discriminate |].
    split; [intros i q H; now destruct (N i q H) |].
    now repeat split.
  - destruct (ApproveQuiz_cases id req approverID now quizzes)
      as [-> | (before & d & after & -> & -> & Hs)]; [now left |].
    right. right. left.
    now exists before, d, after, (ap_Status req), approverID, now.
  - destruct (DeleteQuiz_cases id userID role quizzes)
      as [-> | (before & d & after & -> & ->)]; [now left |].
    right. right. right. now exists before, d, after.
Qed.

Lemma quiz_ok_set_status (status : string) (approverID : ObjectID)
  (now : Time) (d : QuizDocument) :
  status = StatusApproved \/ status = StatusRejected ->
  quiz_ok d -> quiz_ok (set_status status approverID now d).
Proof.
  intros Hs (Q1 & Q2 & _ & Q4). unfold quiz_ok, set_status.
  cbn [qz_Questions qz_ApprovedAt qz_Status qz_CreatorRole qz_ApprovedBy
       qz_Title qz_Category qz_DifficultyLevel qz_CourseID qz_UpdatedAt].
  split; [exact Q1 |]. split; [exact Q2 |]. split; [| exact Q4].
  split; [exact Hs | reflexivity].
Qed.

Lemma quiz_run_NoDup (c : QuizCall) (quizzes : list QuizDocument) :
  NoDup (map qz_ID quizzes) -> NoDup (map qz_ID (quiz_run c quizzes)).
Proof.
  intros ND.
  destruct (quiz_run_cases c quizzes)
    as [-> | [(d & -> & Hni & _)
             | [(before & d & after & status & approverID & now & -> & ->
                 & _)
               | (before & d & after & -> & ->)]]]; trivial.
  - rewrite map_app. cbn [map]. now apply NoDup_snoc.
  - rewrite map_app in *. exact ND.
  - rewrite map_app in *. cbn [map] in ND. now apply NoDup_remove_1 in ND.
Qed.

Lemma quiz_run_ok (c : QuizCall) (quizzes : list QuizDocument) :
  Forall quiz_ok quizzes -> Forall quiz_ok (quiz_run c quizzes).
Proof.
  intros OK.
  destruct (quiz_run_cases c quizzes)
    as [-> | [(d & -> & _ & Hd & _)
             | [(before & d & after & status & approverID & now & -> & ->
                 & Hs)
               | (before & d & after & -> & ->)]]]; trivial.
  - apply Forall_app. split; trivial. now constructor.
  - apply Forall_app in OK. destruct OK as [O1 O2].
    inversion O2; subst. apply Forall_app. split; trivial.
    constructor; trivial. now apply quiz_ok_set_status.
  - apply Forall_app in OK. destruct OK as [O1 O2].
    inversion O2; subst. apply Forall_app. now split.
Qed.

(** X19.  What the quiz handlers keep. In every collection reachable by calls
    of [CreateQuiz], [ApproveQuiz] and [DeleteQuiz], the quizzes have distinct
    identifiers, and every quiz has a title, a category, a difficulty level
    and a course, and at least one question; its questions are numbered 1, 2,
    ... in order, each with time limit 15, a valid type, at least two options
    when it is multiple choice, and a string as correct answer; a quiz that
    was never reviewed has the status of its creation (pending for a student,
    approved otherwise) and no approver; a reviewed quiz is approved or
    rejected, never pending again, and was last updated by its review. *)
Theorem quiz_store_invariant (quizzes : list QuizDocument) :
  quiz_reachable quizzes ->
  NoDup (map qz_ID quizzes) /\ Forall quiz_ok quizzes.
Proof.
  induction 1 as [| c quizzes R [ND OK]].
  - split; constructor.
  - split; [now apply quiz_run_NoDup | now apply quiz_run_ok].
Qed.

Lemma quiz_store_invariant_witness :
  NoDup (map qz_ID QuizScenario.approved)
  /\ Forall quiz_ok QuizScenario.approved
  /\ QuizScenario.approved = [QuizScenario.approved_quiz]
  /\ qz_Status QuizScenario.pending_quiz = StatusPending
  /\ qz_Status QuizScenario.approved_quiz = StatusApproved.
Proof.
  assert (R : quiz_reachable QuizScenario.approved)
    by (unfold QuizScenario.approved, QuizScenario.created;
        repeat constructor).
  destruct (quiz_store_invariant R) as [ND OK].
  split; [exact ND |]. split; [exact OK |].
  split; [vm_compute; reflexivity |]. split; reflexivity.
Defined.

(** X20.  Students see approved quizzes only. For a student [GetQuizzes]
    ignores the [status] parameter and returns what a professor gets for the
    status approved; [GetQuizByID] answers a student 200 only for an approved
    quiz. Both return the quizzes as they are stored, correct answers
    included. *)
Theorem students_see_approved_only (quizzes : list QuizDocument)
  (category difficulty status id : string) :
  GetQuizzes RoleStudent category difficulty status quizzes
  = GetQuizzes RoleProfessor category difficulty StatusApproved quizzes
  /\ (forall l,
        GetQuizzes RoleStudent category difficulty status quizzes
        = JSON StatusOK l ->
        Forall (fun d => In d quizzes /\ qz_Status d = StatusApproved) l)
  /\ match GetQuizByID id RoleStudent quizzes with
     | JSON s d => s = StatusOK /\ In d quizzes
                   /\ qz_Status d = StatusApproved
     | Error s _ => True
     end.
Proof.
  split; [reflexivity |]. split.
  - intros l [= <-]. apply Forall_forall. intros d Hd.
    apply (Permutation_in _ (sort_perm created_later _)) in Hd.
    apply filter_In in Hd. destruct Hd as [Hin Hf]. split; trivial.
    unfold quizzes_filter in Hf. rewrite String.eqb_refl in Hf.
    apply andb_true_iff in Hf. destruct Hf as [Hf _].
    apply andb_true_iff in Hf. destruct Hf as [Hf _].
    now apply String.eqb_eq.
  - unfold GetQuizByID.
    destruct (ObjectIDFromHex id) as [objectID |]; trivial.
    destruct (Mongo.FindOne _ quizzes) as [d |] eqn:F; trivial.
    rewrite String.eqb_refl. cbn [andb].
    destruct (String.eqb (qz_Status d) StatusApproved) eqn:E; cbn [negb];
      trivial.
    split; [reflexivity |]. split; [| now apply String.eqb_eq].
    now destruct (find_some _ _ F).
Qed.

Lemma created_later_asym (a b : QuizDocument) :
  created_later a b = true -> created_later b a = false.
Proof. unfold created_later. rewrite Z.ltb_lt, Z.ltb_ge. lia. Qed.

Lemma not_created_later_trans (x y z : QuizDocument) :
  created_later y x = false -> created_later z y = false ->
  created_later z x = false.
Proof. unfold created_later. rewrite !Z.ltb_ge. lia. Qed.

(** X21.  [GetQuizzes] returns each stored quiz that passes the filters once,
    the most recently created first: the quizzes of the given category and
    difficulty level when these parameters are not empty, and, for a caller
    who is not a student, of the given status when it is not empty. *)
Theorem GetQuizzes_sorted (role category difficulty status : string)
  (quizzes : list QuizDocument) :
  exists l,
    GetQuizzes role category difficulty status quizzes = JSON StatusOK l
    /\ Permutation l
         (List.filter (quizzes_filter role category difficulty status)
            quizzes)
    /\ StronglySorted (fun a b => (qz_CreatedAt b <= qz_CreatedAt a)%Z) l
    /\ forall d, In d l ->
         In d quizzes
         /\ (category <> "" -> qz_Category d = category)
         /\ (difficulty <> "" -> qz_DifficultyLevel d = difficulty)
         /\ (role <> RoleStudent -> status <> "" -> qz_Status d = status).
Proof.
  eexists. split; [reflexivity |].
  pose proof (sort_perm created_later
                (Mongo.Find (quizzes_filter role category difficulty status)
                   quizzes)) as P.
  split; [exact P |]. split.
  - apply (@StronglySorted_impl _ (fun a b => created_later b a = false)).
    + intros a b H. unfold created_later in H. now apply Z.ltb_ge in H.
    + apply (sort_sorted created_later created_later_asym
               not_created_later_trans).
  - intros d Hd. apply (Permutation_in _ P) in Hd. apply filter_In in Hd.
    destruct Hd as [Hin Hf]. split; trivial.
    unfold quizzes_filter in Hf.
    apply andb_true_iff in Hf. destruct Hf as [Hf H3].
    apply andb_true_iff in Hf. destruct Hf as [H1 H2].
    repeat split.
    + intros NE. apply String.eqb_neq in NE. rewrite NE in H2.
      now apply String.eqb_eq.
    + intros NE. apply String.eqb_neq in NE. rewrite NE in H3.
      now apply String.eqb_eq.
    + intros NR NE. apply String.eqb_neq in NR, NE. rewrite NR, NE in H1.
      now apply String.eqb_eq.
Qed.

(** X22.  Answers to stored quizzes. When the quizzes come from the quiz
    handlers, [SubmitAnswer] accepts only response times up to 15 seconds, and
    0 never; the flag of the answer is the equality of the submitted text with
    the string stored as correct answer, and the points are those
    [CalculateScore] gives for the base points of the stored question. *)
Theorem SubmitAnswer_on_stored_quizzes (quizzes : list QuizDocument)
  (req : SubmitAnswerRequest) (studentID : ObjectID) (now : Time)
  (attempts attempts' : list QuizAttempt) (s : Z) (r : SubmitAnswerResponse) :
  quiz_reachable quizzes ->
  SubmitAnswer (map Quiz_of quizzes) req studentID now attempts
  = (JSON s r, attempts') ->
  (sub_TimeToAnswer req <= 15)%Z /\ sub_TimeToAnswer req <> 0%Z
  /\ exists d q text,
       In d quizzes /\ In q (qz_Questions d)
       /\ ObjectIDFromHex (sub_QuestionID req) = Some (qd_ID q)
       /\ qd_CorrectAnswer q = GoString text
       /\ is_correct r = String.eqb (sub_Answer req) text
       /\ points_earned r
          = CalculateScore (qd_Points q) (sub_TimeToAnswer req) (is_correct r).
Proof.
  intros R E. pose proof E as T. apply SubmitAnswer_success_time in T.
  apply SubmitAnswer_success in E.
  destruct E as (attemptID & questionID & attempt & quiz & question
                 & _ & Hqid & _ & _ & Hq & Hn & _ & Ht & _ & _ & -> & _).
  destruct (find_some _ _ Hq) as [Hquiz _].
  apply in_map_iff in Hquiz. destruct Hquiz as (d & <- & Hd).
  destruct (find_some _ _ Hn) as [Hquestion Hid].
  cbn [Quiz_of quiz_Questions] in Hquestion.
  apply in_map_iff in Hquestion. destruct Hquestion as (q & <- & Hin).
  assert (OK : Forall quiz_ok quizzes)
    by (clear - R; induction R; [constructor | now apply quiz_run_ok]).
  rewrite Forall_forall in OK. destruct (OK d Hd) as (_ & Q & _).
  destruct (In_nth_error _ _ Hin) as (i & Hi).
  destruct (Q i q Hi) as (_ & TL & _ & text & CA).
  cbn [Question_of q_TimeLimit q_CorrectAnswer q_Points q_ID] in *.
  rewrite TL in Ht. apply N.eqb_eq in Hid. subst questionID.
  split; [exact Ht |]. split; [exact T |].
  exists d, q, text. rewrite CA. cbn [correctAnswerStr is_correct points_earned].
  now repeat split.
Qed.

Lemma SubmitAnswer_on_stored_quizzes_witness :
  exists r attempts',
    SubmitAnswer (map Quiz_of QuizScenario.approved)
      (mkSubmitAnswerRequest Scenario.attempt1_hex Scenario.question1_hex
         "true" 7)
      Scenario.alice (Scenario.ms 9000) Scenario.started
    = (JSON StatusOK r, attempts')
    /\ (7 <= 15)%Z
    /\ exists d q text,
         In d QuizScenario.approved /\ In q (qz_Questions d)
         /\ qd_CorrectAnswer q = GoString text
         /\ is_correct r = String.eqb "true" text.
Proof.
  assert (R : quiz_reachable QuizScenario.approved)
    by (unfold QuizScenario.approved, QuizScenario.created;
        repeat constructor).
  destruct (SubmitAnswer (map Quiz_of QuizScenario.approved)
              (mkSubmitAnswerRequest Scenario.attempt1_hex
                 Scenario.question1_hex "true" 7)
              Scenario.alice (Scenario.ms 9000) Scenario.started)
    as [[s r | s m] attempts'] eqn:E;
    [| exfalso; vm_compute in E; discriminate E].
  assert (Es : s = StatusOK)
    by (pose proof E as E2; vm_compute in E2; injection E2 as E2 _ _;
        symmetry; exact E2).
  subst s.
  destruct (@SubmitAnswer_on_stored_quizzes _ _ _ _ _ _ _ _ R E)
    as (T & _ & d & q & text & Hd & Hq & _ & CA & IC & _).
  exists r, attempts'. split; [reflexivity |]. split; [exact T |].
  exists d, q, text. now repeat split.
Defined.

(* ================================================================= *)
(** ** The attempts while the quizzes change *)

Lemma find_app_split {A : Type} (f : A -> bool) (l1 l2 : list A) :
  find f (l1 ++ l2)
  = match find f l1 with Some x => Some x | None => find f l2 end.
Proof.
  induction l1 as [| x l1 IH]; cbn; trivial. now destruct (f x).
Qed.

(** An attempt handler writes what it would write with the remembered
    quizzes, or nothing. *)
Lemma run_agrees (quizzes ever : list Quiz) (c : Call)
  (attempts : list QuizAttempt) :
  agrees quizzes ever ->
  run quizzes c attempts = attempts
  \/ run quizzes c attempts = run ever c attempts.
Proof.
  intros A.
  destruct c as [courseService req studentID newID now
                | req studentID now | id studentID now]; cbn [run].
  - unfold StartAttempt.
    destruct (String.eqb (start_QuizID req) ""); [now left |].
    destruct (ObjectIDFromHex (start_QuizID req)) as [quizID |];
      [| now left].
    destruct (Mongo.FindOne _ quizzes) as [q |] eqn:HQ; [| now left].
    rewrite (A _ _ HQ).
    cbn [approved_view quiz_Status quiz_CourseID quiz_Questions].
    destruct (String.eqb (quiz_Status q) StatusApproved); cbn [negb];
      [| now left].
    right. rewrite String.eqb_refl. cbn [negb].
    destruct (courseService studentID (quiz_CourseID q)) as [[|] |];
      trivial.
    destruct (Mongo.FindOne _ attempts); trivial.
    now destruct (Mongo.InsertOne _ attempts).
  - unfold SubmitAnswer.
    destruct (submit_missing_fields req); [| now left].
    destruct (ObjectIDFromHex (sub_AttemptID req)) as [attemptID |];
      [| now left].
    destruct (ObjectIDFromHex (sub_QuestionID req)) as [questionID |];
      [| now left].
    destruct (Mongo.FindOne _ attempts) as [attempt |]; [| now left].
    destruct (att_CompletedAt attempt); [now left |].
    destruct (Mongo.FindOne _ quizzes) as [q |] eqn:HQ; [| now left].
    rewrite (A _ _ HQ). cbn [approved_view quiz_Questions].
    now right.
  - now right.
Qed.

Lemma quiz_ids_of (quizzes : list QuizDocument) :
  map quiz_ID (map Quiz_of quizzes) = map qz_ID quizzes.
Proof. rewrite map_map. reflexivity. Qed.

Lemma find_quiz_none (id : ObjectID) (quizzes : list QuizDocument) :
  ~ In id (map qz_ID quizzes) ->
  find (fun x => N.eqb (quiz_ID x) id) (map Quiz_of quizzes) = None.
Proof.
  intros Hni. destruct (find _ _) as [q |] eqn:F; trivial. exfalso.
  destruct (find_some _ _ F) as [Hin Hid]. apply N.eqb_eq in Hid.
  apply Hni. rewrite <- quiz_ids_of, <- Hid. now apply in_map.
Qed.

Lemma agrees_create (quizzes : list QuizDocument) (ever : list Quiz)
  (d : QuizDocument) :
  agrees (map Quiz_of quizzes) ever ->
  ~ In (qz_ID d) (map qz_ID quizzes) ->
  agrees (map Quiz_of (quizzes ++ [d])) (approved_view (Quiz_of d) :: ever).
Proof.
  intros A Hni id q. unfold Mongo.FindOne in *.
  rewrite map_app, find_app_split. cbn [map find approved_view quiz_ID Quiz_of].
  destruct (N.eqb (qz_ID d) id) eqn:E.
  - apply N.eqb_eq in E. subst id. rewrite (@find_quiz_none _ _ Hni).
    now intros [= <-].
  - destruct (find _ (map Quiz_of quizzes)) as [q' |] eqn:F;
      [| discriminate].
    intros [= <-]. now apply A.
Qed.

Lemma agrees_set_status (before after : list QuizDocument) (ever : list Quiz)
  (d : QuizDocument) (status : string) (approverID : ObjectID) (now : Time) :
  agrees (map Quiz_of (before ++ d :: after)) ever ->
  agrees
    (map Quiz_of (before ++ set_status status approverID now d :: after))
    ever.
Proof.
  intros A id q. specialize (A id). unfold Mongo.FindOne in *.
  rewrite map_app, find_app_split in *. cbn [map find] in *.
  destruct (find _ (map Quiz_of before)) as [q' |]; [apply A |].
  cbn [Quiz_of set_status quiz_ID qz_ID] in *.
  destruct (N.eqb (qz_ID d) id); [| apply A].
  intros [= <-]. now rewrite (A _ eq_refl).
Qed.

Lemma agrees_delete (before after : list QuizDocument) (ever : list Quiz)
  (d : QuizDocument) :
  NoDup (map qz_ID (before ++ d :: after)) ->
  agrees (map Quiz_of (before ++ d :: after)) ever ->
  agrees (map Quiz_of (before ++ after)) ever.
Proof.
  intros ND A id q. specialize (A id). unfold Mongo.FindOne in *.
  rewrite map_app, find_app_split in *. cbn [map find] in *.
  destruct (find _ (map Quiz_of before)) as [q' |]; [apply A |].
  intros H. cbn [Quiz_of quiz_ID] in A.
  destruct (N.eqb (qz_ID d) id) eqn:E; [| now apply A].
  exfalso. apply N.eqb_eq in E.
  destruct (find_some _ _ H) as [Hin Hid]. apply N.eqb_eq in Hid.
  cbn [map] in ND. apply NoDup_remove_2 in ND.
  apply ND, in_or_app. right.
  rewrite E, <- Hid, <- quiz_ids_of. now apply in_map.
Qed.

Lemma store_ok_remember (ever : list Quiz) (q : Quiz)
  (attempts : list QuizAttempt) :
  ~ In (quiz_ID q) (map att_QuizID attempts) ->
  store_ok ever attempts -> store_ok (q :: ever) attempts.
Proof.
  intros Hni (ND & OK & ONE). repeat split; trivial.
  apply Forall_forall. intros a Hin. rewrite Forall_forall in OK.
  destruct (OK a Hin) as (Et & quiz & Hq & Rest).
  split; trivial. exists quiz. split; trivial.
  unfold Mongo.FindOne in *. cbn [find].
  destruct (N.eqb (quiz_ID q) (att_QuizID a)) eqn:E; trivial.
  exfalso. apply N.eqb_eq in E. apply Hni. rewrite E. now apply in_map.
Qed.

(** A successful [CreateQuiz], as far as the attempts are concerned. *)
Lemma CreateQuiz_points (req : CreateQuizRequest) (userID : ObjectID)
  (role : string) (newObjectID : nat -> ObjectID) (createdAt updatedAt : Time)
  (quizzes : list QuizDocument) :
  let out :=
    CreateQuiz req userID role newObjectID createdAt updatedAt quizzes in
  snd out = quizzes
  \/ exists d qs,
       snd out = quizzes ++ [d]
       /\ ~ In (qz_ID d) (map qz_ID quizzes)
       /\ cr_Questions req = Some qs
       /\ qz_ID d = newObjectID (List.length qs)
       /\ map qd_Points (qz_Questions d) = map cq_Points qs.
Proof.
  cbv zeta. unfold CreateQuiz.
  destruct (create_quiz_failures req) eqn:V; [| now left].
  apply create_quiz_failures_nil in V.
  destruct V as (_ & _ & _ & _ & r & rs & Hq). rewrite Hq. cbv zeta.
  destruct (create_questions newObjectID 0 (r :: rs)) as [msg | questions]
    eqn:E; [now left |].
  destruct (QuizCollection.InsertOne _ quizzes) as [quizzes' |] eqn:I;
    [| now left].
  apply QuizCollection_InsertOne_some in I. destruct I as [-> Hni].
  destruct (create_questions_spec _ _ _ E) as [F _].
  right. eexists _, (r :: rs). cbn [snd qz_ID qz_Questions].
  repeat split; trivial.
  apply (@Forall2_map_eq _ _ _ cq_Points qd_Points _ _ _
           (fun r q H => proj2 (proj2 (proj2 (proj2 H)))) F).
Qed.

Lemma system_ok_run (c : SystemCall)
  (st : list QuizDocument * list QuizAttempt) :
  admissible c (snd st) -> system_ok st -> system_ok (system_run c st).
Proof.
  destruct st as [quizzes attempts]. cbn [snd].
  intros Adm (ND & ever & A & Hp & Hbd & OK). cbn [fst snd] in ND, A, OK.
  destruct c as [qc | ac]; cbn [system_run fst snd].
  - split; [now apply quiz_run_NoDup |].
    destruct qc as [req userID role newObjectID createdAt updatedAt
                   | id req approverID now | id userID role].
    + cbn [quiz_run admissible] in *.
      destruct (CreateQuiz_points req userID role newObjectID createdAt
                  updatedAt quizzes)
        as [-> | (d & qs & -> & Hni & Hq & Hid & Hpts)];
        [now exists ever |].
      destruct (Adm qs Hq) as (Fresh & Pos & Lim).
      exists (approved_view (Quiz_of d) :: ever).
      split; [now apply agrees_create |]. split; [| split].
      * intros quiz q [<- | Hin] Hq'; [| now apply (Hp quiz)].
        cbn [approved_view Quiz_of quiz_Questions] in Hq'.
        apply in_map_iff in Hq'. destruct Hq' as (qd & <- & Hqd).
        cbn [Question_of q_Points].
        assert (I : In (qd_Points qd) (map cq_Points qs))
          by (rewrite <- Hpts; now apply in_map).
        apply in_map_iff in I. destruct I as (r & <- & Hr).
        rewrite Forall_forall in Pos. now apply Pos.
      * intros quiz [<- | Hin]; [| now apply Hbd].
        cbn [approved_view Quiz_of quiz_Questions].
        unfold total_points. rewrite map_map.
        change (map (fun x => q_Points (Question_of x)) (qz_Questions d))
          with (map qd_Points (qz_Questions d)).
        now rewrite Hpts.
      * apply store_ok_remember; trivial.
        cbn [approved_view Quiz_of quiz_ID]. now rewrite Hid.
    + cbn [quiz_run].
      destruct (ApproveQuiz_cases id req approverID now quizzes)
        as [-> | (before & d & after & -> & -> & _)]; [now exists ever |].
      exists ever.
      split; [now apply agrees_set_status | split; [| split]; trivial].
    + cbn [quiz_run].
      destruct (DeleteQuiz_cases id userID role quizzes)
        as [-> | (before & d & after & -> & ->)]; [now exists ever |].
      exists ever.
      split; [now apply (@agrees_delete _ _ _ d) | split; [| split]; trivial].
  - split; trivial. exists ever. do 3 (split; trivial).
    destruct (run_agrees ac attempts A) as [-> | ->]; trivial.
    now apply store_ok_run.
Qed.

Lemma system_reachable_ok (st : list QuizDocument * list QuizAttempt) :
  system_reachable st -> system_ok st.
Proof.
  induction 1 as [| c st R IH Adm].
  - split; [constructor |]. exists []. split; [intros id q; discriminate |].
    split; [intros quiz q [] |]. split; [intros quiz [] |].
    repeat split; [constructor | constructor | intros; cbn; lia].
  - now apply system_ok_run.
Qed.

(** X23.  The invariants of the attempts hold while the quizzes change. In
    every state reachable by calls of the quiz handlers and of the attempt
    handlers in any order, new quizzes getting identifiers no attempt refers
    to and questions without negative base points, which sum up to at most
    [points_limit] per quiz: the attempts have distinct identifiers, a
    student has at most one attempt in progress for a quiz, and the total
    score of every attempt is the binary64 sum of the points of its answers,
    not negative and not above its maximum score, also after the quiz was
    rejected or deleted. *)
Theorem scores_bounded_while_quizzes_change
  (st : list QuizDocument * list QuizAttempt) :
  system_reachable st ->
  NoDup (map qz_ID (fst st))
  /\ NoDup (map att_ID (snd st))
  /\ (forall quizID studentID,
        (ongoing_count quizID studentID (snd st) <= 1)%nat)
  /\ forall a, In a (snd st) ->
       att_TotalScore a = F64.sum (map ans_PointsEarned (att_Answers a))
       /\ 0 <= att_TotalScore a /\ att_TotalScore a <= att_MaxScore a.
Proof.
  intros R.
  destruct (system_reachable_ok R) as (ND & ever & A & Hp & Hbd & OK).
  split; [exact ND |]. pose proof OK as (NDa & AOK & ONE).
  split; [exact NDa |]. split; [exact ONE |].
  intros a Hin. rewrite Forall_forall in AOK.
  destruct (AOK a Hin) as (Et & _).
  destruct (@store_score_range ever (snd st) a Hp Hbd OK Hin) as [H0 H1].
  now repeat split.
Qed.

Lemma SystemScenario_reachable : system_reachable SystemScenario.final.
Proof.
  unfold SystemScenario.final, SystemScenario.calls. cbn [fold_left].
  repeat (apply system_step; [| try exact I]).
  - apply system_empty.
  - cbn [admissible snd]. intros qs [= <-].
    split; [intros [] |].
    split; [repeat constructor; discriminate | discriminate].
Qed.

Lemma scores_bounded_while_quizzes_change_witness :
  fst SystemScenario.final = []
  /\ In SystemScenario.alice_attempt (snd SystemScenario.final)
  /\ 0 <= att_TotalScore SystemScenario.alice_attempt
  /\ att_TotalScore SystemScenario.alice_attempt
     <= att_MaxScore SystemScenario.alice_attempt.
Proof.
  destruct (@scores_bounded_while_quizzes_change SystemScenario.final
              SystemScenario_reachable) as (_ & _ & _ & H).
  assert (Hin : In SystemScenario.alice_attempt (snd SystemScenario.final))
    by (vm_compute; left; reflexivity).
  destruct (H _ Hin) as (_ & H0 & H1).
  split; [vm_compute; reflexivity |]. now repeat split.
Defined.

(* ================================================================= *)
(** ** The user handlers *)

Section UserFacts.

Variable validator_email : string -> bool.
Variable RuneCountInString : string -> nat.
Variable bcrypt_GenerateFromPassword : string -> string -> option string.
Variable bcrypt_CompareHashAndPassword : string -> string -> bool.

(** A password matches the hashes generated from it. *)
Hypothesis bcrypt_matches :
  forall salt password hash,
    bcrypt_GenerateFromPassword salt password = Some hash ->
    bcrypt_CompareHashAndPassword hash password = true.

Local Abbreviation register :=
  (Register validator_email RuneCountInString bcrypt_GenerateFromPassword).
Local Abbreviation login :=
  (Login validator_email bcrypt_CompareHashAndPassword).
Local Abbreviation run_register :=
  (register_run validator_email RuneCountInString
     bcrypt_GenerateFromPassword).
Local Abbreviation reachable_users :=
  (users_reachable validator_email RuneCountInString
     bcrypt_GenerateFromPassword).
Local Abbreviation ok_user :=
  (user_ok validator_email RuneCountInString bcrypt_GenerateFromPassword).

Lemma register_failures_nil (req : RegisterRequest) :
  register_failures validator_email RuneCountInString req = [] ->
  validator_email (reg_Email req) = true /\ reg_Email req <> ""
  /\ reg_Password req <> ""
  /\ (6 <= RuneCountInString (reg_Password req))%nat
  /\ reg_FirstName req <> "" /\ reg_LastName req <> "".
Proof.
  unfold register_failures.
  destruct (String.eqb (reg_Email req) "") eqn:E1; [discriminate |].
  destruct (validator_email (reg_Email req)) eqn:E2; [| discriminate].
  destruct (String.eqb (reg_Password req) "") eqn:E3; [discriminate |].
  destruct (RuneCountInString (reg_Password req) <? 6)%nat eqn:E4;
    [discriminate |].
  destruct (String.eqb (reg_FirstName req) "") eqn:E5; [discriminate |].
  destruct (String.eqb (reg_LastName req) "") eqn:E6; [discriminate |].
  intros _. apply String.eqb_neq in E1, E3, E5, E6. apply Nat.ltb_ge in E4.
  now repeat split.
Qed.

Lemma UserCollection_InsertOne_some (u : UserDocument)
  (c c' : list UserDocument) :
  UserCollection.InsertOne u c = Some c' ->
  c' = c ++ [u] /\ ~ In (ud_ID u) (map ud_ID c).
Proof.
  unfold UserCollection.InsertOne.
  destruct (existsb _ c) eqn:E; [discriminate |].
  intros [= <-]. split; trivial. intros Hin.
  apply in_map_iff in Hin. destruct Hin as (x & Hx & Hin).
  assert (C : existsb (fun x => N.eqb (ud_ID x) (ud_ID u)) c = true).
  { apply existsb_exists. exists x. split; trivial. now apply N.eqb_eq. }
  congruence.
Qed.

Lemma find_email_none (email : string) (users : list UserDocument) :
  Mongo.FindOne (fun u => String.eqb (ud_Email u) email) users = None ->
  ~ In email (map ud_Email users).
Proof.
  intros F Hin. apply in_map_iff in Hin. destruct Hin as (x & Hx & Hin).
  pose proof (find_none _ _ F x Hin) as C. cbv beta in C.
  apply String.eqb_neq in C. contradiction.
Qed.

(** [Register], read backwards: nothing is written, or the new user is
    appended, with or without a token. *)
Lemma Register_cases (req : RegisterRequest) (salt : string)
  (newID : ObjectID) (createdAt updatedAt : Time)
  (generateToken : UserDocument -> option string)
  (users : list UserDocument) :
  let out :=
    register req salt newID createdAt updatedAt generateToken users in
  ((exists s m, fst out = Error s m) /\ snd out = users)
  \/ exists hashedPassword,
       let user :=
         mkUserDocument newID (reg_Email req) hashedPassword
           (reg_FirstName req) (reg_LastName req) (reg_Role req) createdAt
           updatedAt in
       register_failures validator_email RuneCountInString req = []
       /\ (reg_Role req = RoleProfessor \/ reg_Role req = RoleStudent)
       /\ Mongo.FindOne (fun u => String.eqb (ud_Email u) (reg_Email req))
            users = None
       /\ bcrypt_GenerateFromPassword salt (reg_Password req)
          = Some hashedPassword
       /\ ~ In newID (map ud_ID users)
       /\ out
          = (match generateToken user with
             | None =>
                 Error StatusInternalServerError "Failed to generate token"
             | Some token => JSON StatusCreated (mkLoginResponse token user)
             end, users ++ [user]).
Proof.
  cbv zeta. unfold Register.
  destruct (register_failures validator_email RuneCountInString req) eqn:V;
    [| left; split; [now eexists _, _ | reflexivity]].
  destruct (negb (String.eqb (reg_Role req) RoleProfessor)
            && negb (String.eqb (reg_Role req) RoleStudent)) eqn:Hr;
    [left; split; [now eexists _, _ | reflexivity] |].
  destruct (Mongo.FindOne _ users) as [existing |] eqn:F;
    [left; split; [now eexists _, _ | reflexivity] |].
  destruct (bcrypt_GenerateFromPassword salt (reg_Password req))
    as [hashedPassword |] eqn:H;
    [| left; split; [now eexists _, _ | reflexivity]].
  cbv zeta.
  destruct (UserCollection.InsertOne _ users) as [users' |] eqn:I;
    [| left; split; [now eexists _, _ | reflexivity]].
  apply UserCollection_InsertOne_some in I. destruct I as [-> Hni].
  right. exists hashedPassword. cbv zeta.
  split; [reflexivity |]. split.
  { destruct (String.eqb (reg_Role req) RoleProfessor) eqn:P;
      [left; now apply String.eqb_eq |].
    destruct (String.eqb (reg_Role req) RoleStudent) eqn:S;
      [right; now apply String.eqb_eq | discriminate Hr]. }
  split; [reflexivity |]. split; [reflexivity |]. split; [exact Hni |].
  now destruct (generateToken _).
Qed.

(** X24.  [Register] answers 201 only with a new user appended to the
    collection under an identifier and an email address not in use, with the
    names and the role of the request, a role that is professor or student,
    and as password what [bcrypt.GenerateFromPassword] returned for the
    password of the request; the token is the one generated for that user. An
    error response leaves the collection as it was, with one exception: when
    the token cannot be generated the answer is 500 and the user stays
    registered. *)
Theorem Register_effect (req : RegisterRequest) (salt : string)
  (newID : ObjectID) (createdAt updatedAt : Time)
  (generateToken : UserDocument -> option string)
  (users : list UserDocument) :
  match register req salt newID createdAt updatedAt generateToken users with
  | (JSON s r, users') =>
      s = StatusCreated
      /\ users' = users ++ [lr_User r]
      /\ generateToken (lr_User r) = Some (lr_Token r)
      /\ ud_ID (lr_User r) = newID /\ ~ In newID (map ud_ID users)
      /\ ud_Email (lr_User r) = reg_Email req
      /\ ~ In (reg_Email req) (map ud_Email users)
      /\ bcrypt_GenerateFromPassword salt (reg_Password req)
         = Some (ud_Password (lr_User r))
      /\ ud_FirstName (lr_User r) = reg_FirstName req
      /\ ud_LastName (lr_User r) = reg_LastName req
      /\ ud_Role (lr_User r) = reg_Role req
      /\ ok_user (lr_User r)
  | (Error s m, users') =>
      users' = users
      \/ (s = StatusInternalServerError /\ m = "Failed to generate token"
          /\ exists user,
               users' = users ++ [user]
               /\ ud_Email user = reg_Email req
               /\ generateToken user = None)
  end.
Proof.
  destruct (Register_cases req salt newID createdAt updatedAt generateToken
              users)
    as [[(s & m & E) Hu]
       | (hashedPassword & V & Hr & F & H & Hni & E)].
  - destruct (register _ _ _ _ _ _ _) as [[s' r | s' m'] users'];
      cbn [fst snd] in *; [discriminate E | now left].
  - rewrite E.
    destruct (generateToken _) as [token |] eqn:T.
    + cbn [lr_User lr_Token ud_ID ud_Email ud_Password ud_FirstName
           ud_LastName ud_Role].
      apply register_failures_nil in V.
      destruct V as (V1 & V2 & V3 & V4 & V5 & V6).
      do 6 (split; [trivial |]).
      split; [now apply find_email_none |].
      do 4 (split; [trivial |]).
      unfold user_ok.
      cbn [ud_Email ud_FirstName ud_LastName ud_Role ud_Password].
      do 5 (split; [trivial |]).
      now exists salt, (reg_Password req).
    + right. split; [reflexivity |]. split; [reflexivity |].
      eexists. split; [reflexivity |]. now split.
Qed.

Lemma register_run_cases (c : RegisterCall) (users : list UserDocument) :
  run_register c users = users
  \/ exists user,
       run_register c users = users ++ [user]
       /\ ~ In (ud_ID user) (map ud_ID users)
       /\ ~ In (ud_Email user) (map ud_Email users)
       /\ ok_user user.
Proof.
  unfold register_run.
  destruct (Register_cases (rc_req c) (rc_salt c) (rc_newID c)
              (rc_createdAt c) (rc_updatedAt c) (rc_generateToken c) users)
    as [[_ ->] | (hashedPassword & V & Hr & F & H & Hni & ->)];
    [now left |].
  right. eexists. cbn [snd]. split; [reflexivity |].
  cbn [ud_ID ud_Email]. split; [exact Hni |].
  split; [now apply find_email_none |].
  apply register_failures_nil in V.
  destruct V as (V1 & V2 & V3 & V4 & V5 & V6).
  unfold user_ok.
  cbn [ud_Email ud_FirstName ud_LastName ud_Role ud_Password].
  do 5 (split; [trivial |]).
  now exists (rc_salt c), (reg_Password (rc_req c)).
Qed.

(** X25.  What [Register] keeps. In every user collection reachable by calls
    of [Register], no two users share an email address or an identifier, and
    every user has an address that passes the validator, a first and a last
    name, the role professor or student, and as password a hash generated from
    a password of at least 6 characters. *)
Theorem users_invariant (users : list UserDocument) :
  reachable_users users ->
  NoDup (map ud_Email users) /\ NoDup (map ud_ID users)
  /\ Forall ok_user users.
Proof.
  induction 1 as [| c users R (NE & NI & OK)].
  - repeat split; constructor.
  - destruct (register_run_cases c users)
      as [-> | (user & -> & Hni & Hne & Hok)]; [now repeat split |].
    rewrite !map_app. cbn [map]. repeat split.
    + now apply NoDup_snoc.
    + now apply NoDup_snoc.
    + apply Forall_app. split; trivial. now constructor.
Qed.

Lemma register_run_all_app (later : list RegisterCall)
  (users : list UserDocument) :
  exists more,
    fold_left (fun db c => run_register c db) later users = users ++ more.
Proof.
  revert users. induction later as [| c later IH]; intros users; cbn.
  - exists []. now rewrite app_nil_r.
  - destruct (register_run_cases c users) as [-> | (user & -> & _)];
      [apply IH |].
    destruct (IH (users ++ [user])) as (more & ->).
    exists (user :: more). now rewrite <- app_assoc.
Qed.

(** X26.  Register, then log in. After [Register] answered 201, and whatever
    registrations follow, [Login] with the email address and the password of
    the request answers 200 with the registered user, and [GetProfile] with
    the new identifier returns that user, provided the token can be generated. *)
Theorem Register_then_Login (req : RegisterRequest) (salt : string)
  (newID : ObjectID) (createdAt updatedAt : Time)
  (generateToken generateToken' : UserDocument -> option string)
  (users users' : list UserDocument) (s : Z) (r : LoginResponse)
  (later : list RegisterCall) (token : string) :
  register req salt newID createdAt updatedAt generateToken users
  = (JSON s r, users') ->
  generateToken' (lr_User r) = Some token ->
  login (mkLoginRequest (reg_Email req) (reg_Password req)) generateToken'
    (fold_left (fun db c => run_register c db) later users')
  = JSON StatusOK (mkLoginResponse token (lr_User r))
  /\ GetProfile newID
       (fold_left (fun db c => run_register c db) later users')
     = JSON StatusOK (lr_User r).
Proof.
  intros E T.
  destruct (Register_cases req salt newID createdAt updatedAt generateToken
              users)
    as [[(s' & m & C) _]
       | (hashedPassword & V & Hr & F & H & Hni & E')].
  { rewrite E in C. discriminate C. }
  rewrite E in E'. clear E.
  destruct (generateToken _) as [token0 |]; [| discriminate E'].
  injection E' as -> -> ->. cbn [lr_User] in *.
  set (user := mkUserDocument newID (reg_Email req) hashedPassword
                 (reg_FirstName req) (reg_LastName req) (reg_Role req)
                 createdAt updatedAt) in *.
  destruct (register_run_all_app later (users ++ [user])) as (more & ->).
  subst user.
  apply register_failures_nil in V.
  destruct V as (V1 & V2 & V3 & V4 & V5 & V6).
  apply String.eqb_neq in V2, V3.
  split.
  - unfold Login, login_failures.
    cbn [login_Email login_Password]. rewrite V1, V2, V3. cbn [negb app].
    unfold Mongo.FindOne in *. rewrite <- app_assoc, find_app_split, F.
    cbn [app find ud_Email]. rewrite String.eqb_refl.
    cbn [ud_Password]. rewrite (bcrypt_matches H). cbn [negb].
    now rewrite T.
  - unfold GetProfile, Mongo.FindOne.
    rewrite <- app_assoc, find_app_split.
    assert (N : find (fun u => N.eqb (ud_ID u) newID) users = None).
    { destruct (find _ users) as [x |] eqn:Fx; trivial. exfalso.
      destruct (find_some _ _ Fx) as [Hin Hid]. apply N.eqb_eq in Hid.
      apply Hni. rewrite <- Hid. now apply in_map. }
    rewrite N. cbn [app find ud_ID]. now rewrite N.eqb_refl.
Qed.

(** X27.  [Login] answers 200 only with a stored user that has the email
    address of the request and a password hash the password matches, and with
    the token generated for that user; an unknown address and a wrong password
    get the same answer, 401 with the same message. *)
Theorem Login_effect (req : LoginRequest)
  (generateToken : UserDocument -> option string)
  (users : list UserDocument) :
  match login req generateToken users with
  | JSON s r =>
      s = StatusOK /\ In (lr_User r) users
      /\ ud_Email (lr_User r) = login_Email req
      /\ bcrypt_CompareHashAndPassword (ud_Password (lr_User r))
           (login_Password req) = true
      /\ generateToken (lr_User r) = Some (lr_Token r)
  | Error s m =>
      (s = StatusBadRequest
       /\ (login_Email req = "" \/ login_Password req = ""
           \/ validator_email (login_Email req) = false))
      \/ (s = StatusUnauthorized /\ m = "Invalid email or password"
          /\ forall u, In u users -> ud_Email u = login_Email req ->
               exists u', In u' users /\ ud_Email u' = login_Email req
                 /\ bcrypt_CompareHashAndPassword (ud_Password u')
                      (login_Password req) = false)
      \/ (s = StatusInternalServerError /\ m = "Failed to generate token")
  end.
Proof.
  unfold Login.
  destruct (login_failures validator_email req) eqn:V.
  2: { left. split; [reflexivity |]. unfold login_failures in V.
       destruct (String.eqb (login_Email req) "") eqn:E1;
         [left; now apply String.eqb_eq |].
       destruct (String.eqb (login_Password req) "") eqn:E2;
         [right; left; now apply String.eqb_eq |].
       destruct (validator_email (login_Email req)); [discriminate V |].
       now right; right. }
  destruct (Mongo.FindOne _ users) as [user |] eqn:F.
  2: { right. left. split; [reflexivity |]. split; [reflexivity |].
       intros u Hin He. pose proof (find_none _ _ F u Hin) as C.
       cbv beta in C. apply String.eqb_neq in C. contradiction. }
  destruct (find_some _ _ F) as [Hin He]. apply String.eqb_eq in He.
  destruct (bcrypt_CompareHashAndPassword (ud_Password user)
              (login_Password req)) eqn:C; cbn [negb].
  2: { right. left. split; [reflexivity |]. split; [reflexivity |].
       intros _ _ _. now exists user. }
  destruct (generateToken user) as [token |] eqn:T.
  - cbn [lr_User lr_Token]. now repeat split.
  - right. right. now split.
Qed.

End UserFacts.

Lemma users_invariant_witness :
  NoDup (map ud_Email UserScenario.registered)
  /\ UserScenario.registered = [UserScenario.alice].
Proof.
  assert (R : users_reachable UserScenario.validator_email
                UserScenario.RuneCountInString
                UserScenario.GenerateFromPassword UserScenario.registered)
    by (unfold UserScenario.registered; repeat constructor).
  destruct (users_invariant R) as (NE & _).
  split; [exact NE | reflexivity].
Defined.

Lemma Register_then_Login_witness :
  Login UserScenario.validator_email UserScenario.CompareHashAndPassword
    (mkLoginRequest "alice@example.com" "password123")
    UserScenario.generateToken UserScenario.registered
  = JSON StatusOK
      (mkLoginResponse "token-alice@example.com" UserScenario.alice)
  /\ GetProfile Scenario.alice UserScenario.registered
     = JSON StatusOK UserScenario.alice.
Proof.
  assert (M : forall salt password hash,
            UserScenario.GenerateFromPassword salt password = Some hash ->
            UserScenario.CompareHashAndPassword hash password = true).
  { intros salt password hash [= <-]. apply String.eqb_refl. }
  exact (@Register_then_Login UserScenario.validator_email
           UserScenario.RuneCountInString UserScenario.GenerateFromPassword
           UserScenario.CompareHashAndPassword M UserScenario.request "salt"
           Scenario.alice (Scenario.ms 0) (Scenario.ms 0)
           UserScenario.generateToken UserScenario.generateToken [] _ _
           (mkLoginResponse "token-alice@example.com" UserScenario.alice)
           [] "token-alice@example.com" eq_refl eq_refl).
Defined.

(* ================================================================= *)
(** ** The course service *)

(** X28.  The course API decides who may start. [CheckCourseCompletion]
    reports a completed course exactly when the API answers 200 with
    [completed] true, and a course not completed exactly when it answers 404,
    or 200 with [completed] false; everything else is an error. So
    [StartAttempt] answers 201 only if the API answered 200 with [completed]
    true for the course of the quiz and the caller; for an approved quiz it
    answers 403 without writing when the API answers 404, and 500 without
    writing when the request fails or the API answers with any status other
    than 200 and 404. *)
Theorem course_API_gates_StartAttempt (httpGet : string -> HttpResult)
  (baseURL : string) (Hex : ObjectID -> string) (quizzes : list Quiz)
  (req : StartAttemptRequest) (studentID newID : ObjectID) (now : Time)
  (attempts : list QuizAttempt) :
  (forall sid cid,
      (CheckCourseCompletion httpGet baseURL sid cid = CourseAnswer true
       <-> httpGet (completion_url baseURL cid sid)
           = HttpResponse StatusOK (BodyCompletion true))
      /\ (CheckCourseCompletion httpGet baseURL sid cid = CourseAnswer false
          <-> (exists body,
                 httpGet (completion_url baseURL cid sid)
                 = HttpResponse StatusNotFound body)
              \/ httpGet (completion_url baseURL cid sid)
                 = HttpResponse StatusOK (BodyCompletion false)))
  /\ match StartAttempt quizzes (courseService_of httpGet baseURL Hex) req
             studentID newID now attempts with
     | (JSON _ (attempt, _), _) =>
         exists quiz,
           Mongo.FindOne (fun q => N.eqb (quiz_ID q) (att_QuizID attempt))
             quizzes = Some quiz
           /\ httpGet
                (completion_url baseURL (quiz_CourseID quiz) (Hex studentID))
              = HttpResponse StatusOK (BodyCompletion true)
     | (Error s m, attempts') =>
         attempts' = attempts
         /\ forall quizID quiz,
              ObjectIDFromHex (start_QuizID req) = Some quizID ->
              Mongo.FindOne (fun q => N.eqb (quiz_ID q) quizID) quizzes
              = Some quiz ->
              quiz_Status quiz = StatusApproved ->
              match httpGet
                      (completion_url baseURL (quiz_CourseID quiz)
                         (Hex studentID)) with
              | HttpFailure =>
                  s = StatusInternalServerError
                  /\ m = "Failed to verify course completion"
              | HttpResponse status body =>
                  (status = StatusNotFound ->
                   s = StatusForbidden
                   /\ m = "You must complete the required course before attempting this quiz")
                  /\ (status <> StatusNotFound -> status <> StatusOK ->
                      s = StatusInternalServerError
                      /\ m = "Failed to verify course completion")
              end
     end.
Proof.
  split.
  - intros sid cid. unfold CheckCourseCompletion.
    destruct (httpGet (completion_url baseURL cid sid)) as [| status body].
    + split; split; try discriminate.
      intros [(body & C) | C]; discriminate C.
    + destruct (Z.eqb_spec status StatusNotFound) as [-> | N404].
      * split; split; try discriminate.
        -- intros _. left. now exists body.
        -- reflexivity.
      * destruct (Z.eqb_spec status StatusOK) as [-> | N200]; cbn [negb].
        -- destruct body as [| | [|]]; split; split;
             try discriminate; try reflexivity.
           ++ intros [(body & C) | C]; discriminate C.
           ++ intros [(body & C) | C]; discriminate C.
           ++ intros [(body & C) | C]; discriminate C.
           ++ intros _. now right.
        -- split; split; try discriminate.
           ++ intros [= E _]. contradiction.
           ++ intros [(b & [= E _]) | [= E _]]; contradiction.
  - destruct (StartAttempt_cases quizzes (courseService_of httpGet baseURL Hex)
                req studentID newID now attempts)
      as [[(s & m & E) Hs] | (quizID & quiz & Hh & Hq & Ha & Hc & _ & _ & E)].
    + destruct (StartAttempt _ _ _ _ _ _ _) as [[s' b | s' m'] attempts']
        eqn:S; cbn [fst snd] in *; [discriminate E |].
      split; [exact Hs |]. intros quizID quiz Hh Hq Ha.
      revert S. unfold StartAttempt.
      destruct (String.eqb (start_QuizID req) "") eqn:Q.
      { apply String.eqb_eq in Q. rewrite Q in Hh. discriminate Hh. }
      rewrite Hh, Hq, Ha. cbn [negb]. rewrite String.eqb_refl. cbn [negb].
      unfold courseService_of, CheckCourseCompletion.
      destruct (httpGet _) as [| status body];
        [intros S; injection S as E1 E2 _; now subst |].
      intros S. split.
      * intros ->. rewrite Z.eqb_refl in S.
        injection S as E1 E2 _. now subst.
      * intros N404 N200. apply Z.eqb_neq in N404, N200.
        rewrite N404, N200 in S. cbn [negb] in S.
        injection S as E1 E2 _. now subst.
    + rewrite E. cbn [att_QuizID]. exists quiz. split; [exact Hq |].
      unfold courseService_of, CheckCourseCompletion in Hc.
      destruct (httpGet _) as [| status body]; [discriminate Hc |].
      destruct (Z.eqb_spec status StatusNotFound); [discriminate Hc |].
      destruct (Z.eqb_spec status StatusOK) as [-> | N200]; cbn [negb] in Hc;
        [| discriminate Hc].
      destruct body as [| | [|]]; try discriminate Hc. reflexivity.
Qed.

(* ================================================================= *)
(** ** Quizzes and attempts together *)

Lemma ObjectIDFromHex_nonempty (id : string) (objectID : ObjectID) :
  ObjectIDFromHex id = Some objectID -> String.eqb id "" = false.
Proof.
  unfold ObjectIDFromHex. destruct id; [discriminate | reflexivity].
Qed.

(** The quiz the attempt handlers find under the identifier of the last
    quiz of a collection with distinct identifiers. *)
Lemma find_last_quiz (quizzes : list QuizDocument) (d : QuizDocument) :
  ~ In (qz_ID d) (map qz_ID quizzes) ->
  Mongo.FindOne (fun x => N.eqb (quiz_ID x) (qz_ID d))
    (map Quiz_of (quizzes ++ [d]))
  = Some (Quiz_of d).
Proof.
  intros Hni. unfold Mongo.FindOne.
  rewrite map_app, find_app_split, (@find_quiz_none _ _ Hni).
  cbn [map find Quiz_of quiz_ID]. now rewrite N.eqb_refl.
Qed.

Lemma find_last_document (quizzes : list QuizDocument) (d : QuizDocument) :
  ~ In (qz_ID d) (map qz_ID quizzes) ->
  Forall (fun x => N.eqb (qz_ID x) (qz_ID d) = false) quizzes.
Proof.
  intros Hni. apply Forall_forall. intros x Hx. apply N.eqb_neq.
  intros E. apply Hni. rewrite <- E. now apply in_map.
Qed.

(** X29.  The approval workflow. A quiz created by a student cannot be
    attempted: [StartAttempt] answers 403. [ApproveQuiz] succeeds on it for
    the status approved and for the status rejected; once it is approved,
    [StartAttempt] answers 201 to a student whose course is confirmed, who has
    no attempt in progress for it, the new identifier being free, and the
    maximum score of the attempt is the sum of the base points of the quiz;
    once it is rejected, [StartAttempt] still answers 403. *)
Theorem approval_workflow (req : CreateQuizRequest) (userID : ObjectID)
  (newObjectID : nat -> ObjectID) (createdAt updatedAt : Time)
  (quizzes quizzes1 : list QuizDocument) (s : Z) (quiz : QuizDocument)
  (id : string) (approverID : ObjectID) (t : Time)
  (courseService : ObjectID -> string -> CourseCheck)
  (studentID newID : ObjectID) (now : Time) (attempts : list QuizAttempt) :
  CreateQuiz req userID RoleStudent newObjectID createdAt updatedAt quizzes
  = (JSON s quiz, quizzes1) ->
  ObjectIDFromHex id = Some (qz_ID quiz) ->
  let start := fun qs =>
    StartAttempt (map Quiz_of qs) courseService (mkStartAttemptRequest id)
      studentID newID now attempts in
  let unavailable :=
    (Error StatusForbidden "Quiz is not available for attempts", attempts) in
  start quizzes1 = unavailable
  /\ (exists quizzes2,
        ApproveQuiz id (mkApproveQuizRequest StatusRejected) approverID t
          quizzes1
        = (JSON StatusOK "Quiz status updated successfully", quizzes2)
        /\ start quizzes2 = unavailable)
  /\ exists quizzes2,
       ApproveQuiz id (mkApproveQuizRequest StatusApproved) approverID t
         quizzes1
       = (JSON StatusOK "Quiz status updated successfully", quizzes2)
       /\ (courseService studentID (cr_CourseID req) = CourseAnswer true ->
           Mongo.FindOne (ongoing_attempt (qz_ID quiz) studentID) attempts
           = None ->
           ~ In newID (map att_ID attempts) ->
           exists attempt shown,
             start quizzes2
             = (JSON StatusCreated (attempt, shown), attempts ++ [attempt])
             /\ att_QuizID attempt = qz_ID quiz
             /\ att_MaxScore attempt
                = maxScore_of (map Question_of (qz_Questions quiz))).
Proof.
  intros E Hh. cbv zeta.
  pose proof (ObjectIDFromHex_nonempty _ Hh) as Hne.
  assert (C : quizzes1 = quizzes ++ [quiz]
              /\ ~ In (qz_ID quiz) (map qz_ID quizzes)
              /\ qz_Status quiz = StatusPending
              /\ qz_CourseID quiz = cr_CourseID req).
  { revert E. unfold CreateQuiz.
    destruct (create_quiz_failures req); [| discriminate].
    cbv zeta.
    destruct (create_questions _ _ _) as [msg | questions]; [discriminate |].
    destruct (QuizCollection.InsertOne _ quizzes) as [quizzes' |] eqn:I;
      [| discriminate].
    apply QuizCollection_InsertOne_some in I. destruct I as [-> Hni].
    intros [= <- <- <-]. now repeat split. }
  destruct C as (-> & Hni & Hs & Hc).
  assert (U : forall status,
            Mongo.UpdateOne (fun d => N.eqb (qz_ID d) (qz_ID quiz))
              (set_status status approverID t) (quizzes ++ [quiz])
            = quizzes ++ [set_status status approverID t quiz]).
  { intros status. apply UpdateOne_at; [| apply N.eqb_refl].
    now apply find_last_document. }
  assert (F : Mongo.FindOne (fun d => N.eqb (qz_ID d) (qz_ID quiz))
                (quizzes ++ [quiz]) = Some quiz).
  { unfold Mongo.FindOne. rewrite find_app_split.
    destruct (find _ quizzes) as [x |] eqn:Fx.
    - exfalso. destruct (find_some _ _ Fx) as [Hin Hid].
      apply N.eqb_eq in Hid. apply Hni. rewrite <- Hid. now apply in_map.
    - cbn [find]. now rewrite N.eqb_refl. }
  assert (S : forall d,
            qz_ID d = qz_ID quiz ->
            StartAttempt (map Quiz_of (quizzes ++ [d])) courseService
              (mkStartAttemptRequest id) studentID newID now attempts
            = StartAttempt [Quiz_of d] courseService
                (mkStartAttemptRequest id) studentID newID now attempts).
  { intros d Hd. unfold StartAttempt. cbn [start_QuizID].
    rewrite Hne, Hh, <- Hd, find_last_quiz by (now rewrite Hd).
    unfold Mongo.FindOne. cbn [find].
    change (quiz_ID (Quiz_of d)) with (qz_ID d).
    now rewrite N.eqb_refl. }
  assert (Unavailable : forall d,
            qz_ID d = qz_ID quiz -> qz_Status d <> StatusApproved ->
            StartAttempt [Quiz_of d] courseService
              (mkStartAttemptRequest id) studentID newID now attempts
            = (Error StatusForbidden "Quiz is not available for attempts",
               attempts)).
  { intros d Hd Hp. unfold StartAttempt. cbn [start_QuizID].
    rewrite Hne, Hh. unfold Mongo.FindOne at 1. cbn [find].
    change (quiz_ID (Quiz_of d)) with (qz_ID d).
    rewrite Hd, N.eqb_refl.
    change (quiz_Status (Quiz_of d)) with (qz_Status d).
    apply String.eqb_neq in Hp. now rewrite Hp. }
  split; [| split].
  - rewrite S by reflexivity. apply Unavailable; trivial.
    rewrite Hs. discriminate.
  - eexists. unfold ApproveQuiz. rewrite Hh. cbn [ap_Status].
    change (String.eqb StatusRejected "") with false.
    change (negb (String.eqb StatusRejected StatusApproved)
            && negb (String.eqb StatusRejected StatusRejected)) with false.
    cbv iota. rewrite F, U. split; [reflexivity |].
    rewrite S by reflexivity. apply Unavailable; [reflexivity |].
    cbn [set_status qz_Status]. discriminate.
  - eexists. unfold ApproveQuiz. rewrite Hh. cbn [ap_Status].
    change (String.eqb StatusApproved "") with false.
    change (negb (String.eqb StatusApproved StatusApproved)
            && negb (String.eqb StatusApproved StatusRejected)) with false.
    cbv iota. rewrite F, U. split; [reflexivity |].
    intros Hcs Hon Hfree. rewrite S by reflexivity.
    unfold StartAttempt. cbn [start_QuizID].
    rewrite Hne, Hh. unfold Mongo.FindOne at 1. cbn [find].
    change (quiz_ID (Quiz_of (set_status StatusApproved approverID t quiz)))
      with (qz_ID quiz).
    rewrite N.eqb_refl.
    change (quiz_Status
              (Quiz_of (set_status StatusApproved approverID t quiz)))
      with StatusApproved.
    change (quiz_CourseID
              (Quiz_of (set_status StatusApproved approverID t quiz)))
      with (qz_CourseID quiz).
    change (quiz_Questions
              (Quiz_of (set_status StatusApproved approverID t quiz)))
      with (map Question_of (qz_Questions quiz)).
    rewrite String.eqb_refl. cbn [negb].
    rewrite Hc, Hcs, Hon.
    unfold Mongo.InsertOne. cbn [att_ID].
    assert (X : existsb (fun x => N.eqb (att_ID x) newID) attempts = false).
    { destruct (existsb _ attempts) eqn:X; trivial. exfalso.
      apply existsb_exists in X. destruct X as (x & Hx & Hid).
      apply N.eqb_eq in Hid. apply Hfree. rewrite <- Hid.
      now apply in_map. }
    rewrite X. eexists _, _. split; [reflexivity |]. now split.
Qed.

Lemma approval_workflow_witness :
  StartAttempt (map Quiz_of QuizScenario.created) Scenario.course_done
    (mkStartAttemptRequest Scenario.quiz1_hex) Scenario.alice 1%N
    (Scenario.ms 1000) []
  = (Error StatusForbidden "Quiz is not available for attempts", [])
  /\ exists attempt shown,
       StartAttempt (map Quiz_of QuizScenario.approved) Scenario.course_done
         (mkStartAttemptRequest Scenario.quiz1_hex) Scenario.alice 1%N
         (Scenario.ms 1000) []
       = (JSON StatusCreated (attempt, shown), [attempt])
       /\ att_MaxScore attempt == 25.
Proof.
  destruct (@approval_workflow QuizScenario.request QuizScenario.carol
              QuizScenario.newObjectID (Scenario.ms 1) (Scenario.ms 1) []
              QuizScenario.created StatusCreated QuizScenario.pending_quiz
              Scenario.quiz1_hex QuizScenario.dave (Scenario.ms 2)
              Scenario.course_done Scenario.alice 1%N (Scenario.ms 1000) []
              eq_refl eq_refl)
    as (A & _ & quizzes2 & B & C).
  split; [exact A |].
  assert (E : quizzes2 = QuizScenario.approved)
    by (vm_compute in B; injection B as <-; vm_compute; reflexivity).
  subst quizzes2.
  destruct (C eq_refl eq_refl (fun H => H)) as (attempt & shown & S & _ & M).
  exists attempt, shown. split; [exact S |]. rewrite M. vm_compute.
  reflexivity.
Defined.

(** X30.  Attempts of a deleted quiz. After [DeleteQuiz] answered 200 in a
    collection with distinct identifiers, no quiz has the identifier:
    [GetQuizByID] and [StartAttempt] answer 404 for it, and so does
    [SubmitAnswer] for a well-formed answer to an attempt in progress for that
    quiz, which stays as it is. *)
Theorem deleted_quiz_attempts (id : string) (userID : ObjectID)
  (role : string) (quizzes quizzes' : list QuizDocument) (s : Z)
  (msg : string) :
  NoDup (map qz_ID quizzes) ->
  DeleteQuiz id userID role quizzes = (JSON s msg, quizzes') ->
  exists objectID,
    ObjectIDFromHex id = Some objectID
    /\ In objectID (map qz_ID quizzes)
    /\ ~ In objectID (map qz_ID quizzes')
    /\ (forall role', GetQuizByID id role' quizzes'
                      = Error StatusNotFound "Quiz not found")
    /\ (forall courseService studentID newID now attempts,
          StartAttempt (map Quiz_of quizzes') courseService
            (mkStartAttemptRequest id) studentID newID now attempts
          = (Error StatusNotFound "Quiz not found", attempts))
    /\ (forall req studentID now attempts attemptID questionID attempt,
          submit_missing_fields req = [] ->
          ObjectIDFromHex (sub_AttemptID req) = Some attemptID ->
          ObjectIDFromHex (sub_QuestionID req) = Some questionID ->
          Mongo.FindOne
            (fun a => N.eqb (att_ID a) attemptID
                      && N.eqb (att_StudentID a) studentID) attempts
          = Some attempt ->
          att_CompletedAt attempt = None ->
          att_QuizID attempt = objectID ->
          SubmitAnswer (map Quiz_of quizzes') req studentID now attempts
          = (Error StatusNotFound "Quiz not found", attempts)).
Proof.
  intros ND E. revert E. unfold DeleteQuiz.
  destruct (ObjectIDFromHex id) as [objectID |] eqn:Hh; [| discriminate].
  destruct (Mongo.FindOne _ quizzes) as [d |] eqn:F; [| discriminate].
  destruct (negb (String.eqb role RoleProfessor)
            && negb (N.eqb (qz_CreatorID d) userID)); [discriminate |].
  destruct (find_by_quiz_id _ _ F) as (before & after & -> & Hid & NE & FF).
  rewrite DeleteOne_at by (trivial; now apply N.eqb_eq).
  intros [= <- <- <-]. exists objectID.
  assert (Gone : ~ In objectID (map qz_ID (before ++ after))).
  { rewrite map_app in *. cbn [map] in ND. apply NoDup_remove_2 in ND.
    now rewrite <- Hid. }
  assert (G : Mongo.FindOne (fun x => N.eqb (qz_ID x) objectID)
                (before ++ after) = None).
  { destruct (Mongo.FindOne _ (before ++ after)) as [x |] eqn:Fx; trivial.
    exfalso. destruct (find_some _ _ Fx) as [Hin Hx].
    apply N.eqb_eq in Hx. apply Gone. rewrite <- Hx. now apply in_map. }
  split; [reflexivity |]. split.
  { rewrite map_app. apply in_or_app. right. left. exact Hid. }
  split; [exact Gone |]. split; [| split].
  - intros role'. unfold GetQuizByID. now rewrite Hh, G.
  - intros courseService studentID newID now attempts.
    unfold StartAttempt. cbn [start_QuizID].
    rewrite (ObjectIDFromHex_nonempty _ Hh), Hh.
    unfold Mongo.FindOne. now rewrite (@find_quiz_none _ _ Gone).
  - intros req studentID now attempts attemptID questionID attempt
      V Ha Hq Hf Hc Hquiz.
    unfold SubmitAnswer. rewrite V, Ha, Hq, Hf, Hc, Hquiz.
    unfold Mongo.FindOne. now rewrite (@find_quiz_none _ _ Gone).
Qed.

Lemma deleted_quiz_attempts_witness :
  exists objectID,
    ObjectIDFromHex Scenario.quiz1_hex = Some objectID
    /\ In objectID (map qz_ID QuizScenario.approved)
    /\ GetQuizByID Scenario.quiz1_hex RoleProfessor []
       = Error StatusNotFound "Quiz not found"
    /\ SubmitAnswer (map Quiz_of [])
         (mkSubmitAnswerRequest Scenario.attempt1_hex Scenario.question2_hex
            "1" 3)
         Scenario.alice (Scenario.ms 13000) Scenario.answered
       = (Error StatusNotFound "Quiz not found", Scenario.answered).
Proof.
  assert (ND : NoDup (map qz_ID QuizScenario.approved))
    by (vm_compute; repeat constructor; intros []).
  destruct (@deleted_quiz_attempts Scenario.quiz1_hex QuizScenario.dave
              RoleProfessor QuizScenario.approved [] StatusOK
              "Quiz deleted successfully" ND eq_refl)
    as (objectID & Hh & Hin & _ & G & _ & S).
  exists objectID. split; [exact Hh |]. split; [exact Hin |].
  split; [apply G |].
  apply (S _ _ _ _ 1%N 178%N Scenario.alice_open_attempt);
    try reflexivity.
  vm_compute in Hh. injection Hh as <-. reflexivity.
Defined.
